(** * whatsapp-bridge: storage, webhook engine and security guards

    A shallow embedding of the Go bridge (packages [types], [database],
    [webhook], [api] and [whatsapp]) together with the properties its
    specification states about them.

    Conventions.
    - Go [string] is a byte string: [String.string], [len] is [String.length].
    - [time.Time] is a number of seconds, [Z].
    - Go [int] identifiers coming from SQLite row ids are [Z].
    - Everything the program obtains from outside the repository (the
      process environment, the resolver, the standard library's URL, regexp
      and JSON packages) is collected in the record [Env]; the SQLite
      connection and the remote HTTP endpoint are explicit state. *)

From Stdlib Require Import String Ascii List ZArith Bool Arith Lia.
Import ListNotations.
Local Open Scope string_scope.
Local Open Scope Z_scope.

(** ** Package [strings] (the functions the bridge calls) *)

Module Strings.

Definition HasPrefix (s pre : string) : bool := String.prefix pre s.

Fixpoint Contains (s substr : string) : bool :=
  match s with
  | EmptyString => String.eqb substr EmptyString
  | String _ s' => String.prefix substr s || Contains s' substr
  end.

(** ASCII letters only: bytes outside [A-Z] are left alone, so the
    Unicode case tables of the Go runtime are not reproduced. *)
Definition lower_byte (c : ascii) : ascii :=
  let n := nat_of_ascii c in
  if (Nat.leb 65 n && Nat.leb n 90)%bool then ascii_of_nat (n + 32) else c.

Fixpoint ToLower (s : string) : string :=
  match s with
  | EmptyString => EmptyString
  | String c s' => String (lower_byte c) (ToLower s')
  end.

Definition EqualFold (s t : string) : bool :=
  String.eqb (ToLower s) (ToLower t).

(** [s[i:j]] for [i <= j <= len(s)]. *)
Definition slice (s : string) (i j : nat) : string :=
  String.substring i (j - i) s.

(** [strings.Split(s, "/")]. *)
Fixpoint split_at (sep : ascii) (s : string) : list string :=
  match s with
  | EmptyString => [EmptyString]
  | String c s' =>
      if Ascii.eqb c sep then EmptyString :: split_at sep s'
      else match split_at sep s' with
           | [] => [String c EmptyString]
           | w :: ws => String c w :: ws
           end
  end.

Fixpoint Join (elems : list string) (sep : string) : string :=
  match elems with
  | [] => EmptyString
  | [e] => e
  | e :: rest => e ++ sep ++ Join rest sep
  end.

End Strings.

(** ** Package [types] *)

Module Types.

Record WebhookTrigger := mkWebhookTrigger {
  TriggerID : Z;
  WebhookConfigID : Z;
  TriggerType : string;
  TriggerValue : string;
  MatchType : string;
  TriggerEnabled : bool
}.

Record WebhookConfig := mkWebhookConfig {
  ID : Z;
  Name : string;
  WebhookURL : string;
  SecretToken : string;
  Enabled : bool;
  CreatedAt : Z;
  UpdatedAt : Z;
  Triggers : list WebhookTrigger
}.

(** The API response format with masked secret. *)
Record WebhookConfigResponse := mkWebhookConfigResponse {
  RespID : Z;
  RespName : string;
  RespWebhookURL : string;
  HasSecret : bool;
  SecretHint : string;
  RespEnabled : bool;
  RespCreatedAt : Z;
  RespUpdatedAt : Z;
  RespTriggers : list WebhookTrigger
}.

Definition MaskSecret (secret : string) : string :=
  if String.eqb secret "" then ""
  else if Nat.leb (String.length secret) 8 then "****"
  else Strings.slice secret 0 4 ++ "****"
       ++ Strings.slice secret (String.length secret - 4) (String.length secret).

Definition ToResponse (c : WebhookConfig) : WebhookConfigResponse :=
  {| RespID := ID c;
     RespName := Name c;
     RespWebhookURL := WebhookURL c;
     HasSecret := negb (String.eqb (SecretToken c) "");
     SecretHint := MaskSecret (SecretToken c);
     RespEnabled := Enabled c;
     RespCreatedAt := CreatedAt c;
     RespUpdatedAt := UpdatedAt c;
     RespTriggers := Triggers c |}.

Record GroupInfo := mkGroupInfo {
  IsGroup : bool;
  GroupName : string;
  ParticipantCount : Z
}.

Record WebhookMessageInfo := mkWebhookMessageInfo {
  MsgID : string;
  MsgChatJID : string;
  MsgChatName : string;
  MsgSender : string;
  MsgSenderName : string;
  MsgContent : string;
  MsgTimestamp : Z;
  MsgPushName : string;
  MsgIsFromMe : bool;
  MsgMediaType : string;
  MsgFilename : string;
  MsgMediaDownloadURL : string
}.

Record WebhookPayload := mkWebhookPayload {
  EventType : string;
  Timestamp : Z;
  PayloadConfigID : Z;
  PayloadConfigName : string;
  PayloadTriggerType : string;
  PayloadTriggerValue : string;
  PayloadTriggerMatchType : string;
  PayloadMessage : WebhookMessageInfo;
  PayloadGroupInfo : option GroupInfo;
  DeliveryAttempt : Z;
  ProcessingTimeMs : Z
}.

Definition set_DeliveryAttempt (p : WebhookPayload) (n : Z) : WebhookPayload :=
  {| EventType := EventType p;
     Timestamp := Timestamp p;
     PayloadConfigID := PayloadConfigID p;
     PayloadConfigName := PayloadConfigName p;
     PayloadTriggerType := PayloadTriggerType p;
     PayloadTriggerValue := PayloadTriggerValue p;
     PayloadTriggerMatchType := PayloadTriggerMatchType p;
     PayloadMessage := PayloadMessage p;
     PayloadGroupInfo := PayloadGroupInfo p;
     DeliveryAttempt := n;
     ProcessingTimeMs := ProcessingTimeMs p |}.

(** [DeliveredAt] is [*time.Time]: [None] is the nil pointer. *)
Record WebhookLog := mkWebhookLog {
  LogID : Z;
  LogWebhookConfigID : Z;
  LogMessageID : string;
  LogChatJID : string;
  LogTriggerType : string;
  LogTriggerValue : string;
  LogPayload : string;
  ResponseStatus : Z;
  ResponseBody : string;
  AttemptCount : Z;
  DeliveredAt : option Z;
  LogCreatedAt : Z
}.

End Types.

(** ** Package [net]: addresses and networks, as the SSRF filter uses them *)

Module Net.

(** [net.IP] is a byte slice of length 4 (IPv4) or 16 (IPv6 and
    IPv4-mapped addresses); bytes are integers in [0, 256). *)
Definition IP := list Z.

Definition isZeros (p : list Z) : bool := forallb (Z.eqb 0) p.

(** [ip.To4()]: [None] is the nil result. *)
Definition To4 (ip : IP) : option IP :=
  if Nat.eqb (length ip) 4 then Some ip
  else if (Nat.eqb (length ip) 16 && isZeros (firstn 10 ip)
           && Z.eqb (nth 10 ip 0) 255 && Z.eqb (nth 11 ip 0) 255)%bool
       then Some (skipn 12 ip)
       else None.

Definition bytes_eqb (a b : list Z) : bool :=
  Nat.eqb (length a) (length b)
  && forallb (fun xy => Z.eqb (fst xy) (snd xy)) (combine a b).

Definition IPv6loopback : IP := [0;0;0;0;0;0;0;0;0;0;0;0;0;0;0;1].

Definition IsLoopback (ip : IP) : bool :=
  match To4 ip with
  | Some ip4 => Z.eqb (nth 0 ip4 0) 127
  | None => bytes_eqb ip IPv6loopback
  end.

Definition IsLinkLocalMulticast (ip : IP) : bool :=
  match To4 ip with
  | Some ip4 =>
      Z.eqb (nth 0 ip4 0) 224 && Z.eqb (nth 1 ip4 0) 0 && Z.eqb (nth 2 ip4 0) 0
  | None =>
      Nat.eqb (length ip) 16 && Z.eqb (nth 0 ip 0) 255
      && Z.eqb (Z.land (nth 1 ip 0) 15) 2
  end.

Definition IsLinkLocalUnicast (ip : IP) : bool :=
  match To4 ip with
  | Some ip4 => Z.eqb (nth 0 ip4 0) 169 && Z.eqb (nth 1 ip4 0) 254
  | None =>
      Nat.eqb (length ip) 16 && Z.eqb (nth 0 ip 0) 254
      && Z.eqb (Z.land (nth 1 ip 0) 192) 128
  end.

(** [net.IPNet] after [networkNumberAndMask]: network number and mask of
    the same length (4 or 16). *)
Record IPNet := mkIPNet { NetIP : list Z; Mask : list Z }.

(** [net.CIDRMask(ones, bits)] with [bits = 8 * nbytes]. *)
Fixpoint CIDRMask (ones nbytes : nat) : list Z :=
  match nbytes with
  | O => []
  | S k =>
      if Nat.leb 8 ones then 255 :: CIDRMask (ones - 8) k
      else Z.land (Z.shiftl 255 (8 - Z.of_nat ones)) 255 :: CIDRMask 0 k
  end.

(** [net.ParseCIDR] on an already split literal: the address bytes and
    the prefix length.  The network number is the address masked. *)
Definition ParseCIDR (addr : list Z) (ones : nat) : IPNet :=
  let m := CIDRMask ones (length addr) in
  {| NetIP := map (fun xy => Z.land (fst xy) (snd xy)) (combine addr m);
     Mask := m |}.

Definition Contains (n : IPNet) (ip : IP) : bool :=
  let ip := match To4 ip with Some x => x | None => ip end in
  Nat.eqb (length ip) (length (NetIP n))
  && forallb (fun t => Z.eqb (Z.land (fst (fst t)) (snd t))
                             (Z.land (snd (fst t)) (snd t)))
             (combine (combine (NetIP n) ip) (Mask n)).

End Net.

(** ** What the bridge obtains from outside the repository *)

Record Env := mkEnv {
  (** [os.Getenv] *)
  Getenv : string -> string;
  (** [os.Getwd]; [None] when it fails *)
  Getwd : option string;
  (** [url.Parse] followed by [Hostname()]; [None] when parsing fails *)
  url_Hostname : string -> option string;
  (** [net.LookupIP]; [None] when resolution fails *)
  LookupIP : string -> option (list Net.IP);
  (** [regexp.Compile]; [None] on a syntax error, else the compiled
      expression's unanchored [MatchString] *)
  regexp_Compile : string -> option (string -> bool);
  (** [json.Marshal] at the payload type; [None] when it fails *)
  json_Marshal : Types.WebhookPayload -> option string;
  (** hex of HMAC-SHA256 of a payload under a key: [hmac_hex key payload] *)
  hmac_hex : string -> string -> string;
  (** [time.Now().Format("20060102_150405")] *)
  NowStamp : string
}.

(** ** Go [error] values *)

Inductive error : Type :=
| ErrDriver                      (* the SQLite driver reported a failure *)
| ErrConstraint                  (* FOREIGN KEY constraint failed *)
| ErrNoRows                      (* sql.ErrNoRows *)
| ErrNotFound (id : Z)           (* "webhook with ID %d not found" *)
| Errorf (msg : string)          (* fmt.Errorf(msg) *)
| ErrWrap (ctx : string) (e : error).   (* fmt.Errorf(ctx + ": %v", e) *)

(** ** Package [database] *)

Module Database.
Import Types.

(** *** Schema (createTables) *)

Record ChatRow := mkChatRow {
  chat_jid : string;
  chat_name : string;
  last_message_time : Z
}.

Record MessageRow := mkMessageRow {
  msg_id : string;
  msg_chat_jid : string;
  msg_sender : string;
  msg_sender_name : string;
  msg_content : string;
  msg_timestamp : Z;
  msg_is_from_me : bool;
  msg_media_type : string;
  msg_filename : string;
  msg_url : string;
  msg_media_key : list Byte.byte;
  msg_file_sha256 : list Byte.byte;
  msg_file_enc_sha256 : list Byte.byte;
  msg_file_length : Z
}.

Record ConfigRow := mkConfigRow {
  cfg_id : Z;
  cfg_name : string;
  cfg_webhook_url : string;
  cfg_secret_token : string;
  cfg_enabled : bool;
  cfg_created_at : Z;
  cfg_updated_at : Z
}.

(** The rows of [webhook_triggers] and [webhook_logs] have the columns of
    [WebhookTrigger] and [WebhookLog].  The three [seq_] fields are the
    AUTOINCREMENT counters SQLite keeps in [sqlite_sequence]. *)
Record Tables := mkTables {
  chats : list ChatRow;
  messages : list MessageRow;
  webhook_configs : list ConfigRow;
  webhook_triggers : list WebhookTrigger;
  webhook_logs : list WebhookLog;
  seq_webhook_configs : Z;
  seq_webhook_triggers : Z;
  seq_webhook_logs : Z
}.

Definition empty_tables : Tables := mkTables [] [] [] [] [] 0 0 0.

Definition set_chats (t : Tables) (v : list ChatRow) : Tables :=
  mkTables v (messages t) (webhook_configs t) (webhook_triggers t)
           (webhook_logs t) (seq_webhook_configs t) (seq_webhook_triggers t)
           (seq_webhook_logs t).
Definition set_messages (t : Tables) (v : list MessageRow) : Tables :=
  mkTables (chats t) v (webhook_configs t) (webhook_triggers t)
           (webhook_logs t) (seq_webhook_configs t) (seq_webhook_triggers t)
           (seq_webhook_logs t).
Definition set_webhook_configs (t : Tables) (v : list ConfigRow) (s : Z) : Tables :=
  mkTables (chats t) (messages t) v (webhook_triggers t)
           (webhook_logs t) s (seq_webhook_triggers t) (seq_webhook_logs t).
Definition set_webhook_triggers (t : Tables) (v : list WebhookTrigger) (s : Z) : Tables :=
  mkTables (chats t) (messages t) (webhook_configs t) v
           (webhook_logs t) (seq_webhook_configs t) s (seq_webhook_logs t).
Definition set_webhook_logs (t : Tables) (v : list WebhookLog) (s : Z) : Tables :=
  mkTables (chats t) (messages t) (webhook_configs t) (webhook_triggers t)
           v (seq_webhook_configs t) (seq_webhook_triggers t) s.

(** *** The connection

    [faults] scripts the driver: each call to the driver consumes one
    flag, and [true] makes that call fail without touching the tables.
    An exhausted script means no further failure.  [now] is the value of
    CURRENT_TIMESTAMP. *)
Record Conn := mkConn {
  tables : Tables;
  faults : list bool;
  now : Z
}.

Definition DBM (A : Type) : Type := Conn -> (error + A) * Conn.

Definition ret {A} (a : A) : DBM A := fun c => (inr a, c).
Definition fail {A} (e : error) : DBM A := fun c => (inl e, c).
Definition bind {A B} (m : DBM A) (k : A -> DBM B) : DBM B :=
  fun c => match m c with
           | (inl e, c') => (inl e, c')
           | (inr a, c') => k a c'
           end.
(** [fmt.Errorf(ctx + ": %v", err)] on the error path. *)
Definition wrap {A} (ctx : string) (m : DBM A) : DBM A :=
  fun c => match m c with
           | (inl e, c') => (inl (ErrWrap ctx e), c')
           | r => r
           end.

Declare Scope dbm_scope.
Delimit Scope dbm_scope with dbm.
Notation "x <- m ;; k" := (bind m (fun x => k))
  (at level 61, m at next level, right associativity) : dbm_scope.
Notation "m ;;; k" := (bind m (fun _ => k))
  (at level 61, right associativity) : dbm_scope.
Local Open Scope dbm_scope.

(** One round trip to the driver. *)
Definition driver : DBM unit := fun c =>
  match faults c with
  | true :: fs => (inl ErrDriver, mkConn (tables c) fs (now c))
  | false :: fs => (inr tt, mkConn (tables c) fs (now c))
  | [] => (inr tt, c)
  end.

(** [db.Exec]: a statement that rewrites the tables or is refused. *)
Definition Exec {A} (stmt : Z -> Tables -> error + (A * Tables)) : DBM A :=
  driver ;;;
  (fun c => match stmt (now c) (tables c) with
            | inl e => (inl e, c)
            | inr (a, t') => (inr a, mkConn t' (faults c) (now c))
            end).

(** [db.Query] / [db.QueryRow]: reads the tables. *)
Definition Query {A} (q : Tables -> error + A) : DBM A :=
  driver ;;;
  (fun c => match q (tables c) with
            | inl e => (inl e, c)
            | inr a => (inr a, c)
            end).

(** [db.Begin] ... [tx.Commit] with the deferred [tx.Rollback]: the body
    runs against the connection; when it fails, or when the commit is
    reported as failed, the tables return to their state at [Begin]. *)
Definition Transaction {A} (body : DBM A) : DBM A := fun c0 =>
  match wrap "failed to begin transaction" driver c0 with
  | (inl e, c1) => (inl e, c1)
  | (inr _, c1) =>
      match body c1 with
      | (inl e, c2) => (inl e, mkConn (tables c0) (faults c2) (now c2))
      | (inr a, c2) =>
          match wrap "failed to commit transaction" driver c2 with
          | (inl e, c3) => (inl e, mkConn (tables c0) (faults c3) (now c3))
          | (inr _, c3) => (inr a, c3)
          end
      end
  end.

Fixpoint mapM {A B} (f : A -> DBM B) (l : list A) : DBM (list B) :=
  match l with
  | [] => ret []
  | x :: xs => y <- f x ;; ys <- mapM f xs ;; ret (y :: ys)
  end.

(** ORDER BY key DESC; rows with equal keys keep their table order. *)
Fixpoint insert_desc {A} (key : A -> Z) (x : A) (l : list A) : list A :=
  match l with
  | [] => [x]
  | y :: ys => if key y <=? key x then x :: l else y :: insert_desc key x ys
  end.
Definition order_by_desc {A} (key : A -> Z) (l : list A) : list A :=
  fold_right (insert_desc key) [] l.

(** *** messages.go of the package: chats and messages *)

(** INSERT OR REPLACE INTO chats: the row with the same primary key
    [jid] is removed and the new row is inserted. *)
Definition StoreChat (jid name : string) (lastMessageTime : Z) : DBM unit :=
  Exec (fun _ t =>
    inr (tt, set_chats t
               (filter (fun r => negb (String.eqb (chat_jid r) jid)) (chats t)
                ++ [mkChatRow jid name lastMessageTime]))).

Definition same_key (id chatJID : string) (r : MessageRow) : bool :=
  String.eqb (msg_id r) id && String.eqb (msg_chat_jid r) chatJID.

Definition chat_exists (t : Tables) (jid : string) : bool :=
  existsb (fun r => String.eqb (chat_jid r) jid) (chats t).

(** INSERT OR REPLACE INTO messages, PRIMARY KEY (id, chat_jid),
    FOREIGN KEY (chat_jid) REFERENCES chats(jid); the connection is
    opened with foreign keys on. *)
Definition StoreMessage (id chatJID sender senderName content : string)
    (timestamp : Z) (isFromMe : bool) (mediaType filename url : string)
    (mediaKey fileSHA256 fileEncSHA256 : list Byte.byte) (fileLength : Z)
  : DBM unit :=
  if String.eqb content "" && String.eqb mediaType "" then ret tt
  else
    let senderName := if String.eqb senderName "" then sender else senderName in
    Exec (fun _ t =>
      if chat_exists t chatJID then
        inr (tt, set_messages t
                   (filter (fun r => negb (same_key id chatJID r)) (messages t)
                    ++ [mkMessageRow id chatJID sender senderName content
                          timestamp isFromMe mediaType filename url mediaKey
                          fileSHA256 fileEncSHA256 fileLength]))
      else inl ErrConstraint).

Definition GetMessageCount : DBM Z :=
  Query (fun t => inr (Z.of_nat (length (messages t)))).

Definition GetChatCount : DBM Z :=
  Query (fun t => inr (Z.of_nat (length (chats t)))).

(** *** webhooks.go of the package *)

Definition config_exists (t : Tables) (id : Z) : bool :=
  existsb (fun r => cfg_id r =? id) (webhook_configs t).

Definition set_trigger_ids (tr : WebhookTrigger) (id cfg : Z) : WebhookTrigger :=
  mkWebhookTrigger id cfg (TriggerType tr) (TriggerValue tr) (MatchType tr)
                   (TriggerEnabled tr).

(** INSERT INTO webhook_triggers; [webhook_config_id] REFERENCES
    webhook_configs(id).  Yields [LastInsertId]. *)
Definition insert_trigger (tr : WebhookTrigger) (_ : Z) (t : Tables)
  : error + (Z * Tables) :=
  if config_exists t (WebhookConfigID tr) then
    let id := seq_webhook_triggers t + 1 in
    inr (id, set_webhook_triggers t
               (webhook_triggers t ++ [set_trigger_ids tr id (WebhookConfigID tr)])
               id)
  else inl ErrConstraint.

(** The Go method writes the new id through the pointer; here the
    updated trigger is the result. *)
Definition StoreWebhookTrigger (trigger : WebhookTrigger) : DBM WebhookTrigger :=
  id <- Exec (insert_trigger trigger) ;;
  ret (set_trigger_ids trigger id (WebhookConfigID trigger)).

Definition set_config_id_triggers (c : WebhookConfig) (id : Z)
    (trs : list WebhookTrigger) : WebhookConfig :=
  mkWebhookConfig id (Name c) (WebhookURL c) (SecretToken c) (Enabled c)
                  (CreatedAt c) (UpdatedAt c) trs.

(** The result is the configuration as the caller's pointer sees it
    after a nil error (on an error the handlers drop the struct). *)
Definition StoreWebhookConfig (config : WebhookConfig) : DBM WebhookConfig :=
  id <- Exec (fun now t =>
          let id := seq_webhook_configs t + 1 in
          inr (id, set_webhook_configs t
                     (webhook_configs t
                      ++ [mkConfigRow id (Name config) (WebhookURL config)
                            (SecretToken config) (Enabled config) now now])
                     id)) ;;
  trs <- mapM (fun tr => StoreWebhookTrigger
                           (set_trigger_ids tr (TriggerID tr) id))
              (Triggers config) ;;
  ret (set_config_id_triggers config id trs).

Definition triggers_of (t : Tables) (id : Z) : list WebhookTrigger :=
  filter (fun tr => WebhookConfigID tr =? id) (webhook_triggers t).

Definition GetWebhookTriggers (webhookConfigID : Z) : DBM (list WebhookTrigger) :=
  Query (fun t => inr (triggers_of t webhookConfigID)).

Definition config_of_row (r : ConfigRow) (trs : list WebhookTrigger) : WebhookConfig :=
  mkWebhookConfig (cfg_id r) (cfg_name r) (cfg_webhook_url r)
                  (cfg_secret_token r) (cfg_enabled r) (cfg_created_at r)
                  (cfg_updated_at r) trs.

Definition GetWebhookConfig (id : Z) : DBM WebhookConfig :=
  row <- Query (fun t =>
           match find (fun r => cfg_id r =? id) (webhook_configs t) with
           | Some r => inr r
           | None => inl ErrNoRows
           end) ;;
  trs <- GetWebhookTriggers id ;;
  ret (config_of_row row trs).

Definition GetAllWebhookConfigs : DBM (list WebhookConfig) :=
  rows <- Query (fun t => inr (order_by_desc cfg_created_at (webhook_configs t))) ;;
  mapM (fun r => trs <- GetWebhookTriggers (cfg_id r) ;;
                 ret (config_of_row r trs)) rows.

(** UPDATE webhook_configs SET ... WHERE id = ?; yields [RowsAffected]. *)
Definition update_config_row (config : WebhookConfig) (now : Z) (t : Tables)
  : error + (Z * Tables) :=
  inr (Z.of_nat (length (filter (fun r => cfg_id r =? ID config)
                                (webhook_configs t))),
       set_webhook_configs t
         (map (fun r =>
                 if cfg_id r =? ID config
                 then mkConfigRow (cfg_id r) (Name config) (WebhookURL config)
                        (SecretToken config) (Enabled config)
                        (cfg_created_at r) now
                 else r)
              (webhook_configs t))
         (seq_webhook_configs t)).

(** DELETE FROM webhook_triggers WHERE webhook_config_id = ? *)
Definition delete_triggers_of (id : Z) (_ : Z) (t : Tables)
  : error + (unit * Tables) :=
  inr (tt, set_webhook_triggers t
             (filter (fun tr => negb (WebhookConfigID tr =? id))
                     (webhook_triggers t))
             (seq_webhook_triggers t)).

(** DELETE FROM webhook_logs WHERE webhook_config_id = ? *)
Definition delete_logs_of (id : Z) (_ : Z) (t : Tables)
  : error + (unit * Tables) :=
  inr (tt, set_webhook_logs t
             (filter (fun l => negb (LogWebhookConfigID l =? id))
                     (webhook_logs t))
             (seq_webhook_logs t)).

(** DELETE FROM webhook_configs WHERE id = ?; refused while a trigger or
    a log row still references the configuration. *)
Definition delete_config_row (id : Z) (_ : Z) (t : Tables)
  : error + (unit * Tables) :=
  if existsb (fun tr => WebhookConfigID tr =? id) (webhook_triggers t)
     || existsb (fun l => LogWebhookConfigID l =? id) (webhook_logs t)
  then inl ErrConstraint
  else inr (tt, set_webhook_configs t
                  (filter (fun r => negb (cfg_id r =? id)) (webhook_configs t))
                  (seq_webhook_configs t)).

(** The result is the configuration as the caller's pointer sees it
    after a nil error: triggers carry the configuration id and their
    new row ids. *)
Definition UpdateWebhookConfig (config : WebhookConfig) : DBM WebhookConfig :=
  Transaction (
    rowsAffected <- wrap "failed to update webhook config"
                      (Exec (update_config_row config)) ;;
    if rowsAffected =? 0 then fail (ErrNotFound (ID config))
    else
      wrap "failed to delete existing triggers"
           (Exec (delete_triggers_of (ID config))) ;;;
      trs <- mapM (fun tr =>
               let tr' := set_trigger_ids tr (TriggerID tr) (ID config) in
               id <- wrap "failed to insert trigger" (Exec (insert_trigger tr')) ;;
               ret (set_trigger_ids tr' id (ID config)))
             (Triggers config) ;;
      ret (set_config_id_triggers config (ID config) trs)).

Definition DeleteWebhookConfig (id : Z) : DBM unit :=
  count <- Query (fun t =>
             inr (Z.of_nat (length (filter (fun r => cfg_id r =? id)
                                           (webhook_configs t))))) ;;
  if count =? 0 then fail (ErrNotFound id)
  else
    Exec (delete_logs_of id) ;;;
    Exec (delete_triggers_of id) ;;;
    Exec (delete_config_row id).

Definition DeleteWebhookTrigger (id : Z) : DBM unit :=
  Exec (fun _ t =>
    inr (tt, set_webhook_triggers t
               (filter (fun tr => negb (TriggerID tr =? id)) (webhook_triggers t))
               (seq_webhook_triggers t))).

Definition log_row (l : WebhookLog) (id created : Z) : WebhookLog :=
  mkWebhookLog id (LogWebhookConfigID l) (LogMessageID l) (LogChatJID l)
               (LogTriggerType l) (LogTriggerValue l) (LogPayload l)
               (ResponseStatus l) (ResponseBody l) (AttemptCount l)
               (DeliveredAt l) created.

(** INSERT INTO webhook_logs; [webhook_config_id] REFERENCES
    webhook_configs(id). *)
Definition StoreWebhookLog (log : WebhookLog) : DBM unit :=
  Exec (fun now t =>
    if config_exists t (LogWebhookConfigID log) then
      let id := seq_webhook_logs t + 1 in
      inr (tt, set_webhook_logs t (webhook_logs t ++ [log_row log id now]) id)
    else inl ErrConstraint).

Definition GetWebhookLogs (webhookConfigID limit : Z) : DBM (list WebhookLog) :=
  Query (fun t =>
    let rows := if 0 <? webhookConfigID
                then filter (fun l => LogWebhookConfigID l =? webhookConfigID)
                            (webhook_logs t)
                else webhook_logs t in
    let rows := order_by_desc LogCreatedAt rows in
    inr (if 0 <? limit then firstn (Z.to_nat limit) rows else rows)).

End Database.

(** ** The platform library's message events (whatsmeow), as far as the
    bridge reads them *)

Module Events.

Record JID := mkJID { User : string; Server : string }.

(** [JID.String()] of an address without device part. *)
Definition JID_String (j : JID) : string :=
  if String.eqb (User j) "" then Server j else User j ++ "@" ++ Server j.

Record Media := mkMedia {
  URL : string;
  MediaKey : list Byte.byte;
  FileSHA256 : list Byte.byte;
  FileEncSHA256 : list Byte.byte;
  FileLength : Z;
  FileName : string               (* documents only *)
}.

(** [waE2E.Message]: the getters return the zero value for absent
    fields, so [Conversation] is a plain string. *)
Record E2EMessage := mkE2EMessage {
  Conversation : string;
  ExtendedTextMessage : option string;
  ImageMessage : option Media;
  VideoMessage : option Media;
  AudioMessage : option Media;
  DocumentMessage : option Media
}.

Record MessageInfo := mkMessageInfo {
  InfoID : string;
  Chat : JID;
  Sender : JID;
  PushName : string;
  InfoTimestamp : Z;
  IsFromMe : bool
}.

Record Message := mkMessage {
  Info : MessageInfo;
  Msg : option E2EMessage
}.

Definition ExtractTextContent (msg : option E2EMessage) : string :=
  match msg with
  | None => ""
  | Some m =>
      if negb (String.eqb (Conversation m) "") then Conversation m
      else match ExtendedTextMessage m with
           | Some text => text
           | None => ""
           end
  end.

(** The first two components of [ExtractMediaInfo] are the media type and
    the file name; the rest comes from the media block. *)
Definition ExtractMediaInfo (E : Env) (msg : option E2EMessage)
  : string * string * Media :=
  let none := ("", "", mkMedia "" [] [] [] 0 "") in
  match msg with
  | None => none
  | Some m =>
      match ImageMessage m with
      | Some img => ("image", "image_" ++ NowStamp E ++ ".jpg", img)
      | None =>
      match VideoMessage m with
      | Some vid => ("video", "video_" ++ NowStamp E ++ ".mp4", vid)
      | None =>
      match AudioMessage m with
      | Some aud => ("audio", "audio_" ++ NowStamp E ++ ".ogg", aud)
      | None =>
      match DocumentMessage m with
      | Some doc =>
          ("document",
           if String.eqb (FileName doc) "" then "document_" ++ NowStamp E
           else FileName doc,
           doc)
      | None => none
      end end end end
  end.

Definition mediaType_of (E : Env) (msg : option E2EMessage) : string :=
  fst (fst (ExtractMediaInfo E msg)).

End Events.

(** ** Package [webhook]: validation *)

Module Validation.
Import Types.

(** The networks registered by the package's [init]. *)
Definition privateIPBlocks : list Net.IPNet :=
  [ Net.ParseCIDR [10;0;0;0] 8;                       (* 10.0.0.0/8 *)
    Net.ParseCIDR [172;16;0;0] 12;                    (* 172.16.0.0/12 *)
    Net.ParseCIDR [192;168;0;0] 16;                   (* 192.168.0.0/16 *)
    Net.ParseCIDR [127;0;0;0] 8;                      (* 127.0.0.0/8 *)
    Net.ParseCIDR [169;254;0;0] 16;                   (* 169.254.0.0/16 *)
    Net.ParseCIDR [0;0;0;0] 8;                        (* 0.0.0.0/8 *)
    Net.ParseCIDR [224;0;0;0] 4;                      (* 224.0.0.0/4 *)
    Net.ParseCIDR [240;0;0;0] 4;                      (* 240.0.0.0/4 *)
    Net.ParseCIDR [0;0;0;0;0;0;0;0;0;0;0;0;0;0;0;1] 128;    (* ::1/128 *)
    Net.ParseCIDR [252;0;0;0;0;0;0;0;0;0;0;0;0;0;0;0] 7;    (* fc00::/7 *)
    Net.ParseCIDR [254;128;0;0;0;0;0;0;0;0;0;0;0;0;0;0] 10  (* fe80::/10 *)
  ].

Definition isPrivateIP (ip : Net.IP) : bool :=
  if Net.IsLoopback ip || Net.IsLinkLocalMulticast ip || Net.IsLinkLocalUnicast ip
  then true
  else existsb (fun block => Net.Contains block ip) privateIPBlocks.

Definition blockedHosts : list string :=
  ["metadata.google.internal"; "169.254.169.254"; "metadata.azure.com"].

(** [None] is the nil error. *)
Definition ValidateWebhookURL (E : Env) (webhookURL : string) : option error :=
  if String.eqb (Getenv E "DISABLE_SSRF_CHECK") "true" then None
  else
    match url_Hostname E webhookURL with
    | None => Some (Errorf "invalid webhook URL")
    | Some hostname =>
        if existsb (fun blocked => Strings.EqualFold hostname blocked) blockedHosts
        then Some (Errorf "webhook URL hostname is blocked")
        else
          match LookupIP E hostname with
          | None => Some (Errorf "failed to resolve webhook URL hostname")
          | Some ips =>
              if existsb isPrivateIP ips
              then Some (Errorf "webhook URL resolves to private/reserved IP")
              else None
          end
    end.

Definition validTypes : list string :=
  ["all"; "chat_jid"; "sender"; "keyword"; "media_type"].
Definition validMatchTypes : list string := ["exact"; "contains"; "regex"].

Definition validate_trigger (E : Env) (trigger : WebhookTrigger) : option error :=
  if String.eqb (TriggerType trigger) "" then Some (Errorf "trigger type is required")
  else if negb (existsb (String.eqb (TriggerType trigger)) validTypes)
  then Some (Errorf "invalid trigger type")
  else if negb (existsb (String.eqb (MatchType trigger)) validMatchTypes)
  then Some (Errorf "invalid match type")
  else if String.eqb (MatchType trigger) "regex"
          && negb (String.eqb (TriggerValue trigger) "")
  then match regexp_Compile E (TriggerValue trigger) with
       | None => Some (Errorf "invalid regex pattern")
       | Some _ => None
       end
  else None.

(** The loop over [config.Triggers] returns at the first invalid trigger. *)
Fixpoint validate_triggers (E : Env) (l : list WebhookTrigger) : option error :=
  match l with
  | [] => None
  | tr :: rest =>
      match validate_trigger E tr with
      | Some e => Some e
      | None => validate_triggers E rest
      end
  end.

Definition ValidateWebhookConfig (E : Env) (config : WebhookConfig) : option error :=
  if String.eqb (Name config) "" then Some (Errorf "webhook name is required")
  else if Nat.ltb 255 (String.length (Name config))
  then Some (Errorf "webhook name must be less than 256 characters")
  else if String.eqb (WebhookURL config) ""
  then Some (Errorf "webhook URL is required")
  else if Nat.ltb 2048 (String.length (WebhookURL config))
  then Some (Errorf "webhook URL must be less than 2048 characters")
  else if negb (Strings.HasPrefix (WebhookURL config) "http://")
          && negb (Strings.HasPrefix (WebhookURL config) "https://")
  then Some (Errorf "webhook URL must start with http:// or https://")
  else match ValidateWebhookURL E (WebhookURL config) with
       | Some e => Some e
       | None => validate_triggers E (Triggers config)
       end.

End Validation.

(** ** Package [webhook]: the manager's trigger matching *)

Module Manager.
Import Types Events.

(** [regexp.MatchString(pattern, text)]: [None] is the compile error. *)
Definition regexp_MatchString (E : Env) (pattern text : string) : option bool :=
  match regexp_Compile E pattern with
  | None => None
  | Some re => Some (re text)
  end.

Definition matchesString (E : Env) (text pattern matchType : string) : bool :=
  if String.eqb matchType "exact" then String.eqb text pattern
  else if String.eqb matchType "contains"
  then Strings.Contains (Strings.ToLower text) (Strings.ToLower pattern)
  else if String.eqb matchType "regex"
  then match regexp_MatchString E pattern text with
       | None => false
       | Some matched => matched
       end
  else false.

Definition matchesTrigger (E : Env) (trigger : WebhookTrigger) (msg : Message)
    (content mediaType chatName : string) : bool :=
  let ty := TriggerType trigger in
  if String.eqb ty "all" then true
  else if String.eqb ty "chat_jid"
  then matchesString E (JID_String (Chat (Info msg)))
                     (TriggerValue trigger) (MatchType trigger)
  else if String.eqb ty "sender"
  then matchesString E (JID_String (Sender (Info msg)))
                     (TriggerValue trigger) (MatchType trigger)
       || matchesString E (User (Sender (Info msg)))
                        (TriggerValue trigger) (MatchType trigger)
  else if String.eqb ty "keyword"
  then matchesString E content (TriggerValue trigger) (MatchType trigger)
  else if String.eqb ty "media_type"
  then matchesString E mediaType (TriggerValue trigger) (MatchType trigger)
  else false.

(** The inner loop of [MatchesTriggers] and of [ProcessMessage]: the
    first enabled trigger that matches. *)
Definition first_match (E : Env) (config : WebhookConfig) (msg : Message)
    (content mediaType chatName : string) : option WebhookTrigger :=
  find (fun trigger =>
          TriggerEnabled trigger
          && matchesTrigger E trigger msg content mediaType chatName)
       (Triggers config).

Definition MatchesTriggers (E : Env) (configs : list WebhookConfig)
    (msg : Message) (chatName : string) : list WebhookConfig :=
  let content := ExtractTextContent (Msg msg) in
  let mediaType := mediaType_of E (Msg msg) in
  filter (fun config =>
            Enabled config
            && match first_match E config msg content mediaType chatName with
               | Some _ => true
               | None => false
               end)
         configs.

(** One delivery task, as handed to [go wm.delivery.DeliverWebhook]. *)
Record Task := mkTask {
  TaskConfig : WebhookConfig;
  TaskPayload : WebhookPayload;
  TaskMessageID : string;
  TaskChatJID : string;
  TaskTrigger : WebhookTrigger
}.

(** [ProcessMessage] up to the point where the deliveries are spawned;
    [elapsed] is [time.Since(startTime).Milliseconds()]. *)
Definition ProcessMessage (E : Env) (configs : list WebhookConfig)
    (msg : Message) (chatName : string) (elapsed : Z) : list Task :=
  let matchedConfigs := MatchesTriggers E configs msg chatName in
  let content := ExtractTextContent (Msg msg) in
  let '(mediaType, filename, _) := ExtractMediaInfo E (Msg msg) in
  let info := Info msg in
  let message :=
    mkWebhookMessageInfo (InfoID info) (JID_String (Chat info)) chatName
      (JID_String (Sender info)) (User (Sender info)) content
      (InfoTimestamp info) (PushName info) (IsFromMe info) mediaType filename
      (if String.eqb mediaType "" then ""
       else "http://localhost:8080/api/download") in
  let group :=
    if String.eqb (Server (Chat info)) "g.us"
    then Some (mkGroupInfo true chatName 0) else None in
  flat_map (fun config =>
    match first_match E config msg content mediaType chatName with
    | None => []
    | Some trigger =>
        [mkTask config
           (mkWebhookPayload "message_received" (InfoTimestamp info)
              (ID config) (Name config)
              (TriggerType trigger) (TriggerValue trigger) (MatchType trigger)
              message group 1 elapsed)
           (InfoID info) (JID_String (Chat info)) trigger]
    end) matchedConfigs.

End Manager.

(** ** Package [webhook]: delivery *)

Module Delivery.
Import Types Database.

(** What one round trip to the target yields: a transport failure
    (refused connection, timeout), or a response whose body arrives as
    the successive chunks that calls to [Body.Read] deliver. *)
Inductive HttpOutcome :=
| TransportError (msg : string)
| Response (status : Z) (body : list string).

Inductive Event :=
| Posted (url body : string) (signature : option string)
| Slept (seconds : Z).

(** The store, the scripted target (one outcome per round trip, a
    refused connection once the script is exhausted) and the effects
    performed so far, oldest first. *)
Record World := mkWorld {
  conn : Conn;
  remote : list HttpOutcome;
  events : list Event
}.

(** One [Read] into a buffer of [size] bytes: at most [size] bytes of
    what is available, which is the first chunk. *)
Definition Read (size : nat) (body : list string) : string :=
  match body with
  | [] => ""
  | chunk :: _ => String.substring 0 size chunk
  end.

Definition generateHMACSignature (E : Env) (payload secret : string) : string :=
  "sha256=" ++ hmac_hex E secret payload.

Definition sendHTTPRequest (E : Env) (config : WebhookConfig) (payload : string)
    (w : World) : (bool * Z * string) * World :=
  match url_Hostname E (WebhookURL config) with
  | None => ((false, 0, "invalid URL"), w)         (* http.NewRequest fails *)
  | Some _ =>
      let signature :=
        if negb (String.eqb (SecretToken config) "")
        then Some (generateHMACSignature E payload (SecretToken config))
        else None in
      let w' := mkWorld (conn w) (tl (remote w))
                  (events w ++ [Posted (WebhookURL config) payload signature]) in
      match remote w with
      | [] => ((false, 0, "connection refused"), w')
      | TransportError msg :: _ => ((false, 0, msg), w')
      | Response status body :: _ =>
          (((200 <=? status) && (status <? 300), status, Read 1024 body), w')
      end
  end.

Definition maxRetries : Z := 5.
Definition backoffIntervals : list Z := [1; 2; 4; 8; 16].

(** [time.Sleep]: the clock moves on. *)
Definition Sleep (seconds : Z) (w : World) : World :=
  mkWorld (mkConn (tables (conn w)) (faults (conn w)) (now (conn w) + seconds))
          (remote w) (events w ++ [Slept seconds]).

(** [ds.messageStore.StoreWebhookLog(log)]; an error is only logged. *)
Definition store_log (log : WebhookLog) (w : World) : World :=
  mkWorld (snd (StoreWebhookLog log (conn w))) (remote w) (events w).

(** The loop [for attempt := 1; attempt <= maxRetries; attempt++];
    [remaining] is the number of iterations left. *)
Fixpoint attempts (E : Env) (config : WebhookConfig) (payload : WebhookPayload)
    (messageID chatJID : string) (trigger : WebhookTrigger)
    (remaining : nat) (attempt : Z) (w : World) : World :=
  match remaining with
  | O => w
  | S k =>
      let payload := set_DeliveryAttempt payload attempt in
      let payloadBytes :=
        match json_Marshal E payload with Some b => b | None => "" end in
      let '((success, statusCode, responseBody), w1) :=
        sendHTTPRequest E config payloadBytes w in
      let log :=
        mkWebhookLog 0 (ID config) messageID chatJID (TriggerType trigger)
          (TriggerValue trigger) payloadBytes statusCode responseBody attempt
          (if success then Some (now (conn w1)) else None) 0 in
      let w2 := store_log log w1 in
      if success then w2
      else
        let w3 :=
          if attempt <? maxRetries
          then Sleep (nth (Z.to_nat (attempt - 1)) backoffIntervals 0) w2
          else w2 in
        attempts E config payload messageID chatJID trigger k (attempt + 1) w3
  end.

Definition DeliverWebhook (E : Env) (config : WebhookConfig)
    (payload : WebhookPayload) (messageID chatJID : string)
    (trigger : WebhookTrigger) (w : World) : World :=
  match json_Marshal E payload with
  | None => w
  | Some _ =>
      attempts E config payload messageID chatJID trigger
               (Z.to_nat maxRetries) 1 w
  end.

Definition testPayload (config : WebhookConfig) (nowT : Z) : WebhookPayload :=
  mkWebhookPayload "test" nowT (ID config) (Name config) "" "" ""
    (mkWebhookMessageInfo "test-message-id" "test@s.whatsapp.net" "Test Chat"
       "test" "Test User" "This is a test message" nowT "" false "" "" "")
    None 1 0.

Definition TestWebhook (E : Env) (config : WebhookConfig) (w : World)
  : option error * World :=
  match json_Marshal E (testPayload config (now (conn w))) with
  | None => (Some (Errorf "failed to marshal test payload"), w)
  | Some payloadBytes =>
      let '((success, _, _), w') := sendHTTPRequest E config payloadBytes w in
      (if success then None else Some (Errorf "test webhook failed"), w')
  end.

End Delivery.

(** ** Package [api]: the webhook handlers *)

Module Api.
Import Types Database Delivery.

(** The value under the ["data"] key of a response, by its Go type:
    [encoding/json] writes a [WebhookConfig] with its [secret_token]
    field and a [WebhookConfigResponse] with [has_secret] and
    [secret_hint] only. *)
Inductive Data :=
| NoData
| ConfigData (c : WebhookConfig)
| ResponseData (r : WebhookConfigResponse)
| ResponseList (l : list WebhookConfigResponse)
| LogList (l : list WebhookLog).

Record HTTPResponse := mkHTTPResponse {
  StatusCode : Z;
  Success : bool;
  RespData : Data;
  RespMessage : string
}.

(** The strings found under a ["secret_token"] key of the response body. *)
Definition secret_tokens (r : HTTPResponse) : list string :=
  match RespData r with
  | ConfigData c => [SecretToken c]
  | _ => []
  end.

(** The strings found under a ["secret_hint"] key of the response body. *)
Definition secret_hints (r : HTTPResponse) : list string :=
  match RespData r with
  | ResponseData x => [SecretHint x]
  | ResponseList l => map SecretHint l
  | _ => []
  end.

(** A request after [json.NewDecoder(r.Body).Decode]: [BodyConfig] is the
    body decoded as a [WebhookConfig], [BodyEnabled] the body decoded as
    [struct{Enabled bool}]; [None] is a decoding error. *)
Record Request := mkRequest {
  Method : string;
  Path : string;
  BodyConfig : option WebhookConfig;
  BodyEnabled : option bool
}.

(** The server: its store and HTTP client, and the manager's snapshot
    [wm.configs]. *)
Record Server := mkServer {
  world : World;
  configs : list WebhookConfig
}.

Definition SendJSONError (message : string) (statusCode : Z) : HTTPResponse :=
  mkHTTPResponse statusCode false NoData message.

Definition ok (d : Data) (message : string) : HTTPResponse :=
  mkHTTPResponse 200 true d message.

Definition with_conn (s : Server) (c : Conn) : Server :=
  mkServer (mkWorld c (remote (world s)) (events (world s))) (configs s).

(** [wm.LoadWebhookConfigs()], its error discarded by the handlers. *)
Definition LoadWebhookConfigs (s : Server) : Server :=
  match GetAllWebhookConfigs (conn (world s)) with
  | (inl _, c) => with_conn s c
  | (inr cfgs, c) => mkServer (world (with_conn s c)) cfgs
  end.

Definition handleWebhooks (E : Env) (r : Request) (s : Server)
  : HTTPResponse * Server :=
  if String.eqb (Method r) "GET" then
    (ok (ResponseList (map ToResponse (configs s))) "", s)
  else if String.eqb (Method r) "POST" then
    match BodyConfig r with
    | None => (SendJSONError "Invalid request format" 400, s)
    | Some config =>
        match Validation.ValidateWebhookConfig E config with
        | Some _ => (SendJSONError "validation failed" 400, s)
        | None =>
            match StoreWebhookConfig config (conn (world s)) with
            | (inl _, c) =>
                (SendJSONError "Failed to store webhook config" 500, with_conn s c)
            | (inr config', c) =>
                (ok (ConfigData config') "", LoadWebhookConfigs (with_conn s c))
            end
        end
    end
  else (SendJSONError "Method not allowed" 405, s).

Definition TrimPrefix (s pre : string) : string :=
  if Strings.HasPrefix s pre
  then String.substring (String.length pre) (String.length s) s else s.

Definition digit (c : ascii) : option Z :=
  let n := nat_of_ascii c in
  if (Nat.leb 48 n && Nat.leb n 57)%bool then Some (Z.of_nat (n - 48)) else None.

Fixpoint digits (s : string) (acc : option Z) : option Z :=
  match s with
  | EmptyString => acc
  | String c s' =>
      match digit c with
      | Some d => digits s' (Some (10 * match acc with Some a => a | None => 0 end + d))
      | None => acc
      end
  end.

(** [fmt.Sscanf(s, "%d", &n)]: an optional sign and the leading decimal
    digits; [None] when there is no digit to read. *)
Definition Sscanf_d (s : string) : option Z :=
  match s with
  | String "-"%char s' => option_map Z.opp (digits s' None)
  | String "+"%char s' => digits s' None
  | _ => digits s None
  end.

Definition set_ID (c : WebhookConfig) (id : Z) : WebhookConfig :=
  mkWebhookConfig id (Name c) (WebhookURL c) (SecretToken c) (Enabled c)
                  (CreatedAt c) (UpdatedAt c) (Triggers c).
Definition set_Enabled (c : WebhookConfig) (b : bool) : WebhookConfig :=
  mkWebhookConfig (ID c) (Name c) (WebhookURL c) (SecretToken c) b
                  (CreatedAt c) (UpdatedAt c) (Triggers c).

(** /api/webhooks/{id} *)
Definition webhook_item (E : Env) (r : Request) (webhookID : Z) (s : Server)
  : HTTPResponse * Server :=
  if String.eqb (Method r) "GET" then
    match GetWebhookConfig webhookID (conn (world s)) with
    | (inl _, c) => (SendJSONError "Webhook not found" 404, with_conn s c)
    | (inr config, c) => (ok (ResponseData (ToResponse config)) "", with_conn s c)
    end
  else if String.eqb (Method r) "PUT" then
    match BodyConfig r with
    | None => (SendJSONError "Invalid request format" 400, s)
    | Some config =>
        let config := set_ID config webhookID in
        match Validation.ValidateWebhookConfig E config with
        | Some _ => (SendJSONError "validation failed" 400, s)
        | None =>
            match UpdateWebhookConfig config (conn (world s)) with
            | (inl _, c) =>
                (SendJSONError "Failed to update webhook config" 500, with_conn s c)
            | (inr config', c) =>
                (ok (ResponseData (ToResponse config')) "",
                 LoadWebhookConfigs (with_conn s c))
            end
        end
    end
  else if String.eqb (Method r) "DELETE" then
    match DeleteWebhookConfig webhookID (conn (world s)) with
    | (inl _, c) =>
        (SendJSONError "Failed to delete webhook config" 500, with_conn s c)
    | (inr _, c) =>
        (ok NoData "Webhook deleted successfully", LoadWebhookConfigs (with_conn s c))
    end
  else (SendJSONError "Method not allowed" 405, s).

(** /api/webhooks/{id}/test *)
Definition webhook_test (E : Env) (r : Request) (webhookID : Z) (s : Server)
  : HTTPResponse * Server :=
  if negb (String.eqb (Method r) "POST")
  then (SendJSONError "Method not allowed" 405, s)
  else
    match GetWebhookConfig webhookID (conn (world s)) with
    | (inl _, c) => (SendJSONError "Webhook not found" 404, with_conn s c)
    | (inr config, c) =>
        match TestWebhook E config (world (with_conn s c)) with
        | (Some _, w) => (SendJSONError "Webhook test failed" 500, mkServer w (configs s))
        | (None, w) => (ok NoData "Webhook test successful", mkServer w (configs s))
        end
    end.

(** /api/webhooks/{id}/logs *)
Definition webhook_logs_of (r : Request) (webhookID : Z) (s : Server)
  : HTTPResponse * Server :=
  if negb (String.eqb (Method r) "GET")
  then (SendJSONError "Method not allowed" 405, s)
  else
    match GetWebhookLogs webhookID 100 (conn (world s)) with
    | (inl _, c) => (SendJSONError "Failed to get webhook logs" 500, with_conn s c)
    | (inr logs, c) => (ok (LogList logs) "", with_conn s c)
    end.

(** /api/webhooks/{id}/enable *)
Definition webhook_enable (r : Request) (webhookID : Z) (s : Server)
  : HTTPResponse * Server :=
  if negb (String.eqb (Method r) "POST")
  then (SendJSONError "Method not allowed" 405, s)
  else
    match BodyEnabled r with
    | None => (SendJSONError "Invalid request format" 400, s)
    | Some enabled =>
        match GetWebhookConfig webhookID (conn (world s)) with
        | (inl _, c) => (SendJSONError "Webhook not found" 404, with_conn s c)
        | (inr config, c) =>
            let config := set_Enabled config enabled in
            match UpdateWebhookConfig config c with
            | (inl _, c') =>
                (SendJSONError "Failed to update webhook config" 500, with_conn s c')
            | (inr config', c') =>
                (ok (ConfigData config')
                    (if enabled then "Webhook enabled successfully"
                     else "Webhook disabled successfully"),
                 LoadWebhookConfigs (with_conn s c'))
            end
        end
    end.

Definition handleWebhookByID (E : Env) (r : Request) (s : Server)
  : HTTPResponse * Server :=
  match Strings.split_at "/" (TrimPrefix (Path r) "/api/webhooks/") with
  | [] => (SendJSONError "Webhook ID is required" 400, s)
  | webhookIDStr :: rest =>
      if String.eqb webhookIDStr ""
      then (SendJSONError "Webhook ID is required" 400, s)
      else
        match Sscanf_d webhookIDStr with
        | None => (SendJSONError "Invalid webhook ID" 400, s)
        | Some webhookID =>
            match rest with
            | [] => webhook_item E r webhookID s
            | [sub] =>
                if String.eqb sub "test" then webhook_test E r webhookID s
                else if String.eqb sub "logs" then webhook_logs_of r webhookID s
                else if String.eqb sub "enable" then webhook_enable r webhookID s
                else (SendJSONError "Method not allowed" 405, s)
            | _ => (SendJSONError "Method not allowed" 405, s)
            end
        end
  end.

Definition handleWebhookLogs (r : Request) (s : Server) : HTTPResponse * Server :=
  if negb (String.eqb (Method r) "GET")
  then (SendJSONError "Method not allowed" 405, s)
  else
    match GetWebhookLogs 0 100 (conn (world s)) with
    | (inl _, c) => (SendJSONError "Failed to get webhook logs" 500, with_conn s c)
    | (inr logs, c) => (ok (LogList logs) "", with_conn s c)
    end.

End Api.

(** ** Package [path/filepath] on Unix *)

Module Filepath.

Definition IsAbs (path : string) : bool := Strings.HasPrefix path "/".

(** The elements of a path, processed left to right; [stack] holds the
    elements kept so far, innermost first.  A [..] removes the element
    before it, is dropped at the root, and is kept at the start of a
    relative path. *)
Fixpoint clean_elems (rooted : bool) (elems stack : list string) : list string :=
  match elems with
  | [] => rev stack
  | e :: rest =>
      if String.eqb e "" || String.eqb e "." then clean_elems rooted rest stack
      else if String.eqb e ".." then
        match stack with
        | top :: below =>
            if String.eqb top ".." then clean_elems rooted rest (".." :: stack)
            else clean_elems rooted rest below
        | [] =>
            if rooted then clean_elems rooted rest []
            else clean_elems rooted rest [".."]
        end
      else clean_elems rooted rest (e :: stack)
  end.

Definition Clean (path : string) : string :=
  if String.eqb path "" then "."
  else
    let rooted := IsAbs path in
    let out := Strings.Join (clean_elems rooted (Strings.split_at "/" path) []) "/" in
    if rooted then "/" ++ out
    else if String.eqb out "" then "." else out.

(** [filepath.Join(a, b)]: empty elements are ignored. *)
Definition Join2 (a b : string) : string :=
  match filter (fun e => negb (String.eqb e "")) [a; b] with
  | [] => ""
  | elems => Clean (Strings.Join elems "/")
  end.

(** [filepath.Abs]; [None] when the working directory is unavailable. *)
Definition Abs (E : Env) (path : string) : option string :=
  if IsAbs path then Some (Clean path)
  else match Getwd E with
       | None => None
       | Some wd => Some (Join2 wd path)
       end.

End Filepath.

(** ** Package [whatsapp]: the media-path guard and live ingestion *)

Module Whatsapp.
Import Types Events Database.

Definition allowedMediaDirs : list string := ["/app/media"; "/app/store"; "/tmp"].

(** [None] is the nil error. *)
Definition validateMediaPath (E : Env) (mediaPath : string) : option error :=
  if String.eqb mediaPath "" then None
  else
    let cleanPath := Filepath.Clean mediaPath in
    match Filepath.Abs E cleanPath with
    | None => Some (Errorf "invalid media path")
    | Some absPath =>
        if Strings.Contains mediaPath ".."
        then Some (Errorf "path traversal not allowed")
        else if String.eqb (Getenv E "DISABLE_PATH_CHECK") "true" then None
        else if existsb (fun allowedDir =>
                           match Filepath.Abs E allowedDir with
                           | None => false
                           | Some allowedAbs => Strings.HasPrefix absPath allowedAbs
                           end) allowedMediaDirs
        then None
        else Some (Errorf "media path outside allowed directories")
    end.

(** What the wrapper asks of the platform client: the name in a group's
    info and the full name in the contact store ([None] on an error). *)
Record Client := mkClient {
  GetGroupInfo : JID -> option string;
  GetContact : JID -> option string
}.

(** The two fields read by reflection from a history-sync conversation. *)
Record ConversationNames := mkConversationNames {
  DisplayName : option string;
  ConvName : option string
}.

Definition nonempty (o : option string) : option string :=
  match o with
  | Some s => if String.eqb s "" then None else Some s
  | None => None
  end.

Definition GetChatName (c : Client) (jid : JID) (chatJID : string)
    (conversation : option ConversationNames) (sender : string)
    (db : Conn) : string * Conn :=
  let '(existing, db') :=
    Query (fun t =>
             match find (fun r => String.eqb (chat_jid r) chatJID) (chats t) with
             | Some r => inr (chat_name r)
             | None => inl ErrNoRows
             end) db in
  let fresh :=
    if String.eqb (Server jid) "g.us" then
      let name :=
        match conversation with
        | None => ""
        | Some conv =>
            match nonempty (DisplayName conv), nonempty (ConvName conv) with
            | Some dn, _ => dn
            | None, Some n => n
            | None, None => ""
            end
        end in
      if String.eqb name "" then
        match nonempty (GetGroupInfo c jid) with
        | Some n => n
        | None => "Group " ++ User jid
        end
      else name
    else
      match nonempty (GetContact c jid) with
      | Some full => full
      | None => if negb (String.eqb sender "") then sender else User jid
      end in
  match existing with
  | inr existingName =>
      if negb (String.eqb existingName "") then (existingName, db') else (fresh, db')
  | inl _ => (fresh, db')
  end.

(** [webhookManager] is the manager's snapshot when a manager is
    attached; the result lists the deliveries handed to the engine. *)
Definition HandleMessage (E : Env) (c : Client)
    (webhookManager : option (list WebhookConfig)) (elapsed : Z)
    (msg : Message) (db : Conn) : list Manager.Task * Conn :=
  let chatJID := JID_String (Chat (Info msg)) in
  let sender := User (Sender (Info msg)) in
  let '(name, db1) := GetChatName c (Chat (Info msg)) chatJID None sender db in
  let db2 := snd (StoreChat chatJID name (InfoTimestamp (Info msg)) db1) in
  let content := ExtractTextContent (Msg msg) in
  let '(mediaType, filename, media) := ExtractMediaInfo E (Msg msg) in
  if String.eqb content "" && String.eqb mediaType "" then ([], db2)
  else
    let senderName :=
      if String.eqb (PushName (Info msg)) "" then sender else PushName (Info msg) in
    let db3 :=
      snd (StoreMessage (InfoID (Info msg)) chatJID sender senderName content
             (InfoTimestamp (Info msg)) (IsFromMe (Info msg)) mediaType filename
             (URL media) (MediaKey media) (FileSHA256 media) (FileEncSHA256 media)
             (FileLength media) db2) in
    match webhookManager with
    | Some configs => (Manager.ProcessMessage E configs msg name elapsed, db3)
    | None => ([], db3)
    end.

End Whatsapp.

(** ** A regular-expression engine for a fragment of the RE2 syntax

    Literal bytes, [.], the postfix operators [*], [+], [?] and
    alternation [|].  Patterns using anything else (groups, classes,
    anchors, escapes, counted and non-greedy repetition) are outside the
    fragment and are reported as not compiling here.  Matching is by
    derivatives and, as [MatchString] does, unanchored. *)

Module Regexp.

Inductive re :=
| Void
| Eps
| Chr (c : ascii)
| Dot                          (* any byte but newline *)
| All                          (* any byte *)
| Cat (r s : re)
| Alt (r s : re)
| Star (r : re).

Fixpoint nullable (r : re) : bool :=
  match r with
  | Void => false
  | Eps => true
  | Chr _ => false
  | Dot => false
  | All => false
  | Cat r s => nullable r && nullable s
  | Alt r s => nullable r || nullable s
  | Star _ => true
  end.

Fixpoint deriv (c : ascii) (r : re) : re :=
  match r with
  | Void => Void
  | Eps => Void
  | Chr d => if Ascii.eqb c d then Eps else Void
  | Dot => if Ascii.eqb c "010"%char then Void else Eps
  | All => Eps
  | Cat r s =>
      if nullable r then Alt (Cat (deriv c r) s) (deriv c s)
      else Cat (deriv c r) s
  | Alt r s => Alt (deriv c r) (deriv c s)
  | Star r => Cat (deriv c r) (Star r)
  end.

Fixpoint full_match (r : re) (text : string) : bool :=
  match text with
  | EmptyString => nullable r
  | String c text' => full_match (deriv c r) text'
  end.

Definition is_meta (c : ascii) : bool :=
  existsb (Ascii.eqb c)
    ["\"%char; "("%char; ")"%char; "["%char; "]"%char; "{"%char; "}"%char;
     "^"%char; "$"%char].

Definition close (cur : re) (last : option re) : re :=
  match last with
  | Some a => Cat cur a
  | None => cur
  end.

Definition alt_with (done : option re) (r : re) : re :=
  match done with
  | Some d => Alt d r
  | None => r
  end.

(** [done]: the alternatives already closed; [cur]: the current
    concatenation without its last atom; [last]: that atom, still open
    to a postfix operator unless [quantified]. *)
Fixpoint parse (s : string) (done : option re) (cur : re) (last : option re)
    (quantified : bool) : option re :=
  match s with
  | EmptyString => Some (alt_with done (close cur last))
  | String c s' =>
      if Ascii.eqb c "|"%char
      then parse s' (Some (alt_with done (close cur last))) Eps None false
      else if Ascii.eqb c "*"%char || Ascii.eqb c "+"%char || Ascii.eqb c "?"%char
      then match last with
           | Some a =>
               if quantified then None
               else parse s' done cur
                      (Some (if Ascii.eqb c "*"%char then Star a
                             else if Ascii.eqb c "+"%char then Cat a (Star a)
                             else Alt Eps a))
                      true
           | None => None
           end
      else if is_meta c then None
      else parse s' done (close cur last)
                 (Some (if Ascii.eqb c "."%char then Dot else Chr c)) false
  end.

Definition Compile (pattern : string) : option (string -> bool) :=
  match parse pattern None Eps None false with
  | Some r => Some (full_match (Cat (Star All) (Cat r (Star All))))
  | None => None
  end.

End Regexp.

(** ** A concrete environment, for running the definitions *)

Module Sample.
Import Types.

Fixpoint until (stop : ascii -> bool) (s : string) : string :=
  match s with
  | EmptyString => EmptyString
  | String c s' => if stop c then EmptyString else String c (until stop s')
  end.

(** Host of [scheme://host[:port][/path]]; a reference without scheme
    parses and has no host. *)
Definition hostname (u : string) : option string :=
  let rest :=
    if Strings.HasPrefix u "http://" then Some (Api.TrimPrefix u "http://")
    else if Strings.HasPrefix u "https://" then Some (Api.TrimPrefix u "https://")
    else None in
  match rest with
  | Some r => Some (until (fun c => Ascii.eqb c "/"%char || Ascii.eqb c ":"%char) r)
  | None => Some ""
  end.

Fixpoint all_digits (s : string) : bool :=
  match s with
  | EmptyString => true
  | String c s' =>
      match Api.digit c with
      | Some _ => all_digits s'
      | None => false
      end
  end.

Definition octet (s : string) : option Z :=
  if String.eqb s "" || negb (all_digits s) then None
  else match Api.digits s None with
       | Some n => if n <=? 255 then Some n else None
       | None => None
       end.

(** A dotted-quad literal. *)
Definition literal (host : string) : option Net.IP :=
  match map octet (Strings.split_at "." host) with
  | [Some a; Some b; Some c; Some d] => Some [a; b; c; d]
  | _ => None
  end.

(** A resolver that answers for address literals, for localhost and for
    three names. *)
Definition resolver (host : string) : option (list Net.IP) :=
  match literal host with
  | Some ip => Some [ip]
  | None =>
      if String.eqb host "localhost"
      then Some [[127; 0; 0; 1]; Net.IPv6loopback]
      else if String.eqb host "public.example" then Some [[93; 184; 216; 34]]
      else if String.eqb host "split.example"
      then Some [[93; 184; 216; 34]; [10; 0; 0; 5]]
      else if String.eqb host "intranet.example" then Some [[192; 168; 1; 20]]
      else None
  end.

Definition marshal (p : WebhookPayload) : option string :=
  Some ("{delivery_attempt:"
        ++ String (ascii_of_nat (48 + Z.to_nat (DeliveryAttempt p))) "}").

Definition env : Env :=
  {| Getenv := fun _ => "";
     Getwd := Some "/app";
     url_Hostname := hostname;
     LookupIP := resolver;
     regexp_Compile := Regexp.Compile;
     json_Marshal := marshal;
     hmac_hex := fun _ _ => "00";
     NowStamp := "20240101_120000" |}.

End Sample.

(** * Further parts of the bridge *)

From Stdlib Require Import Permutation Sorted.

(** ** Go maps with string keys

    A [map[string]V] as the list of its entries, one per key; the order
    of the list carries no meaning (Go iterates maps in no fixed order). *)

Module GoMap.

Definition t (V : Type) : Type := list (string * V).

(** [v, ok := m[k]] *)
Definition get {V} (m : t V) (k : string) : option V :=
  option_map snd (find (fun kv => String.eqb (fst kv) k) m).

(** [m[k] = v] *)
Definition set {V} (m : t V) (k : string) (v : V) : t V :=
  (k, v) :: filter (fun kv => negb (String.eqb (fst kv) k)) m.

(** [delete(m, k)] *)
Definition del {V} (m : t V) (k : string) : t V :=
  filter (fun kv => negb (String.eqb (fst kv) k)) m.

End GoMap.

(** ** Package [database]: reading chats and messages back *)

Module MessageStore.
Import Database.

(** [types.Message] *)
Record Message := mkMessage {
  Time : Z;
  Sender : string;
  SenderName : string;
  Content : string;
  IsFromMe : bool;
  MediaType : string;
  Filename : string
}.



(** SELECT jid, last_message_time FROM chats ORDER BY last_message_time
    DESC, the rows entered into a map one after the other. *)
Definition GetChats : DBM (GoMap.t Z) :=
  Query (fun t =>
    inr (fold_left (fun m r => GoMap.set m (chat_jid r) (last_message_time r))
                   (order_by_desc last_message_time (chats t)) [])).

End MessageStore.

(** ** Package [main]: retrying a sync operation *)

Module Main.

(** [time.Duration] counts nanoseconds in a signed 64-bit integer. *)
Definition Second : Z := 1000000000.
Definition Minute : Z := 60 * Second.

(** Two's-complement wrap-around of 64-bit arithmetic. *)
Definition int64 (z : Z) : Z := (z + 2 ^ 63) mod 2 ^ 64 - 2 ^ 63.

Record SyncConfig := mkSyncConfig {
  MaxTimeout : Z;
  RateLimitWait : Z;
  MaxRetries : Z;
  RetryBackoff : Z
}.

Definition DefaultSyncConfig : SyncConfig :=
  mkSyncConfig (5 * Minute) (30 * Second) 3 (1 * Second).

(** The loop [for i := 0; i <= len(s)-len(substr); i++] compares
    [s[i:i+len(substr)]] with [substr] and returns at the first match. *)
Definition contains (s substr : string) : bool :=
  let last := Z.of_nat (String.length s) - Z.of_nat (String.length substr) in
  existsb (fun i => String.eqb (String.substring i (String.length substr) s) substr)
          (seq 0 (Z.to_nat (last + 1))).

(** An error is represented by its [Error()] text; [None] is nil. *)
Definition isRateLimitError (err : option string) : bool :=
  match err with
  | None => false
  | Some errStr =>
      contains errStr "429" || contains errStr "rate" || contains errStr "throttle"
  end.

(** What a run of [RetryWithBackoff] does, in order: it calls [fn], it
    waits until a timer of the given duration fires, or it finds the
    context done while waiting. *)
Inductive Step :=
| Call
| Wait (d : Z)
| Cancelled.

Record Run := mkRun {
  calls : nat;          (* calls of fn so far *)
  selects : nat;        (* select statements entered so far *)
  trace : list Step
}.

(** The surroundings of a run: what the [n]-th call of [fn] returns,
    whether the [n]-th [select] sees [ctx.Done()] before its timer, and
    the text of [ctx.Err()]. *)
Record Surroundings := mkSurroundings {
  fn : nat -> option string;
  done : nat -> bool;
  ctxErr : string
}.

(** [select { case <-time.After(d): case <-ctx.Done(): }]; [true] when
    the timer fired. *)
Definition select (S : Surroundings) (d : Z) (r : Run) : bool * Run :=
  if done S (selects r)
  then (false, mkRun (calls r) (Datatypes.S (selects r)) (trace r ++ [Cancelled]))
  else (true, mkRun (calls r) (Datatypes.S (selects r)) (trace r ++ [Wait d])).

(** The loop [for attempt := 0; attempt <= config.MaxRetries; attempt++]
    from one evaluation of its condition on; [fuel] bounds the number
    of iterations and [None] is the loop still running when it is used
    up. *)
Fixpoint retry (fuel : nat) (S : Surroundings) (config : SyncConfig)
    (attempt backoff : Z) (lastErr : option string) (r : Run)
  : option (option string * Run) :=
  match fuel with
  | O => None
  | Datatypes.S fuel' =>
      if attempt <=? MaxRetries config then
        let '(fired, backoff', r1) :=
          if 0 <? attempt
          then let '(fired, r1) := select S backoff r in
               (fired, int64 (backoff * 2), r1)
          else (true, backoff, r) in
        if negb fired then Some (Some (ctxErr S), r1)
        else
          let r2 := mkRun (Datatypes.S (calls r1)) (selects r1)
                          (trace r1 ++ [Call]) in
          match fn S (calls r1) with
          | Some err =>
              if isRateLimitError (Some err) then
                let '(fired, r3) := select S (RateLimitWait config) r2 in
                if fired
                then retry fuel' S config (int64 (attempt + 1)) backoff'
                           (Some err) r3
                else Some (Some (ctxErr S), r3)
              else retry fuel' S config (int64 (attempt + 1)) backoff'
                         (Some err) r2
          | None => Some (None, r2)
          end
      else Some (lastErr, r)
  end.

Definition RetryWithBackoff (fuel : nat) (S : Surroundings) (config : SyncConfig)
  : option (option string * Run) :=
  retry fuel S config 0 (RetryBackoff config) None (mkRun 0 0 []).

End Main.

(** ** [strings.TrimSpace]

    White space is what [unicode.IsSpace] accepts; a string is a
    sequence of bytes, so the code points are matched in their UTF-8
    encoding.  Bytes that do not decode count as the replacement
    character, which is no white space, and end the trimming. *)

Module Unicode.

Definition spaces : list (list nat) :=
  ([ [9]; [10]; [11]; [12]; [13]; [32];            (* \t \n \v \f \r and space *)
    [194; 133]; [194; 160];                       (* U+0085, U+00A0 *)
    [225; 154; 128];                              (* U+1680 *)
    [226; 128; 128]; [226; 128; 129]; [226; 128; 130]; [226; 128; 131];
    [226; 128; 132]; [226; 128; 133]; [226; 128; 134]; [226; 128; 135];
    [226; 128; 136]; [226; 128; 137]; [226; 128; 138];   (* U+2000 .. U+200A *)
    [226; 128; 168]; [226; 128; 169]; [226; 128; 175];   (* U+2028, U+2029, U+202F *)
    [226; 129; 159];                              (* U+205F *)
    [227; 128; 128] ])%nat.                       (* U+3000 *)

(** [l] without the leading bytes [p], when it starts with them. *)
Fixpoint strip (p : list nat) (l : list ascii) : option (list ascii) :=
  match p with
  | [] => Some l
  | b :: p' =>
      match l with
      | c :: l' => if Nat.eqb (nat_of_ascii c) b then strip p' l' else None
      | [] => None
      end
  end.

Fixpoint strip_any (ps : list (list nat)) (l : list ascii) : option (list ascii) :=
  match ps with
  | [] => None
  | p :: ps' =>
      match strip p l with
      | Some l' => Some l'
      | None => strip_any ps' l
      end
  end.

(** Drops leading runes of [ps]; each round removes at least one byte,
    so [length l] rounds are as many as can be needed. *)
Fixpoint trim (ps : list (list nat)) (rounds : nat) (l : list ascii) : list ascii :=
  match rounds with
  | O => l
  | S k =>
      match strip_any ps l with
      | Some l' => trim ps k l'
      | None => l
      end
  end.

Definition TrimSpace (s : string) : string :=
  let l := list_ascii_of_string s in
  let l := trim spaces (length l) l in
  let l := rev (trim (map (@rev nat) spaces) (length l) (rev l)) in
  string_of_list_ascii l.

End Unicode.

(** ** Package [api]: the security middleware

    The audit lines that the middleware prints through the [security]
    package are output only and are left out, like all logging. *)

Module Middleware.

(** A request as the middleware reads it.  [Header] is
    [r.Header.Get], indexed by the header names the source passes to
    it; a header that is absent reads as the empty string. *)
Record Request := mkRequest {
  Method : string;
  RemoteAddr : string;
  URLPath : string;
  Header : string -> string
}.

(** An [http.ResponseWriter]: its header map, the status once
    [WriteHeader] was called, and the body written.  Header names are
    kept as the source writes them; net/http stores them in canonical
    letter case, and no two names the middleware uses differ in case
    only. *)
Record ResponseWriter := mkResponseWriter {
  header : GoMap.t string;
  status : option Z;
  body : string
}.

Definition fresh : ResponseWriter := mkResponseWriter [] None "".

(** [w.Header().Set(k, v)] *)
Definition SetHeader (w : ResponseWriter) (k v : string) : ResponseWriter :=
  mkResponseWriter (GoMap.set (header w) k v) (status w) (body w).

(** [w.WriteHeader(code)]; only the first call counts. *)
Definition WriteHeader (w : ResponseWriter) (code : Z) : ResponseWriter :=
  match status w with
  | None => mkResponseWriter (header w) (Some code) (body w)
  | Some _ => w
  end.

(** [http.Error(w, error, code)] *)
Definition Error (w : ResponseWriter) (error : string) (code : Z) : ResponseWriter :=
  let w := mkResponseWriter (GoMap.del (header w) "Content-Length")
                            (status w) (body w) in
  let w := SetHeader w "Content-Type" "text/plain; charset=utf-8" in
  let w := SetHeader w "X-Content-Type-Options" "nosniff" in
  let w := WriteHeader w code in
  mkResponseWriter (header w) (status w)
                   (body w ++ error ++ String "010"%char "").

(** The rate limiter's package variables. *)
Record Limiter := mkLimiter {
  requestCounts : GoMap.t Z;
  requestWindows : GoMap.t Z
}.

Definition rateLimit : Z := 100.
Definition rateLimitWindow : Z := Main.Minute.

(** What a handler runs in: the limiter, the reading of [time.Now]
    (monotonic, in nanoseconds) and the state [A] of the application
    behind the middleware. *)
Record State (A : Type) := mkState {
  limiter : Limiter;
  clock : Z;
  app : A
}.
Arguments mkState {A}.
Arguments limiter {A}.
Arguments clock {A}.
Arguments app {A}.

Definition HandlerFunc (A : Type) : Type :=
  ResponseWriter -> Request -> State A -> ResponseWriter * State A.

Definition defaultOrigins : GoMap.t bool :=
  [("http://localhost:8089", true);     (* Webhook UI *)
   ("http://localhost:8082", true);     (* Gradio UI *)
   ("http://localhost:8090", true)].    (* Pairing UI *)

Definition getAllowedOrigins (E : Env) : GoMap.t bool :=
  let extra := Getenv E "CORS_ORIGINS" in
  if negb (String.eqb extra "")
  then fold_left (fun origins origin =>
                    GoMap.set origins (Unicode.TrimSpace origin) true)
                 (Strings.split_at "," extra) defaultOrigins
  else defaultOrigins.

(** [allowedOrigins[origin]]: false for a key that is not in the map. *)
Definition allowed (allowedOrigins : GoMap.t bool) (origin : string) : bool :=
  match GoMap.get allowedOrigins origin with
  | Some b => b
  | None => false
  end.

(** The client address both [AuthMiddleware] and [RateLimitMiddleware]
    work out: the first element of X-Forwarded-For when the header is
    there, else the peer address. *)
Definition clientIP (r : Request) : string :=
  let forwarded := Header r "X-Forwarded-For" in
  if negb (String.eqb forwarded "")
  then hd "" (Strings.split_at "," forwarded)
  else RemoteAddr r.

(** [subtle.ConstantTimeCompare] yields 1 exactly for equal byte
    strings. *)
Definition AuthMiddleware (E : Env) {A} (next : HandlerFunc A) : HandlerFunc A :=
  fun w r st =>
    let expectedKey := Getenv E "API_KEY" in
    if String.eqb expectedKey "" then next w r st
    else if negb (String.eqb (Header r "X-API-Key") expectedKey)
    then (Error w "Unauthorized" 401, st)
    else next w r st.

(** The section under [rateLimitMu]: the window of [ip] is opened or
    renewed, the request is counted, and the count is the result. *)
Definition count_request (ip : string) (now : Z) (l : Limiter) : Z * Limiter :=
  let expired :=
    match GoMap.get (requestWindows l) ip with
    | Some window => now - window >? rateLimitWindow
    | None => true
    end in
  let l := if expired
           then mkLimiter (GoMap.set (requestCounts l) ip 0)
                          (GoMap.set (requestWindows l) ip now)
           else l in
  let count :=
    Main.int64 (match GoMap.get (requestCounts l) ip with
                | Some n => n
                | None => 0
                end + 1) in
  (count, mkLimiter (GoMap.set (requestCounts l) ip count) (requestWindows l)).

Definition RateLimitMiddleware {A} (next : HandlerFunc A) : HandlerFunc A :=
  fun w r st =>
    let '(count, l) := count_request (clientIP r) (clock st) (limiter st) in
    let st := mkState l (clock st) (app st) in
    if count >? rateLimit
    then (Error (SetHeader w "Retry-After" "60") "Rate limit exceeded" 429, st)
    else next w r st.

Definition CorsMiddleware (E : Env) {A} (next : HandlerFunc A) : HandlerFunc A :=
  let allowedOrigins := getAllowedOrigins E in
  fun w r st =>
    let origin := Header r "Origin" in
    let w := if allowed allowedOrigins origin
             then SetHeader (SetHeader w "Access-Control-Allow-Origin" origin)
                            "Access-Control-Allow-Credentials" "true"
             else w in
    let w := SetHeader w "Access-Control-Allow-Methods"
                       "GET, POST, PUT, DELETE, OPTIONS" in
    let w := SetHeader w "Access-Control-Allow-Headers"
                       "Content-Type, Authorization, X-API-Key" in
    let w := SetHeader w "Access-Control-Max-Age" "86400" in
    if String.eqb (Method r) "OPTIONS" then (WriteHeader w 200, st)
    else next w r st.

Definition securityHeaders : list (string * string) :=
  [("X-Content-Type-Options", "nosniff");
   ("X-Frame-Options", "DENY");
   ("X-XSS-Protection", "1; mode=block");
   ("Referrer-Policy", "strict-origin-when-cross-origin");
   ("Content-Security-Policy", "default-src 'none'; frame-ancestors 'none'");
   ("Permissions-Policy", "geolocation=(), microphone=(), camera=()")].

Definition SecurityHeadersMiddleware {A} (next : HandlerFunc A) : HandlerFunc A :=
  fun w r st =>
    next (fold_left (fun w kv => SetHeader w (fst kv) (snd kv)) securityHeaders w)
         r st.

Definition SecureMiddleware (E : Env) {A} (next : HandlerFunc A) : HandlerFunc A :=
  SecurityHeadersMiddleware (CorsMiddleware E (RateLimitMiddleware (AuthMiddleware E next))).

End Middleware.

(** ** History sync (internal/whatsapp/handlers.go)

    [HandleHistorySync] walks the conversations of a history-sync
    event.  The log lines are left out, and with them the use of
    [syncedCount], which is kept as the first component of the result.
    A [time.Time] is the number of seconds since the Unix epoch. *)

Module History.
Import Events Database Whatsapp.

(** [waCommon.MessageKey]; [None] is a nil pointer. *)
Record MessageKey := mkMessageKey {
  FromMe : option bool;
  Participant : option string;
  KeyID : option string
}.

(** [waWeb.WebMessageInfo].  [MessageTimestamp] is what the getter
    [GetMessageTimestamp] returns, a [uint64] that is 0 for an absent
    field. *)
Record WebMessageInfo := mkWebMessageInfo {
  Key : option MessageKey;
  WebMessage : option E2EMessage;
  MessageTimestamp : Z
}.

(** [waHistorySync.HistorySyncMsg], whose [Message] may be nil. *)
Record HistorySyncMsg := mkHistorySyncMsg {
  HMessage : option WebMessageInfo
}.

(** [waHistorySync.Conversation]; the entries of [Messages] are
    pointers and may be nil. *)
Record Conversation := mkConversation {
  ID : option string;
  Names : ConversationNames;
  Messages : list (option HistorySyncMsg)
}.

(** What the handler reads besides the event: the address parser of the
    platform library ([None] on an error) and the device's own address,
    [c.Store.ID], a pointer that is nil while no device is linked. *)
Record Session := mkSession {
  client : Client;
  ParseJID : string -> option JID;
  StoreID : option JID
}.

(** [msg == nil || msg.Message == nil] *)
Definition info_of (msg : option HistorySyncMsg) : option WebMessageInfo :=
  match msg with
  | Some m => HMessage m
  | None => None
  end.

(** One round of the inner loop.  [None] is the nil-pointer panic of
    [c.Store.ID.User]; otherwise the new [syncedCount] and the
    connection. *)
Definition sync_message (E : Env) (c : Session) (jid : JID) (chatJID : string)
    (msg : option HistorySyncMsg) (syncedCount : Z) (db : Conn)
  : option (Z * Conn) :=
  match info_of msg with
  | None => Some (syncedCount, db)
  | Some info =>
      let content :=
        match WebMessage info with
        | Some m =>
            if negb (String.eqb (Events.Conversation m) "") then Events.Conversation m
            else match ExtendedTextMessage m with
                 | Some text => text
                 | None => ""
                 end
        | None => ""
        end in
      let '(mediaType, filename, media) :=
        match WebMessage info with
        | Some m => ExtractMediaInfo E (Some m)
        | None => ("", "", mkMedia "" [] [] [] 0 "")
        end in
      if String.eqb content "" && String.eqb mediaType "" then Some (syncedCount, db)
      else
        let isFromMe :=
          match Key info with
          | Some key => match FromMe key with Some b => b | None => false end
          | None => false
          end in
        let sender : option string :=
          match Key info with
          | Some key =>
              match Participant key with
              | Some p =>
                  if negb isFromMe && negb (String.eqb p "") then Some p
                  else if isFromMe then option_map User (StoreID c)
                  else Some (User jid)
              | None =>
                  if isFromMe then option_map User (StoreID c)
                  else Some (User jid)
              end
          | None => Some (User jid)
          end in
        match sender with
        | None => None
        | Some sender =>
            let msgID :=
              match Key info with
              | Some key => match KeyID key with Some id => id | None => "" end
              | None => ""
              end in
            let ts2 := MessageTimestamp info in
            if ts2 =? 0 then Some (syncedCount, db)
            else
              let timestamp := Main.int64 ts2 in
              let senderName := sender in
              match StoreMessage msgID chatJID sender senderName content timestamp
                                 isFromMe mediaType filename (URL media)
                                 (MediaKey media) (FileSHA256 media)
                                 (FileEncSHA256 media) (FileLength media) db with
              | (inl _, db') => Some (syncedCount, db')
              | (inr _, db') => Some (Main.int64 (syncedCount + 1), db')
              end
        end
  end.

Fixpoint sync_messages (E : Env) (c : Session) (jid : JID) (chatJID : string)
    (messages : list (option HistorySyncMsg)) (syncedCount : Z) (db : Conn)
  : option (Z * Conn) :=
  match messages with
  | [] => Some (syncedCount, db)
  | msg :: rest =>
      match sync_message E c jid chatJID msg syncedCount db with
      | None => None
      | Some (syncedCount', db') => sync_messages E c jid chatJID rest syncedCount' db'
      end
  end.

(** One round of the outer loop. *)
Definition sync_conversation (E : Env) (c : Session) (conversation : Conversation)
    (syncedCount : Z) (db : Conn) : option (Z * Conn) :=
  match ID conversation with
  | None => Some (syncedCount, db)
  | Some chatJID =>
      match ParseJID c chatJID with
      | None => Some (syncedCount, db)
      | Some jid =>
          let '(name, db1) :=
            GetChatName (client c) jid chatJID (Some (Names conversation)) "" db in
          match Messages conversation with
          | [] => Some (syncedCount, db1)
          | latestMsg :: _ =>
              match info_of latestMsg with
              | None => Some (syncedCount, db1)
              | Some latest =>
                  let ts := MessageTimestamp latest in
                  if ts =? 0 then Some (syncedCount, db1)
                  else
                    let timestamp := Main.int64 ts in
                    let db2 := snd (StoreChat chatJID name timestamp db1) in
                    sync_messages E c jid chatJID (Messages conversation)
                                  syncedCount db2
              end
          end
      end
  end.

Fixpoint sync_conversations (E : Env) (c : Session)
    (conversations : list Conversation) (syncedCount : Z) (db : Conn)
  : option (Z * Conn) :=
  match conversations with
  | [] => Some (syncedCount, db)
  | conversation :: rest =>
      match sync_conversation E c conversation syncedCount db with
      | None => None
      | Some (syncedCount', db') => sync_conversations E c rest syncedCount' db'
      end
  end.

Definition HandleHistorySync (E : Env) (c : Session)
    (conversations : list Conversation) (db : Conn) : option (Z * Conn) :=
  sync_conversations E c conversations 0 db.

End History.

(** ** Sending (internal/whatsapp/messages.go)

    [SendMessage] with what it asks of the platform library, the file
    system and the Ogg analysis of media.go as given functions; each
    returns the text of its error on the left. *)

Module Sending.
Import Events Database.

Inductive MediaType := MediaImage | MediaAudio | MediaVideo | MediaDocument.

Record UploadResponse := mkUploadResponse {
  UpURL : string;
  UpDirectPath : string;
  UpMediaKey : list Byte.byte;
  UpFileEncSHA256 : list Byte.byte;
  UpFileSHA256 : list Byte.byte;
  UpFileLength : Z
}.

(** The [waE2E.Message] the function builds: it starts from the empty
    message and sets exactly one field. *)
Inductive Outgoing :=
| OutConversation (text : string)
| OutImage (caption mimetype : string) (resp : UploadResponse)
| OutAudio (mimetype : string) (resp : UploadResponse) (seconds : Z) (ptt : bool)
           (waveform : option (list Byte.byte))
| OutVideo (caption mimetype : string) (resp : UploadResponse)
| OutDocument (title caption mimetype : string) (resp : UploadResponse).

(** [msg.GetConversation()] *)
Definition GetConversation (msg : Outgoing) : string :=
  match msg with
  | OutConversation text => text
  | _ => ""
  end.

Record SendResponse := mkSendResponse {
  RespID : string;
  RespTimestamp : Z
}.

(** [Timestamp] is [None] for the zero [time.Time]. *)
Record SendResult := mkSendResult {
  Success : bool;
  Error : string;
  MessageID : string;
  Timestamp : option Z
}.

Record Client := mkClient {
  IsConnected : bool;
  ParseJID : string -> string + JID;
  ReadFile : string -> string + list Byte.byte;
  Upload : list Byte.byte -> MediaType -> string + UploadResponse;
  AnalyzeOggOpus : list Byte.byte -> string + (Z * option (list Byte.byte));
  Send : JID -> Outgoing -> string + SendResponse;
  (** [c.Store.ID], nil while no device is linked *)
  StoreID : option JID
}.

Fixpoint last_index (sep : ascii) (s : string) (i found : Z) : Z :=
  match s with
  | EmptyString => found
  | String c s' => last_index sep s' (i + 1) (if Ascii.eqb c sep then i else found)
  end.

(** [strings.LastIndex(s, sep)] for a separator of one byte. *)
Definition LastIndex (s : string) (sep : ascii) : Z := last_index sep s 0 (-1).

(** [s[strings.LastIndex(s, sep)+1:]] *)
Definition after_last (s : string) (sep : ascii) : string :=
  Strings.slice s (Z.to_nat (LastIndex s sep + 1)) (String.length s).

Definition media_kind (fileExt : string) : MediaType * string :=
  if String.eqb fileExt "jpg" || String.eqb fileExt "jpeg"
  then (MediaImage, "image/jpeg")
  else if String.eqb fileExt "png" then (MediaImage, "image/png")
  else if String.eqb fileExt "gif" then (MediaImage, "image/gif")
  else if String.eqb fileExt "webp" then (MediaImage, "image/webp")
  else if String.eqb fileExt "ogg" then (MediaAudio, "audio/ogg; codecs=opus")
  else if String.eqb fileExt "mp4" then (MediaVideo, "video/mp4")
  else if String.eqb fileExt "avi" then (MediaVideo, "video/avi")
  else if String.eqb fileExt "mov" then (MediaVideo, "video/quicktime")
  else (MediaDocument, "application/octet-stream").

(** [%v] of the errors [validateMediaPath] returns, all made by
    [fmt.Errorf] from a constant. *)
Definition text_of (e : error) : string :=
  match e with
  | Errorf msg => msg
  | _ => ""
  end.

Definition failed (text : string) : SendResult := mkSendResult false text "" None.

(** The message for a media file, or the result to return early. *)
Definition media_message (E : Env) (c : Client) (message mediaPath : string)
  : SendResult + Outgoing :=
  match Whatsapp.validateMediaPath E mediaPath with
  | Some err => inl (failed ("Invalid media path: " ++ text_of err))
  | None =>
      match ReadFile c mediaPath with
      | inl err => inl (failed ("Error reading media file: " ++ err))
      | inr mediaData =>
          let fileExt := Strings.ToLower (after_last mediaPath "."%char) in
          let '(mediaType, mimeType) := media_kind fileExt in
          match Upload c mediaData mediaType with
          | inl err => inl (failed ("Error uploading media: " ++ err))
          | inr resp =>
              match mediaType with
              | MediaImage => inr (OutImage message mimeType resp)
              | MediaAudio =>
                  if Strings.Contains mimeType "ogg" then
                    match AnalyzeOggOpus c mediaData with
                    | inr (analyzedSeconds, analyzedWaveform) =>
                        inr (OutAudio mimeType resp analyzedSeconds true
                                      analyzedWaveform)
                    | inl err =>
                        inl (failed ("Failed to analyze Ogg Opus file: " ++ err))
                    end
                  else inr (OutAudio mimeType resp 30 true None)
              | MediaVideo => inr (OutVideo message mimeType resp)
              | MediaDocument =>
                  inr (OutDocument (after_last mediaPath "/"%char) message
                                   mimeType resp)
              end
          end
      end
  end.

(** [None] is the nil-pointer panic of [c.Store.ID.User], which comes
    after the message has gone out.  The error of [StoreMessage] is
    dropped. *)
Definition SendMessage (E : Env) (c : Client) (recipient message mediaPath : string)
    (db : Conn) : option (SendResult * Conn) :=
  if negb (IsConnected c) then Some (failed "Not connected to WhatsApp", db)
  else
    let isJID := Strings.Contains recipient "@" in
    match (if isJID then ParseJID c recipient
           else inr (mkJID recipient "s.whatsapp.net")) with
    | inl err => Some (failed ("Error parsing JID: " ++ err), db)
    | inr recipientJID =>
        match (if negb (String.eqb mediaPath "")
               then media_message E c message mediaPath
               else inr (OutConversation message)) with
        | inl result => Some (result, db)
        | inr msg =>
            match Send c recipientJID msg with
            | inl err => Some (failed ("Error sending message: " ++ err), db)
            | inr sendResp =>
                match StoreID c with
                | None => None
                | Some own =>
                    let db' :=
                      snd (StoreMessage (RespID sendResp) (JID_String recipientJID)
                             (User own) (User own) (GetConversation msg)
                             (RespTimestamp sendResp) true "" "" "" [] [] [] 0 db) in
                    Some (mkSendResult true "" (RespID sendResp)
                                       (Some (RespTimestamp sendResp)),
                          db')
                end
            end
        end
    end.

End Sending.

(** ** Phone pairing (internal/whatsapp/client.go)

    The pairing fields of the client, guarded by [pairingMutex].  A
    [time.Time] is a reading of the clock in nanoseconds, [None] being
    the zero time; the log lines are left out. *)

Module Pairing.

Record State := mkState {
  pairingInProgress : bool;
  pairingCode : string;
  pairingExpiry : option Z;
  pairingComplete : bool;
  pairingError : option string
}.

(** What a call of [PairWithPhone] finds at the platform client:
    whether a device is linked ([c.Store.ID != nil]), whether the
    socket is up, the error of [Connect] if any, and the code or error
    of [PairPhone]. *)
Record Platform := mkPlatform {
  Linked : bool;
  IsConnected : bool;
  Connect : option string;
  PairPhone : string -> string + string
}.

Definition set_in_progress (c : State) (v : bool) : State :=
  mkState v (pairingCode c) (pairingExpiry c) (pairingComplete c) (pairingError c).

(** The error text is on the left, the pairing code on the right. *)
Definition PairWithPhone (P : Platform) (now : Z) (phoneNumber : string) (c : State)
  : (string + string) * State :=
  if pairingInProgress c then (inl "pairing already in progress", c)
  else if Linked P then (inl "device already linked", c)
  else
    let c1 := mkState true (pairingCode c) (pairingExpiry c) false None in
    match (if negb (IsConnected P) then Connect P else None) with
    | Some err => (inl ("failed to connect: " ++ err), set_in_progress c1 false)
    | None =>
        match PairPhone P phoneNumber with
        | inl err =>
            (inl ("failed to request pairing code: " ++ err), set_in_progress c1 false)
        | inr code =>
            (inr code,
             mkState (pairingInProgress c1) code (Some (now + 160 * Main.Second))
                     (pairingComplete c1) (pairingError c1))
        end
    end.

(** [int(remaining.Seconds())] is the whole number of seconds in
    [remaining]: the value is positive here and at most 160 s on a
    clock that does not run backward, where the float is exact enough. *)
Definition GetPairingStatus (now : Z) (c : State)
  : bool * string * Z * bool * option string :=
  let expiresInSec :=
    match pairingExpiry c with
    | Some expiry =>
        if pairingInProgress c then
          let remaining := expiry - now in
          if 0 <? remaining then remaining / Main.Second else 0
        else 0
    | None => 0
    end in
  (pairingInProgress c, pairingCode c, expiresInSec, pairingComplete c, pairingError c).

Definition HandlePairingSuccess (c : State) : State :=
  mkState false (pairingCode c) (pairingExpiry c) true (pairingError c).

Definition HandlePairingError (err : string) (c : State) : State :=
  mkState false (pairingCode c) (pairingExpiry c) (pairingComplete c) (Some err).

End Pairing.

(** * Properties *)

(** ** Concrete stores and requests used by the examples *)

Module Fixtures.
Import Types Database Delivery Api.

Definition urgent : WebhookTrigger :=
  mkWebhookTrigger 1 1 "keyword" "urgent" "contains" true.

Definition orders_row : ConfigRow :=
  mkConfigRow 1 "orders" "http://public.example/hook" "super-secret-key-123"
              true 100 100.

Definition one_config : Tables :=
  mkTables [] [] [orders_row] [urgent] [] 1 1 0.

Definition server : Server :=
  mkServer (mkWorld (mkConn one_config [] 200) [] [])
           [config_of_row orders_row [urgent]].

Definition post_enable : Request :=
  mkRequest "POST" "/api/webhooks/1/enable" None (Some false).

Definition new_config : WebhookConfig :=
  mkWebhookConfig 0 "alerts" "http://public.example/alerts" "another-secret-456"
                  true 0 0 [mkWebhookTrigger 0 0 "all" "" "exact" true].

Definition post_create : Request :=
  mkRequest "POST" "/api/webhooks" (Some new_config) None.

End Fixtures.

(** ** The store monad: inversion of successful runs *)

Section MonadFacts.
Import Database.
Local Open Scope dbm_scope.

Lemma bind_inr {A B} (m : DBM A) (k : A -> DBM B) c b c' :
  bind m k c = (inr b, c') ->
  exists a c1, m c = (inr a, c1) /\ k a c1 = (inr b, c').
Proof.
  unfold bind. destruct (m c) as [[e | a] c1]; intro H.
  - discriminate.
  - exists a, c1. split; [reflexivity | exact H].
Qed.

Lemma wrap_inr {A} ctx (m : DBM A) c a c' :
  wrap ctx m c = (inr a, c') -> m c = (inr a, c').
Proof.
  unfold wrap. destruct (m c) as [[e | x] c1]; intro H; [discriminate | exact H].
Qed.

Lemma Transaction_inr {A} (body : DBM A) c a c' :
  Transaction body c = (inr a, c') ->
  exists c1 c2, body c1 = (inr a, c2) /\ tables c1 = tables c
                /\ now c1 = now c /\ tables c' = tables c2.
Proof.
  unfold Transaction, wrap, driver.
  destruct (faults c) as [| [|] fs]; try discriminate;
  match goal with |- context [body ?x] => destruct (body x) as [[e | v] c2] eqn:Hb end;
  try discriminate;
  destruct (faults c2) as [| [|] fs2]; try discriminate;
  intro H; inversion H; subst; (eexists; eexists; split; [exact Hb |]; simpl; auto).
Qed.

(** A failed transaction leaves the tables as they were at [Begin]. *)
Lemma Transaction_inl {A} (body : DBM A) c e c' :
  Transaction body c = (inl e, c') -> tables c' = tables c.
Proof.
  unfold Transaction, wrap, driver.
  destruct (faults c) as [| [|] fs]; try (intro H; inversion H; reflexivity);
  match goal with |- context [body ?x] => destruct (body x) as [[e0 | v] c2] end;
  try (intro H; inversion H; reflexivity);
  destruct (faults c2) as [| [|] fs2]; intro H; inversion H; reflexivity.
Qed.

Lemma UpdateWebhookConfig_result config c config' c' :
  UpdateWebhookConfig config c = (inr config', c') ->
  exists trs, config' = set_config_id_triggers config (Types.ID config) trs.
Proof.
  unfold UpdateWebhookConfig. intro H.
  apply Transaction_inr in H. destruct H as (c1 & c2 & H & _).
  apply bind_inr in H. destruct H as (n & c3 & _ & H).
  destruct (n =? 0); [discriminate |].
  apply bind_inr in H. destruct H as (u & c4 & _ & H).
  apply bind_inr in H. destruct H as (trs & c5 & _ & H).
  exists trs. unfold ret in H. congruence.
Qed.

End MonadFacts.

(** ** C1: what the webhook handlers return about the secret *)

Section SecretExposure.
Import Types Database Delivery Api.

(** The handlers that go through [ToResponse] carry no ["secret_token"]
    field: listing, reading and updating a configuration. *)
Lemma list_response_masked E r s :
  Method r = "GET" ->
  secret_tokens (fst (handleWebhooks E r s)) = []
  /\ secret_hints (fst (handleWebhooks E r s))
     = map (fun c => MaskSecret (SecretToken c)) (configs s).
Proof.
  intro Hm. unfold handleWebhooks. rewrite Hm. simpl. split; [reflexivity |].
  unfold secret_hints. simpl. rewrite map_map. reflexivity.
Qed.

Lemma item_response_masked E r id s :
  secret_tokens (fst (webhook_item E r id s)) = [].
Proof.
  unfold webhook_item.
  destruct (String.eqb (Method r) "GET").
  { destruct (GetWebhookConfig id (conn (world s))) as [[e | c] k]; reflexivity. }
  destruct (String.eqb (Method r) "PUT").
  { destruct (BodyConfig r) as [config |]; [| reflexivity].
    destruct (Validation.ValidateWebhookConfig E (set_ID config id)); [reflexivity |].
    destruct (UpdateWebhookConfig (set_ID config id) (conn (world s)))
      as [[e | c] k]; reflexivity. }
  destruct (String.eqb (Method r) "DELETE"); [| reflexivity].
  destruct (DeleteWebhookConfig id (conn (world s))) as [[e | u] k]; reflexivity.
Qed.

(** A successful enable/disable answers with the stored configuration
    itself, secret included. *)
Lemma enable_response_plain r id s resp s' :
  webhook_enable r id s = (resp, s') ->
  Success resp = true ->
  exists config c,
    GetWebhookConfig id (conn (world s)) = (inr config, c)
    /\ secret_tokens resp = [SecretToken config].
Proof.
  unfold webhook_enable. intros H Hs.
  destruct (negb (String.eqb (Method r) "POST")).
  { inversion H; subst. discriminate. }
  destruct (BodyEnabled r) as [enabled |]; [| inversion H; subst; discriminate].
  destruct (GetWebhookConfig id (conn (world s))) as [[e | config] c] eqn:Hg;
    [inversion H; subst; discriminate |].
  destruct (UpdateWebhookConfig (set_Enabled config enabled) c)
    as [[e | config'] c'] eqn:Hu; [inversion H; subst; discriminate |].
  exists config, c. split; [reflexivity |].
  apply UpdateWebhookConfig_result in Hu. destruct Hu as [trs ->].
  inversion H; subst. reflexivity.
Qed.

(** A successful create echoes the submitted configuration, secret
    included. *)
Lemma create_response_plain E r s resp s' config :
  Method r = "POST" -> BodyConfig r = Some config ->
  handleWebhooks E r s = (resp, s') ->
  Success resp = true ->
  secret_tokens resp = [SecretToken config].
Proof.
  unfold handleWebhooks. intros Hm Hb H Hs. rewrite Hm, Hb in H. simpl in H.
  destruct (Validation.ValidateWebhookConfig E config);
    [inversion H; subst; discriminate |].
  destruct (StoreWebhookConfig config (conn (world s))) as [[e | config'] c] eqn:Hst;
    [inversion H; subst; discriminate |].
  inversion H; subst. unfold secret_tokens. simpl.
  unfold StoreWebhookConfig in Hst.
  apply bind_inr in Hst. destruct Hst as (id & c1 & _ & Hst).
  apply bind_inr in Hst. destruct Hst as (trs & c2 & _ & Hst).
  unfold ret in Hst. inversion Hst. reflexivity.
Qed.

(** C1 (evaluation at the failing input).  With the configuration
    "orders" stored under id 1 and secret "super-secret-key-123", the
    request POST /api/webhooks/1/enable with body enabled=false is answered
    200 with the whole configuration as data: its secret_token field holds
    the stored secret in plain text, where the claim allows a masked hint
    at most.  The same holds for the answer to a create request. *)
Theorem C1_enable_and_create_return_plain_secret :
  let enable := fst (handleWebhookByID Sample.env Fixtures.post_enable Fixtures.server) in
  let create := fst (handleWebhooks Sample.env Fixtures.post_create Fixtures.server) in
  StatusCode enable = 200
  /\ secret_tokens enable = ["super-secret-key-123"]
  /\ secret_hints enable = []
  /\ StatusCode create = 200
  /\ secret_tokens create = ["another-secret-456"].
Proof. vm_compute. repeat split; reflexivity. Qed.

(** A hint can coincide with the secret it masks. *)
Example MaskSecret_fixed_points :
  MaskSecret "****" = "****" /\ MaskSecret "abcd****efgh" = "abcd****efgh"
  /\ MaskSecret "super-secret-key-123" = "supe****-123".
Proof. vm_compute. repeat split. Qed.

End SecretExposure.

(** ** C2: the SSRF filter *)

Section SSRF.
Import Types Database Delivery Api Validation.

(** An address counts as private or reserved when one of the registered
    networks contains it or when it is a loopback, link-local unicast or
    link-local multicast address. *)
Definition in_private_range (ip : Net.IP) : Prop :=
  (exists block, In block privateIPBlocks /\ Net.Contains block ip = true)
  \/ Net.IsLoopback ip = true
  \/ Net.IsLinkLocalUnicast ip = true
  \/ Net.IsLinkLocalMulticast ip = true.

Definition unresolved_or_private (E : Env) (host : string) : Prop :=
  LookupIP E host = None
  \/ exists ips ip, LookupIP E host = Some ips /\ In ip ips /\ in_private_range ip.

Lemma isPrivateIP_complete ip : in_private_range ip -> isPrivateIP ip = true.
Proof.
  unfold in_private_range, isPrivateIP.
  intros [(block & Hin & Hc) | [H | [H | H]]].
  - destruct (Net.IsLoopback ip || Net.IsLinkLocalMulticast ip
              || Net.IsLinkLocalUnicast ip); [reflexivity |].
    apply existsb_exists. exists block. split; assumption.
  - rewrite H. reflexivity.
  - rewrite H. rewrite !orb_true_r. reflexivity.
  - rewrite H. rewrite orb_true_r. reflexivity.
Qed.

Lemma isPrivateIP_sound ip : isPrivateIP ip = true -> in_private_range ip.
Proof.
  unfold in_private_range, isPrivateIP.
  destruct (Net.IsLoopback ip) eqn:Hl; [auto |].
  destruct (Net.IsLinkLocalMulticast ip) eqn:Hm; [auto |].
  destruct (Net.IsLinkLocalUnicast ip) eqn:Hu; [auto |].
  intro H. left. apply existsb_exists. exact H.
Qed.

Lemma ValidateWebhookURL_rejects E url host :
  Getenv E "DISABLE_SSRF_CHECK" <> "true" ->
  url_Hostname E url = Some host ->
  unresolved_or_private E host ->
  exists e, ValidateWebhookURL E url = Some e.
Proof.
  intros Henv Hhost Hbad. unfold ValidateWebhookURL.
  apply String.eqb_neq in Henv. rewrite Henv, Hhost.
  destruct (existsb _ blockedHosts); [eauto |].
  destruct Hbad as [Hnone | (ips & ip & Hips & Hin & Hpriv)].
  - rewrite Hnone. eauto.
  - rewrite Hips.
    assert (Hex : existsb isPrivateIP ips = true).
    { apply existsb_exists. exists ip. split; [assumption |].
      apply isPrivateIP_complete. assumption. }
    rewrite Hex. eauto.
Qed.

Lemma ValidateWebhookConfig_rejects E config :
  (exists e, ValidateWebhookURL E (WebhookURL config) = Some e) ->
  exists e, ValidateWebhookConfig E config = Some e.
Proof.
  intros [e He]. unfold ValidateWebhookConfig.
  repeat match goal with
         | |- exists _, (if ?b then _ else _) = _ => destruct b; [eauto |]
         end.
  rewrite He. eauto.
Qed.

(** C2.  Unless DISABLE_SSRF_CHECK is "true", a target URL whose host does
    not resolve, or has among its resolved addresses one inside a
    registered private or reserved network (or a loopback or link-local
    one), is refused by [ValidateWebhookURL]; the create and update
    handlers then answer 400 and leave the server, hence the store,
    exactly as it was. *)
Theorem C2_unresolved_or_private_target_rejected E url host :
  Getenv E "DISABLE_SSRF_CHECK" <> "true" ->
  url_Hostname E url = Some host ->
  unresolved_or_private E host ->
  (exists e, ValidateWebhookURL E url = Some e)
  /\ (forall r s config,
        Method r = "POST" -> BodyConfig r = Some config ->
        WebhookURL config = url ->
        exists resp, handleWebhooks E r s = (resp, s) /\ StatusCode resp = 400)
  /\ (forall r s id config,
        Method r = "PUT" -> BodyConfig r = Some config ->
        WebhookURL config = url ->
        exists resp, webhook_item E r id s = (resp, s) /\ StatusCode resp = 400).
Proof.
  intros Henv Hhost Hbad.
  pose proof (ValidateWebhookURL_rejects E url host Henv Hhost Hbad) as Hurl.
  split; [exact Hurl |]. split.
  - intros r s config Hm Hb Hu. unfold handleWebhooks. rewrite Hm, Hb. simpl.
    destruct (ValidateWebhookConfig_rejects E config) as [e He];
      [rewrite Hu; exact Hurl |].
    rewrite He. eexists. split; reflexivity.
  - intros r s id config Hm Hb Hu. unfold webhook_item. rewrite Hm, Hb. simpl.
    destruct (ValidateWebhookConfig_rejects E (set_ID config id)) as [e He];
      [simpl; rewrite Hu; exact Hurl |].
    rewrite He. eexists. split; reflexivity.
Qed.

(** The host split.example resolves to a public and to a private
    address. *)
Lemma C2_witness_split_horizon :
  (Getenv Sample.env "DISABLE_SSRF_CHECK" <> "true"
   /\ url_Hostname Sample.env "http://split.example/hook" = Some "split.example"
   /\ unresolved_or_private Sample.env "split.example")
  /\ exists e, ValidateWebhookURL Sample.env "http://split.example/hook" = Some e.
Proof.
  assert (H1 : Getenv Sample.env "DISABLE_SSRF_CHECK" <> "true") by discriminate.
  assert (H2 : url_Hostname Sample.env "http://split.example/hook"
               = Some "split.example") by reflexivity.
  assert (H3 : unresolved_or_private Sample.env "split.example").
  { right. exists [[93; 184; 216; 34]; [10; 0; 0; 5]], [10; 0; 0; 5].
    split; [reflexivity |]. split; [simpl; auto |].
    left. exists (Net.ParseCIDR [10; 0; 0; 0] 8). split; [simpl; auto | reflexivity]. }
  split; [auto |].
  exact (proj1 (C2_unresolved_or_private_target_rejected
                  Sample.env "http://split.example/hook" "split.example" H1 H2 H3)).
Defined.

(** *** The filter on IPv4 addresses, and the package's test tables *)

Lemma privateIPBlocks_computed :
  privateIPBlocks
  = [ Net.mkIPNet [10; 0; 0; 0] [255; 0; 0; 0];
      Net.mkIPNet [172; 16; 0; 0] [255; 240; 0; 0];
      Net.mkIPNet [192; 168; 0; 0] [255; 255; 0; 0];
      Net.mkIPNet [127; 0; 0; 0] [255; 0; 0; 0];
      Net.mkIPNet [169; 254; 0; 0] [255; 255; 0; 0];
      Net.mkIPNet [0; 0; 0; 0] [255; 0; 0; 0];
      Net.mkIPNet [224; 0; 0; 0] [240; 0; 0; 0];
      Net.mkIPNet [240; 0; 0; 0] [240; 0; 0; 0];
      Net.mkIPNet [0; 0; 0; 0; 0; 0; 0; 0; 0; 0; 0; 0; 0; 0; 0; 1]
                  [255; 255; 255; 255; 255; 255; 255; 255;
                   255; 255; 255; 255; 255; 255; 255; 255];
      Net.mkIPNet [252; 0; 0; 0; 0; 0; 0; 0; 0; 0; 0; 0; 0; 0; 0; 0]
                  [254; 0; 0; 0; 0; 0; 0; 0; 0; 0; 0; 0; 0; 0; 0; 0];
      Net.mkIPNet [254; 128; 0; 0; 0; 0; 0; 0; 0; 0; 0; 0; 0; 0; 0; 0]
                  [255; 192; 0; 0; 0; 0; 0; 0; 0; 0; 0; 0; 0; 0; 0; 0] ].
Proof. vm_compute. reflexivity. Qed.

Lemma Contains_ipv4 n1 n2 n3 n4 m1 m2 m3 m4 a b c d :
  Net.Contains (Net.mkIPNet [n1; n2; n3; n4] [m1; m2; m3; m4]) [a; b; c; d]
  = (Z.land n1 m1 =? Z.land a m1) && (Z.land n2 m2 =? Z.land b m2)
    && (Z.land n3 m3 =? Z.land c m3) && (Z.land n4 m4 =? Z.land d m4).
Proof.
  unfold Net.Contains. cbn [Net.To4 length Nat.eqb Net.NetIP Net.Mask combine forallb fst snd andb].
  rewrite andb_true_r, !andb_assoc. reflexivity.
Qed.

Lemma Contains_ipv6_net n m a b c d :
  length n = 16%nat -> Net.Contains (Net.mkIPNet n m) [a; b; c; d] = false.
Proof.
  intro H. unfold Net.Contains. cbn [Net.To4 length Nat.eqb Net.NetIP]. rewrite H. reflexivity.
Qed.

(** The IPv4 ranges of the filter, octet by octet. *)
Definition ipv4_private (a b : Z) : bool :=
  (a =? 10)
  || ((a =? 172) && (16 <=? b) && (b <=? 31))
  || ((a =? 192) && (b =? 168))
  || (a =? 127)
  || ((a =? 169) && (b =? 254))
  || (a =? 0)
  || (224 <=? a).

Definition octets : list Z := map Z.of_nat (seq 0 256).

Lemma octet_listed a : 0 <= a < 256 -> In a octets.
Proof.
  intro H. unfold octets. apply in_map_iff. exists (Z.to_nat a).
  split; [lia |]. apply in_seq. lia.
Qed.

(** Of the last two octets the filter only asks whether the third is 0. *)
Lemma isPrivateIP_ipv4_last_octets a b c d :
  isPrivateIP [a; b; c; d] = isPrivateIP [a; b; if c =? 0 then 0 else 1; 0].
Proof.
  unfold isPrivateIP, Net.IsLoopback, Net.IsLinkLocalMulticast, Net.IsLinkLocalUnicast.
  cbn [Net.To4 length Nat.eqb nth].
  rewrite privateIPBlocks_computed. cbn [existsb].
  rewrite !Contains_ipv4, !Contains_ipv6_net by reflexivity.
  rewrite !Z.land_0_r.
  destruct (c =? 0); reflexivity.
Qed.

Lemma ipv4_table :
  forallb (fun a =>
    forallb (fun b =>
      forallb (fun c => Bool.eqb (isPrivateIP [a; b; c; 0]) (ipv4_private a b)) [0; 1])
      octets) octets = true.
Proof. vm_compute. reflexivity. Qed.

(** On IPv4 addresses the filter rejects exactly 10/8, 172.16/12,
    192.168/16, 127/8, 169.254/16, 0/8, 224/4 and 240/4. *)
Lemma isPrivateIP_ipv4 a b c d :
  0 <= a < 256 -> 0 <= b < 256 ->
  isPrivateIP [a; b; c; d] = ipv4_private a b.
Proof.
  intros Ha Hb. rewrite isPrivateIP_ipv4_last_octets.
  pose proof ipv4_table as H. rewrite forallb_forall in H.
  specialize (H a (octet_listed a Ha)). rewrite forallb_forall in H.
  specialize (H b (octet_listed b Hb)). rewrite forallb_forall in H.
  apply eqb_prop. apply H. destruct (c =? 0); simpl; auto.
Qed.

(** TestIsPrivateIP. *)
Example isPrivateIP_test_table :
  map isPrivateIP
      [[127; 0; 0; 1]; [127; 255; 255; 255]; [10; 0; 0; 1]; [10; 255; 255; 255];
       [172; 16; 0; 1]; [172; 31; 255; 255]; [192; 168; 1; 1]; [192; 168; 255; 255];
       [169; 254; 1; 1]; [0; 0; 0; 0]; [224; 0; 0; 1]; [240; 0; 0; 1];
       Net.IPv6loopback]
  = [true; true; true; true; true; true; true; true; true; true; true; true; true]
  /\ map isPrivateIP
         [[8; 8; 8; 8]; [1; 1; 1; 1]; [104; 16; 132; 229]; [172; 32; 0; 1];
          [192; 169; 1; 1]]
     = [false; false; false; false; false]
  /\ map isPrivateIP
         [[0; 0; 0; 0; 0; 0; 0; 0; 0; 0; 255; 255; 10; 0; 0; 1];
          [253; 0; 0; 0; 0; 0; 0; 0; 0; 0; 0; 0; 0; 0; 0; 1];
          [254; 128; 0; 0; 0; 0; 0; 0; 0; 0; 0; 0; 0; 0; 0; 1];
          [32; 1; 72; 96; 72; 96; 0; 0; 0; 0; 0; 0; 0; 0; 136; 136]]
     = [true; true; true; false].
Proof. vm_compute. repeat split. Qed.

(** TestValidateWebhookURL, with the resolver of [Sample.env]. *)
Example ValidateWebhookURL_test_table :
  map (ValidateWebhookURL Sample.env) ["not-a-url"; ""]
  = [Some (Errorf "failed to resolve webhook URL hostname");
     Some (Errorf "failed to resolve webhook URL hostname")]
  /\ map (ValidateWebhookURL Sample.env)
         ["http://metadata.google.internal/computeMetadata/v1/";
          "http://169.254.169.254/latest/meta-data/";
          "http://metadata.azure.com/"]
     = [Some (Errorf "webhook URL hostname is blocked");
        Some (Errorf "webhook URL hostname is blocked");
        Some (Errorf "webhook URL hostname is blocked")]
  /\ map (ValidateWebhookURL Sample.env)
         ["http://127.0.0.1:8080/webhook"; "http://10.0.0.1/webhook";
          "http://192.168.1.1/webhook"; "http://172.16.0.1/webhook";
          "http://localhost/webhook"; "http://split.example/hook"]
     = [Some (Errorf "webhook URL resolves to private/reserved IP");
        Some (Errorf "webhook URL resolves to private/reserved IP");
        Some (Errorf "webhook URL resolves to private/reserved IP");
        Some (Errorf "webhook URL resolves to private/reserved IP");
        Some (Errorf "webhook URL resolves to private/reserved IP");
        Some (Errorf "webhook URL resolves to private/reserved IP")]
  /\ ValidateWebhookURL Sample.env "http://public.example/hook" = None.
Proof. vm_compute. repeat split. Qed.

End SSRF.

(** ** C3: the retry loop of [DeliverWebhook] *)

Section Retry.
Import Types Database Delivery.

(** How a round trip ends, read off the target's scripted behaviour. *)
Definition next_outcome (script : list HttpOutcome) : HttpOutcome :=
  match script with
  | o :: _ => o
  | [] => TransportError "connection refused"
  end.

Definition succeeds (o : HttpOutcome) : bool :=
  match o with
  | Response status _ => (200 <=? status) && (status <? 300)
  | TransportError _ => false
  end.

Definition status_of (o : HttpOutcome) : Z :=
  match o with
  | Response status _ => status
  | TransportError _ => 0
  end.

Definition body_of (o : HttpOutcome) : string :=
  match o with
  | Response _ body => Read 1024 body
  | TransportError msg => msg
  end.

(** Whether [http.NewRequest] accepts the configuration's URL. *)
Definition parses (E : Env) (config : WebhookConfig) : bool :=
  match url_Hostname E (WebhookURL config) with
  | Some _ => true
  | None => false
  end.

(** How one attempt ends and what it leaves of the script: with a URL
    that parses, the next scripted outcome; otherwise the request cannot
    be built, nothing is sent, and the attempt fails with status 0. *)
Definition attempt_outcome (p : bool) (script : list HttpOutcome) : HttpOutcome :=
  if p then next_outcome script else TransportError "invalid URL".

Definition rest_of (p : bool) (script : list HttpOutcome) : list HttpOutcome :=
  if p then tl script else script.

(** The outcomes of the attempts a delivery makes when it may run
    [remaining] more times: it goes on until one succeeds. *)
Fixpoint made (p : bool) (remaining : nat) (script : list HttpOutcome)
  : list HttpOutcome :=
  match remaining with
  | O => []
  | S k =>
      attempt_outcome p script
      :: (if succeeds (attempt_outcome p script) then []
          else made p k (rest_of p script))
  end.

(** Events seen as a timeline: [None] is a POST, [Some d] a sleep of [d]
    seconds. *)
Definition kind (ev : Event) : option Z :=
  match ev with
  | Posted _ _ _ => None
  | Slept d => Some d
  end.

(** Five POSTs separated by the four sleeps that can occur. *)
Definition full_timeline : list (option Z) :=
  [None; Some 1; None; Some 2; None; Some 4; None; Some 8; None].

Definition logs (w : World) : list WebhookLog := webhook_logs (tables (conn w)).

(** The store accepts every insert of a log row for configuration [id]:
    the driver has no failure scheduled and the configuration exists. *)
Definition healthy (w : World) (id : Z) : Prop :=
  faults (conn w) = [] /\ config_exists (tables (conn w)) id = true.

Lemma sendHTTPRequest_outcome E config payload w :
  exists evs,
    sendHTTPRequest E config payload w
    = ((succeeds (attempt_outcome (parses E config) (remote w)),
        status_of (attempt_outcome (parses E config) (remote w)),
        body_of (attempt_outcome (parses E config) (remote w))),
       mkWorld (conn w) (rest_of (parses E config) (remote w)) (events w ++ evs))
    /\ map kind evs = if parses E config then [None] else [].
Proof.
  unfold sendHTTPRequest, parses.
  destruct (url_Hostname E (WebhookURL config)).
  - eexists [_]. split.
    + destruct (remote w) as [| [msg | status body] rest]; reflexivity.
    + reflexivity.
  - exists []. rewrite app_nil_r. destruct w. split; reflexivity.
Qed.

(** One insert: either nothing is stored, or exactly the submitted row
    with a fresh id and the creation time. *)
Lemma store_log_cases log w :
  remote (store_log log w) = remote w
  /\ events (store_log log w) = events w
  /\ now (conn (store_log log w)) = now (conn w)
  /\ (logs (store_log log w) = logs w
      \/ exists id, logs (store_log log w) = (logs w ++ [log_row log id (now (conn w))])%list).
Proof.
  unfold store_log, StoreWebhookLog, Exec, bind, driver, logs.
  destruct (faults (conn w)) as [| [|] fs]; simpl;
    try (repeat split; left; reflexivity);
    destruct (config_exists (tables (conn w)) (LogWebhookConfigID log)); simpl;
    repeat split; try (left; reflexivity); right; eexists; reflexivity.
Qed.

Lemma store_log_healthy log w :
  healthy w (LogWebhookConfigID log) ->
  healthy (store_log log w) (LogWebhookConfigID log)
  /\ exists id, logs (store_log log w) = (logs w ++ [log_row log id (now (conn w))])%list.
Proof.
  unfold healthy, store_log, StoreWebhookLog, Exec, bind, driver, logs.
  intros [Hf Hc]. rewrite Hf. simpl. rewrite Hc. simpl.
  repeat split; [assumption | assumption | eexists; reflexivity].
Qed.

(** The timeline the loop produces from attempt [a] on. *)
Fixpoint timeline_from (p : bool) (k : nat) (a : Z) (script : list HttpOutcome)
  : list (option Z) :=
  match k with
  | O => []
  | S k' =>
      ((if p then [None] else [])
       ++ (if succeeds (attempt_outcome p script) then []
           else (if a <? maxRetries
                 then [Some (nth (Z.to_nat (a - 1)) backoffIntervals 0)]
                 else [])
                ++ timeline_from p k' (a + 1) (rest_of p script)))%list
  end.

(** [r] is the log row of attempt number [i] that ended as [o]. *)
Definition row_of_attempt (config : WebhookConfig) (i : Z) (o : HttpOutcome)
    (r : WebhookLog) : Prop :=
  AttemptCount r = i
  /\ LogWebhookConfigID r = ID config
  /\ ResponseStatus r = status_of o
  /\ ResponseBody r = body_of o
  /\ (DeliveredAt r <> None <-> succeeds o = true).

(** The rows follow the attempts, numbered from [a], in order, each
    attempt contributing its own row or none. *)
Fixpoint rows_follow (config : WebhookConfig) (a : Z) (outs : list HttpOutcome)
    (rows : list WebhookLog) : Prop :=
  match outs with
  | [] => rows = []
  | o :: outs' =>
      rows_follow config (a + 1) outs' rows
      \/ exists r rows',
           rows = r :: rows' /\ row_of_attempt config a o r
           /\ rows_follow config (a + 1) outs' rows'
  end.

(** [a; a+1; ...] of length [n]. *)
Fixpoint zseq (a : Z) (n : nat) : list Z :=
  match n with
  | O => []
  | S n' => a :: zseq (a + 1) n'
  end.

Lemma Sleep_keeps seconds w id :
  logs (Sleep seconds w) = logs w
  /\ remote (Sleep seconds w) = remote w
  /\ (healthy w id -> healthy (Sleep seconds w) id).
Proof. unfold Sleep, logs, healthy. simpl. auto. Qed.

Lemma attempts_S E config payload mid chat trigger k a w :
  attempts E config payload mid chat trigger (S k) a w =
  let payload := set_DeliveryAttempt payload a in
  let payloadBytes :=
    match json_Marshal E payload with Some b => b | None => ""%string end in
  let '((success, statusCode, responseBody), w1) :=
    sendHTTPRequest E config payloadBytes w in
  let log :=
    mkWebhookLog 0 (ID config) mid chat (TriggerType trigger)
      (TriggerValue trigger) payloadBytes statusCode responseBody a
      (if success then Some (now (conn w1)) else None) 0 in
  let w2 := store_log log w1 in
  if success then w2
  else
    let w3 :=
      if a <? maxRetries
      then Sleep (nth (Z.to_nat (a - 1)) backoffIntervals 0) w2
      else w2 in
    attempts E config payload mid chat trigger k (a + 1) w3.
Proof. reflexivity. Qed.

Lemma app_one_more {A} (l : list A) x : l <> (l ++ [x])%list.
Proof.
  intro H. apply (f_equal (@length A)) in H. rewrite length_app in H. simpl in H. lia.
Qed.

(** The loop, by induction on the attempts left. *)
Lemma attempts_run E config mid chat trigger :
  forall k payload a w,
  exists new rows,
    events (attempts E config payload mid chat trigger k a w) = (events w ++ new)%list
    /\ map kind new = timeline_from (parses E config) k a (remote w)
    /\ logs (attempts E config payload mid chat trigger k a w) = (logs w ++ rows)%list
    /\ rows_follow config a (made (parses E config) k (remote w)) rows
    /\ (healthy w (ID config) ->
        map AttemptCount rows = zseq a (length (made (parses E config) k (remote w)))).
Proof.
  intro k. induction k as [| k IH]; intros payload a w.
  - exists [], []. simpl. rewrite !app_nil_r. auto.
  - rewrite attempts_S. cbv zeta.
    set (p := set_DeliveryAttempt payload a).
    set (bytes := match json_Marshal E p with Some b => b | None => ""%string end).
    destruct (sendHTTPRequest_outcome E config bytes w) as (evs & Hsend & Hev).
    rewrite Hsend. cbv beta iota.
    set (o := attempt_outcome (parses E config) (remote w)) in *.
    set (w1 := mkWorld (conn w) (rest_of (parses E config) (remote w)) (events w ++ evs)).
    set (log := mkWebhookLog 0 (ID config) mid chat (TriggerType trigger)
                  (TriggerValue trigger) bytes (status_of o) (body_of o) a
                  (if succeeds o then Some (now (conn w1)) else None) 0).
    destruct (store_log_cases log w1) as (Hrem & Hevs & Hnow & Hlogs).
    assert (Hrow : forall id, row_of_attempt config a o (log_row log id (now (conn w1)))).
    { intro id. unfold row_of_attempt, log_row, log. simpl.
      repeat split; destruct (succeeds o); congruence. }
    assert (Hhealthy : healthy w (ID config) ->
              healthy (store_log log w1) (ID config)
              /\ exists id, logs (store_log log w1)
                            = (logs w ++ [log_row log id (now (conn w1))])%list).
    { intro Hh. apply (store_log_healthy log w1). exact Hh. }
    simpl timeline_from. simpl made. fold o.
    destruct (succeeds o) eqn:Hs.
    + (* the attempt succeeded: the loop returns *)
      exists evs. rewrite app_nil_r. destruct Hlogs as [Hsame | [id Hadd]].
      * exists []. rewrite Hevs, Hsame. simpl. rewrite app_nil_r.
        split; [reflexivity |]. split; [exact Hev |]. split; [reflexivity |].
        split; [left; reflexivity |].
        intro Hh. destruct (Hhealthy Hh) as [_ [id Hadd]].
        rewrite Hsame in Hadd. exfalso. exact (app_one_more _ _ Hadd).
      * exists [log_row log id (now (conn w1))]. rewrite Hevs, Hadd. simpl.
        split; [reflexivity |]. split; [exact Hev |]. split; [reflexivity |].
        split; [| reflexivity].
        right. eexists; eexists. split; [reflexivity |]. split; [apply Hrow | reflexivity].
    + (* the attempt failed: sleep unless it was the last, and go on *)
      set (w2 := store_log log w1) in *.
      set (d := nth (Z.to_nat (a - 1)) backoffIntervals 0).
      set (w3 := if a <? maxRetries then Sleep d w2 else w2).
      assert (H3 : logs w3 = logs w2
                   /\ remote w3 = rest_of (parses E config) (remote w)
                   /\ events w3 = (events w ++ evs
                                   ++ (if a <? maxRetries then [Slept d] else []))%list
                   /\ (healthy w2 (ID config) -> healthy w3 (ID config))).
      { unfold w3. destruct (a <? maxRetries).
        - destruct (Sleep_keeps d w2 (ID config)) as (Hl & Hr & Hh).
          rewrite Hl, Hr, Hrem.
          split; [reflexivity |]. split; [reflexivity |]. split; [| exact Hh].
          change (events (Sleep d w2)) with (events w2 ++ [Slept d])%list.
          rewrite Hevs. unfold w1. simpl.
          rewrite <- app_assoc. reflexivity.
        - rewrite Hrem, Hevs. unfold w1. simpl. rewrite app_nil_r.
          split; [reflexivity |]. split; [reflexivity |]. split; [reflexivity | auto]. }
      destruct H3 as (Hl3 & Hr3 & He3 & Hh3).
      destruct (IH p (a + 1) w3) as (new & rows & Hnew & Hkinds & Hrows & Hfollow & Hcount).
      rewrite Hr3 in *.
      exists (evs ++ (if a <? maxRetries then [Slept d] else []) ++ new)%list.
      assert (Hk : map kind (evs ++ (if a <? maxRetries then [Slept d] else []) ++ new)
                   = ((if parses E config then [None] else [])
                      ++ (if a <? maxRetries then [Some d] else [])
                      ++ timeline_from (parses E config) k (a + 1)
                           (rest_of (parses E config) (remote w)))%list).
      { rewrite !map_app, Hev, Hkinds. destruct (a <? maxRetries); reflexivity. }
      destruct Hlogs as [Hsame | [id Hadd]].
      * exists rows. rewrite Hnew, He3, Hrows, Hl3, Hsame.
        split; [rewrite <- !app_assoc; reflexivity |].
        split; [exact Hk |]. split; [reflexivity |].
        split; [left; exact Hfollow |].
        intro Hh. destruct (Hhealthy Hh) as [_ [id Hadd]].
        rewrite Hsame in Hadd. exfalso. exact (app_one_more _ _ Hadd).
      * exists (log_row log id (now (conn w1)) :: rows).
        rewrite Hnew, He3, Hrows, Hl3, Hadd.
        split; [rewrite <- !app_assoc; reflexivity |].
        split; [exact Hk |].
        split; [rewrite <- app_assoc; reflexivity |].
        split.
        -- right. eexists; eexists. split; [reflexivity |].
           split; [apply Hrow | exact Hfollow].
        -- intro Hh. destruct (Hhealthy Hh) as [Hh2 _].
           simpl. f_equal. apply Hcount. apply Hh3. exact Hh2.
Qed.

Lemma timeline_from_full p script :
  timeline_from p 5 1 script
  = if p then firstn (2 * length (made p 5 script) - 1) full_timeline
    else [Some 1; Some 2; Some 4; Some 8].
Proof.
  destruct p.
  - unfold timeline_from, made.
    repeat match goal with
           | |- context [succeeds ?o] =>
               let H := fresh "Hs" in destruct (succeeds o) eqn:H; simpl
           end; reflexivity.
  - reflexivity.
Qed.

Lemma made_length p k script :
  (length (made p k script) <= k)%nat
  /\ (0 < k -> 1 <= length (made p k script))%nat.
Proof.
  revert script. induction k as [| k IH]; intro script; simpl.
  - split; lia.
  - destruct (succeeds (attempt_outcome p script)); simpl.
    + split; lia.
    + destruct (IH (rest_of p script)). split; lia.
Qed.

Lemma made_unparsed k script :
  made false k script = repeat (TransportError "invalid URL") k.
Proof. induction k as [| k IH]; simpl; [reflexivity | rewrite IH; reflexivity]. Qed.

(** Attempt [i] (counted from 0) meets the [i]-th scripted outcome when
    the URL parses; every attempt but the last one made has failed, and
    the last one has succeeded unless the budget of [k] attempts is used
    up. *)
Lemma made_stops_at_first_success p k script i o :
  nth_error (made p k script) i = Some o ->
  (o = if p then next_outcome (skipn i script) else TransportError "invalid URL")
  /\ (S i < length (made p k script) -> succeeds o = false)%nat
  /\ (S i = length (made p k script) -> length (made p k script) < k ->
      succeeds o = true)%nat.
Proof.
  revert script i. induction k as [| k IH]; intros script i; simpl.
  - destruct i; discriminate.
  - destruct i as [| i]; simpl.
    + intro H. inversion H; subst. split; [destruct p; reflexivity |].
      destruct (succeeds (attempt_outcome p script)) eqn:Hs; simpl.
      * split; [lia | auto].
      * split; [auto |]. intros Hn. pose proof (made_length p k (rest_of p script)) as [_ Hk].
        destruct k; simpl in *; [lia | discriminate].
    + destruct (succeeds (attempt_outcome p script)) eqn:Hs; simpl.
      * destruct i; discriminate.
      * intro H. destruct (IH (rest_of p script) i H) as (H1 & H2 & H3).
        split; [| split].
        -- rewrite H1. destruct p; [| reflexivity]. simpl.
           destruct script; [destruct i |]; reflexivity.
        -- intro. apply H2. lia.
        -- intros. apply H3; lia.
Qed.

Lemma rows_follow_length config a outs rows :
  rows_follow config a outs rows -> (length rows <= length outs)%nat.
Proof.
  revert a rows. induction outs as [| o outs IH]; intros a rows; simpl.
  - intros ->. simpl. lia.
  - intros [H | (r & rows' & -> & _ & H)].
    + apply IH in H. lia.
    + apply IH in H. simpl. lia.
Qed.

Lemma rows_follow_delivered config a outs rows :
  rows_follow config a outs rows ->
  Forall (fun r => DeliveredAt r <> None ->
                   200 <= ResponseStatus r < 300
                   /\ exists o, In o outs /\ succeeds o = true
                                /\ ResponseStatus r = status_of o) rows.
Proof.
  revert a rows. induction outs as [| o outs IH]; intros a rows; simpl.
  - intros ->. constructor.
  - intros [H | (r & rows' & -> & Hrow & H)].
    + apply IH in H. eapply Forall_impl; [| exact H]. simpl.
      intros r Hr Hd. destruct (Hr Hd) as (Hst & o' & Hin & Hs & He).
      split; [exact Hst | exists o'; auto].
    + constructor.
      * intro Hd. destruct Hrow as (_ & _ & Hst & _ & Hiff).
        apply Hiff in Hd. split.
        -- rewrite Hst. destruct o as [msg | st body]; simpl in *; [discriminate | lia].
        -- exists o. auto.
      * apply IH in H. eapply Forall_impl; [| exact H]. simpl.
        intros r0 Hr Hd. destruct (Hr Hd) as (Hst & o' & Hin & Hs & He).
        split; [exact Hst | exists o'; auto].
Qed.

Definition sleeps (evs : list Event) : list Z :=
  flat_map (fun ev => match kind ev with Some d => [d] | None => [] end) evs.

Definition posts (evs : list Event) : nat :=
  length (filter (fun ev => match kind ev with None => true | Some _ => false end) evs).

Lemma posts_sleeps_of_kinds evs :
  posts evs
  = length (filter (fun k => match k with None => true | Some _ => false end)
                   (map kind evs))
  /\ sleeps evs
     = flat_map (fun k => match k with Some d => [d] | None => [] end) (map kind evs).
Proof.
  unfold posts, sleeps. induction evs as [| ev evs [IH1 IH2]]; simpl; [auto |].
  rewrite IH2. split; [| reflexivity].
  destruct (kind ev); simpl; rewrite IH1; reflexivity.
Qed.

Lemma zseq_length a n : length (zseq a n) = n.
Proof. revert a. induction n as [| n IH]; intro a; simpl; [| rewrite IH]; reflexivity. Qed.

(** What one delivery does to a world [w].  When the payload does not
    serialize nothing happens.  Otherwise, in terms of the outcomes [outs]
    of the attempts it makes:
    - between one and five attempts, all failed but possibly the last,
      which is a success unless five attempts were made; with a URL that
      parses each attempt is an HTTP POST meeting the next scripted
      outcome, otherwise no request is sent at all;
    - the attempts are separated by sleeps of 1, 2, 4 and 8 seconds, in
      this order, with no sleep after the last attempt;
    - the new log rows follow the attempts in order, at most one row per
      attempt, each with the attempt number, status and body of its
      attempt, and with [delivered_at] set exactly when that attempt
      succeeded;
    - on a store that accepts every insert there is exactly one row per
      attempt. *)
Definition delivery_contract (E : Env) (config : WebhookConfig)
    (payload : WebhookPayload) (messageID chatJID : string)
    (trigger : WebhookTrigger) (w : World) : Prop :=
  let w' := DeliverWebhook E config payload messageID chatJID trigger w in
  match json_Marshal E payload with
  | None => w' = w
  | Some _ =>
      let p := parses E config in
      let outs := made p (Z.to_nat maxRetries) (remote w) in
      let n := length outs in
      (1 <= n <= 5)%nat
      /\ (forall i o, nth_error outs i = Some o ->
            (o = if p then next_outcome (skipn i (remote w))
                 else TransportError "invalid URL")
            /\ (S i < n -> succeeds o = false)%nat
            /\ (S i = n -> n < 5 -> succeeds o = true)%nat)
      /\ exists new rows,
           events w' = (events w ++ new)%list
           /\ posts new = (if p then n else 0%nat)
           /\ (posts new <= 5)%nat
           /\ sleeps new = firstn (n - 1) [1; 2; 4; 8]
           /\ (p = true -> map kind new = firstn (2 * n - 1) full_timeline)
           /\ logs w' = (logs w ++ rows)%list
           /\ rows_follow config 1 outs rows
           /\ (length rows <= n)%nat
           /\ Forall (fun r => DeliveredAt r <> None ->
                               200 <= ResponseStatus r < 300
                               /\ exists o, In o outs /\ succeeds o = true
                                            /\ ResponseStatus r = status_of o) rows
           /\ (healthy w (ID config) ->
               length rows = n /\ map AttemptCount rows = zseq 1 n)
  end.

End Retry.

Module Runs.
Import Types Database Delivery.

Definition orders : WebhookConfig :=
  config_of_row Fixtures.orders_row [Fixtures.urgent].

Definition payload : WebhookPayload :=
  mkWebhookPayload "message_received" 150 1 "orders" "keyword" "urgent" "contains"
    (mkWebhookMessageInfo "M1" "111@s.whatsapp.net" "Alice" "222@s.whatsapp.net"
       "222" "This is urgent!" 150 "" false "" "" "")
    None 1 0.

Definition world (script : list HttpOutcome) (driver_faults : list bool) : World :=
  mkWorld (mkConn Fixtures.one_config driver_faults 200) script [].

Definition deliver (w : World) : World :=
  DeliverWebhook Sample.env orders payload "M1" "111@s.whatsapp.net" Fixtures.urgent w.

(** The target answers 500 three times and then 200. *)
Definition retry_then_succeed : World :=
  world [Response 500 ["busy"]; Response 500 ["busy"]; Response 500 ["busy"];
         Response 200 ["ok"]] [].

(** The target answers 500 every time. *)
Definition always_failing : World :=
  world [Response 500 ["busy"]; Response 500 ["busy"]; Response 500 ["busy"];
         Response 500 ["busy"]; Response 500 ["busy"]; Response 500 ["busy"]] [].

(** The target answers 500 and then 200; the driver fails on the second
    statement it is given, the insert of the second log row. *)
Definition second_insert_fails : World :=
  world [Response 500 ["busy"]; Response 200 ["ok"]] [false; true].

End Runs.

Section RetryClaim.
Import Types Database Delivery.

(** C3 (as amended).  For every configuration and payload, a delivery
    makes at most five HTTP attempts and stops at the first one answered
    with a status in [200, 300); consecutive attempts are separated by
    sleeps of 1, 2, 4 and 8 seconds (no sleep follows the fifth attempt,
    so 16 is never slept); each attempt issues one log insert, which
    leaves exactly one row when the store accepts it and none otherwise; a
    row has delivered_at set only when its attempt succeeded. *)
Theorem C3_delivery_attempts_backoff_and_logs
    E config payload messageID chatJID trigger w :
  delivery_contract E config payload messageID chatJID trigger w.
Proof.
  unfold delivery_contract, DeliverWebhook.
  destruct (json_Marshal E payload) as [b |]; [| reflexivity].
  change (Z.to_nat maxRetries) with 5%nat.
  remember (parses E config) as p eqn:Hpdef.
  pose proof (made_length p 5 (remote w)) as [Hle Hge].
  split; [lia |].
  split; [intros i o Hn; exact (made_stops_at_first_success p 5 (remote w) i o Hn) |].
  destruct (attempts_run E config messageID chatJID trigger 5 payload 1 w)
    as (new & rows & Hev & Hkinds & Hlogs & Hfollow & Hcount).
  rewrite <- Hpdef in Hkinds, Hfollow, Hcount.
  rewrite timeline_from_full in Hkinds.
  exists new, rows.
  destruct (posts_sleeps_of_kinds new) as [Hp Hs].
  assert (Hn : (length (made p 5 (remote w)) = 1 \/ length (made p 5 (remote w)) = 2
                \/ length (made p 5 (remote w)) = 3 \/ length (made p 5 (remote w)) = 4
                \/ length (made p 5 (remote w)) = 5)%nat) by lia.
  assert (Hfalse : p = false -> length (made p 5 (remote w)) = 5%nat).
  { intros ->. rewrite made_unparsed. reflexivity. }
  assert (Hshape : posts new = (if p then length (made p 5 (remote w)) else 0%nat)
                   /\ sleeps new = firstn (length (made p 5 (remote w)) - 1) [1; 2; 4; 8]).
  { rewrite Hp, Hs, Hkinds. destruct p.
    - destruct Hn as [-> | [-> | [-> | [-> | ->]]]]; split; reflexivity.
    - rewrite (Hfalse eq_refl). split; reflexivity. }
  destruct Hshape as [Hposts Hsleeps].
  split; [exact Hev |]. split; [exact Hposts |].
  split; [rewrite Hposts; destruct p; lia |].
  split; [exact Hsleeps |].
  split; [intros Hpt; rewrite Hpt in Hkinds |- *; exact Hkinds |].
  split; [exact Hlogs |]. split; [exact Hfollow |].
  split; [exact (rows_follow_length config 1 _ rows Hfollow) |].
  split; [exact (rows_follow_delivered config 1 _ rows Hfollow) |].
  intro Hh. specialize (Hcount Hh). split; [| exact Hcount].
  rewrite <- (length_map AttemptCount), Hcount. apply zseq_length.
Qed.

(** The scenario computed: four rows numbered 1 to 4, only the fourth
    delivered, sleeps of 1, 2 and 4 seconds. *)
Example retry_then_succeed_run :
  let w' := Runs.deliver Runs.retry_then_succeed in
  map AttemptCount (logs w') = [1; 2; 3; 4]
  /\ map ResponseStatus (logs w') = [500; 500; 500; 200]
  /\ map DeliveredAt (logs w') = [None; None; None; Some 207]
  /\ sleeps (events w') = [1; 2; 4]
  /\ posts (events w') = 4%nat.
Proof. vm_compute. repeat split; reflexivity. Qed.

(** A URL that [http.NewRequest] rejects: nothing is sent, the loop still
    runs five times, sleeping in between and logging status 0. *)
Definition rejecting_urls : Env :=
  mkEnv (Getenv Sample.env) (Getwd Sample.env) (fun _ => None) (LookupIP Sample.env)
        (regexp_Compile Sample.env) (json_Marshal Sample.env) (hmac_hex Sample.env)
        (NowStamp Sample.env).

Example unparsed_url_run :
  let w' := DeliverWebhook rejecting_urls Runs.orders Runs.payload "M1"
              "111@s.whatsapp.net" Fixtures.urgent Runs.retry_then_succeed in
  posts (events w') = 0%nat
  /\ sleeps (events w') = [1; 2; 4; 8]
  /\ map AttemptCount (logs w') = [1; 2; 3; 4; 5]
  /\ map ResponseStatus (logs w') = [0; 0; 0; 0; 0].
Proof. vm_compute. repeat split; reflexivity. Qed.

(** C3 (counterexample to the claim as stated).  Against a target that
    always answers 500 the five attempts are separated by sleeps of 1, 2,
    4 and 8 seconds only: 16 seconds are never slept.  And when the driver
    refuses the insert of the second attempt's row, two attempts leave a
    single row. *)
Lemma C3_counterexample_no_16s_sleep_and_lost_row :
  (posts (events (Runs.deliver Runs.always_failing)) = 5%nat
   /\ sleeps (events (Runs.deliver Runs.always_failing)) = [1; 2; 4; 8]
   /\ sleeps (events (Runs.deliver Runs.always_failing)) <> [1; 2; 4; 8; 16])
  /\ (posts (events (Runs.deliver Runs.second_insert_fails)) = 2%nat
      /\ length (logs (Runs.deliver Runs.second_insert_fails)) = 1%nat).
Proof. vm_compute. repeat split; try reflexivity. discriminate. Qed.

End RetryClaim.

(** ** C4: [UpdateWebhookConfig] is atomic *)

Section UpdateAtomic.
Import Types Database.
Local Open Scope dbm_scope.

Lemma driver_inr c u c' :
  driver c = (inr u, c') -> tables c' = tables c /\ now c' = now c.
Proof.
  unfold driver. destruct (faults c) as [| [|] fs]; intro H; inversion H; auto.
Qed.

Lemma Exec_inr {A} (stmt : Z -> Tables -> error + (A * Tables)) c a c' :
  Exec stmt c = (inr a, c') ->
  stmt (now c) (tables c) = inr (a, tables c') /\ now c' = now c.
Proof.
  unfold Exec. intro H. apply bind_inr in H. destruct H as (u & c1 & Hd & H).
  apply driver_inr in Hd. destruct Hd as [Ht Hn]. cbv beta in H. rewrite Ht, Hn in H.
  destruct (stmt (now c) (tables c)) as [e | [a' t']]; [discriminate |].
  inversion H; subst. simpl. auto.
Qed.

(** The fields of a trigger that a client chooses. *)
Definition trigger_content (tr : WebhookTrigger) : string * string * string * bool :=
  (TriggerType tr, TriggerValue tr, MatchType tr, TriggerEnabled tr).

(** Two states of the store that differ at most in the triggers table. *)
Definition same_but_triggers (t t' : Tables) : Prop :=
  chats t' = chats t /\ messages t' = messages t
  /\ webhook_configs t' = webhook_configs t /\ webhook_logs t' = webhook_logs t.

Definition insert_step (id : Z) (tr : WebhookTrigger) : DBM WebhookTrigger :=
  let tr' := set_trigger_ids tr (TriggerID tr) id in
  rowid <- wrap "failed to insert trigger" (Exec (insert_trigger tr')) ;;
  ret (set_trigger_ids tr' rowid id).

Lemma insert_all_inr id trs : forall c rows c',
  mapM (insert_step id) trs c = (inr rows, c') ->
  webhook_triggers (tables c') = (webhook_triggers (tables c) ++ rows)%list
  /\ same_but_triggers (tables c) (tables c')
  /\ map trigger_content rows = map trigger_content trs
  /\ Forall (fun tr => WebhookConfigID tr = id) rows.
Proof.
  induction trs as [| tr trs IH]; intros c rows c' H; simpl in H.
  - unfold ret in H. inversion H; subst. rewrite app_nil_r.
    unfold same_but_triggers. repeat split; auto.
  - apply bind_inr in H. destruct H as (row & c1 & Hstep & H).
    apply bind_inr in H. destruct H as (rest & c2 & Hrest & H).
    unfold ret in H. inversion H; subst. clear H.
    apply IH in Hrest. destruct Hrest as (Htr & Hsame & Hcont & Hall).
    unfold insert_step in Hstep.
    apply bind_inr in Hstep. destruct Hstep as (rowid & c3 & Hex & Hret).
    unfold ret in Hret. inversion Hret; subst. clear Hret.
    apply wrap_inr in Hex. apply Exec_inr in Hex. destruct Hex as [Hins _].
    unfold insert_trigger in Hins. simpl in Hins.
    destruct (config_exists (tables c) id); [| discriminate].
    inversion Hins as [[Hid Ht]]. clear Hins.
    rewrite Htr. rewrite <- Ht. simpl.
    unfold same_but_triggers in *. rewrite <- Ht in Hsame. simpl in Hsame.
    rewrite <- app_assoc. simpl.
    repeat split; try tauto.
    + f_equal. exact Hcont.
    + constructor; [reflexivity | exact Hall].
Qed.


Lemma count_zero_iff {A} (f : A -> bool) (l : list A) :
  (Z.of_nat (length (filter f l)) =? 0) = negb (existsb f l).
Proof.
  induction l as [| x l IH]; simpl; [reflexivity |].
  destruct (f x); simpl; [| exact IH].
  destruct (Z.eqb_spec (Z.of_nat (S (length (filter f l)))) 0); [lia | reflexivity].
Qed.

Lemma filter_none {A} (f : A -> bool) (l : list A) :
  Forall (fun x => f x = false) l -> filter f l = [].
Proof.
  induction 1 as [| x l Hx _ IH]; simpl; [reflexivity |]. rewrite Hx. exact IH.
Qed.

Lemma filter_all {A} (f : A -> bool) (l : list A) :
  Forall (fun x => f x = true) l -> filter f l = l.
Proof.
  induction 1 as [| x l Hx _ IH]; simpl; [reflexivity |]. rewrite Hx, IH. reflexivity.
Qed.

Lemma filter_filter {A} (f g : A -> bool) (l : list A) :
  filter f (filter g l) = filter (fun x => g x && f x) l.
Proof.
  induction l as [| x l IH]; simpl; [reflexivity |].
  destruct (g x); simpl; [destruct (f x) |]; rewrite IH; reflexivity.
Qed.

(** The row written by the UPDATE statement. *)
Definition updated_row (config : WebhookConfig) (now : Z) (r : ConfigRow) : ConfigRow :=
  if cfg_id r =? ID config
  then mkConfigRow (cfg_id r) (Name config) (WebhookURL config)
                   (SecretToken config) (Enabled config) (cfg_created_at r) now
  else r.

Lemma UpdateWebhookConfig_success config c config' c' :
  UpdateWebhookConfig config c = (inr config', c') ->
  config_exists (tables c) (ID config) = true
  /\ triggers_of (tables c') (ID config) = Triggers config'
  /\ map trigger_content (Triggers config') = map trigger_content (Triggers config)
  /\ (forall id', id' <> ID config ->
        triggers_of (tables c') id' = triggers_of (tables c) id')
  /\ webhook_configs (tables c')
     = map (updated_row config (now c)) (webhook_configs (tables c))
  /\ chats (tables c') = chats (tables c)
  /\ messages (tables c') = messages (tables c)
  /\ webhook_logs (tables c') = webhook_logs (tables c).
Proof.
  unfold UpdateWebhookConfig. intro H.
  apply Transaction_inr in H. destruct H as (c1 & c2 & H & Ht1 & Hn1 & Ht2).
  apply bind_inr in H. destruct H as (n & c3 & Hupd & H).
  apply wrap_inr, Exec_inr in Hupd. destruct Hupd as [Hupd Hn3].
  unfold update_config_row in Hupd. inversion Hupd as [[Hn Ht3]]. clear Hupd.
  rewrite <- Hn in H. rewrite count_zero_iff in H. rewrite Ht1 in H.
  fold (config_exists (tables c) (ID config)) in H.
  destruct (config_exists (tables c) (ID config)) eqn:Hex; [simpl in H | discriminate].
  apply bind_inr in H. destruct H as (u & c4 & Hdel & H).
  apply wrap_inr, Exec_inr in Hdel. destruct Hdel as [Hdel _].
  unfold delete_triggers_of in Hdel. inversion Hdel as [[Hu Ht4]]. clear Hdel Hu.
  apply bind_inr in H. destruct H as (rows & c5 & Hins & H).
  unfold ret in H. inversion H; subst config' c5. clear H.
  apply (insert_all_inr (ID config)) in Hins.
  destruct Hins as (Htr & (Hch & Hms & Hcf & Hlg) & Hcont & Hall).
  rewrite Ht2. unfold triggers_of.
  rewrite Htr, Hch, Hms, Hcf, Hlg. rewrite <- Ht4. simpl. rewrite <- Ht3. simpl.
  rewrite Ht1, Hn1. simpl.
  assert (Hrows : forall id', filter (fun tr => WebhookConfigID tr =? id') rows
                              = if id' =? ID config then rows else []).
  { intro id'. destruct (Z.eqb_spec id' (ID config)) as [-> | Hne].
    - apply filter_all. eapply Forall_impl; [| exact Hall].
      simpl. intros tr ->. apply Z.eqb_refl.
    - apply filter_none. eapply Forall_impl; [| exact Hall].
      simpl. intros tr ->. apply Z.eqb_neq. congruence. }
  repeat split; try reflexivity.
  - rewrite filter_app, Hrows, Z.eqb_refl, filter_filter.
    rewrite filter_none; [reflexivity |].
    apply Forall_forall. intros tr _. destruct (WebhookConfigID tr =? ID config); reflexivity.
  - exact Hcont.
  - intros id' Hne. rewrite filter_app, Hrows.
    destruct (Z.eqb_spec id' (ID config)); [contradiction |].
    rewrite app_nil_r, filter_filter. apply filter_ext.
    intro tr. destruct (Z.eqb_spec (WebhookConfigID tr) (ID config)) as [Heq | Hd]; simpl.
    + rewrite Heq. symmetry. apply Z.eqb_neq. congruence.
    + reflexivity.
Qed.

(** The driver carries out its next [n] calls. *)
Definition answers (n : nat) (c : Conn) : Prop :=
  forallb negb (firstn n (faults c)) = true.

Lemma Exec_quiet {A} (stmt : Z -> Tables -> error + (A * Tables)) c :
  faults c = [] ->
  Exec stmt c = match stmt (now c) (tables c) with
                | inl e => (inl e, c)
                | inr (a, t') => (inr a, mkConn t' [] (now c))
                end.
Proof.
  intro Hf. unfold Exec, bind, driver. rewrite Hf.
  destruct (stmt (now c) (tables c)) as [e | [a t']]; [reflexivity |].
  rewrite Hf. reflexivity.
Qed.

Lemma insert_step_quiet id tr c :
  faults c = [] -> config_exists (tables c) id = true ->
  exists row c', insert_step id tr c = (inr row, c')
                 /\ faults c' = [] /\ config_exists (tables c') id = true.
Proof.
  intros Hf Hex. unfold insert_step, bind, wrap.
  rewrite (Exec_quiet _ c Hf). unfold insert_trigger. simpl. rewrite Hex.
  unfold ret. eexists; eexists. split; [reflexivity |]. simpl. auto.
Qed.

Lemma insert_all_quiet id trs : forall c,
  faults c = [] -> config_exists (tables c) id = true ->
  exists rows c', mapM (insert_step id) trs c = (inr rows, c') /\ faults c' = [].
Proof.
  induction trs as [| tr trs IH]; intros c Hf Hex; simpl.
  - exists [], c. auto.
  - destruct (insert_step_quiet id tr c Hf Hex) as (row & c1 & Hstep & Hf1 & Hex1).
    destruct (IH c1 Hf1 Hex1) as (rows & c' & Hrun & Hf').
    unfold bind. rewrite Hstep, Hrun. eexists; eexists. split; [reflexivity | exact Hf'].
Qed.

Lemma wrap_Exec_quiet {A} ctx (stmt : Z -> Tables -> error + (A * Tables)) c a t' :
  faults c = [] -> stmt (now c) (tables c) = inr (a, t') ->
  wrap ctx (Exec stmt) c = (inr a, mkConn t' [] (now c)).
Proof.
  intros Hf Hs. unfold wrap. rewrite (Exec_quiet _ c Hf), Hs. reflexivity.
Qed.

Lemma Transaction_quiet {A} (body : DBM A) c a c2 :
  faults c = [] -> body c = (inr a, c2) -> faults c2 = [] ->
  Transaction body c = (inr a, c2).
Proof.
  intros Hf Hb Hf2. unfold Transaction, wrap, driver.
  rewrite Hf, Hb, Hf2. reflexivity.
Qed.

Lemma UpdateWebhookConfig_quiet config c :
  config_exists (tables c) (ID config) = true -> faults c = [] ->
  exists config' c', UpdateWebhookConfig config c = (inr config', c').
Proof.
  intros Hex Hf.
  set (t1 := set_webhook_configs (tables c)
               (map (updated_row config (now c)) (webhook_configs (tables c)))
               (seq_webhook_configs (tables c))).
  set (t2 := set_webhook_triggers t1
               (filter (fun tr => negb (WebhookConfigID tr =? ID config))
                       (webhook_triggers t1))
               (seq_webhook_triggers t1)).
  assert (Hex2 : config_exists t2 (ID config) = true).
  { unfold config_exists, t2, t1 in *. simpl.
    rewrite existsb_exists in *. destruct Hex as (r & Hin & Hr).
    exists (updated_row config (now c) r). split.
    - apply in_map. exact Hin.
    - unfold updated_row. rewrite Hr. simpl. exact Hr. }
  destruct (insert_all_quiet (ID config) (Triggers config) (mkConn t2 [] (now c)))
    as (rows & c2 & Hrun & Hf2); [reflexivity | exact Hex2 |].
  exists (set_config_id_triggers config (ID config) rows), c2.
  unfold UpdateWebhookConfig. apply Transaction_quiet; [exact Hf | | exact Hf2].
  unfold bind at 1.
  rewrite (wrap_Exec_quiet _ (update_config_row config) c
             (Z.of_nat (length (filter (fun r => cfg_id r =? ID config)
                                       (webhook_configs (tables c))))) t1 Hf)
    by reflexivity.
  rewrite count_zero_iff. fold (config_exists (tables c) (ID config)).
  rewrite Hex. change (negb true) with false. cbv iota.
  unfold bind at 1.
  rewrite (wrap_Exec_quiet _ (delete_triggers_of (ID config)) _ tt t2)
    by reflexivity.
  unfold bind at 1. unfold insert_step in Hrun. simpl now. rewrite Hrun. reflexivity.
Qed.

Lemma driver_answers n c :
  answers (S n) c ->
  exists c1, driver c = (inr tt, c1) /\ tables c1 = tables c /\ now c1 = now c
             /\ answers n c1.
Proof.
  unfold answers, driver. destruct (faults c) as [| [|] fs] eqn:Hf; simpl; intro H.
  - exists c. rewrite Hf. destruct n; auto.
  - discriminate.
  - eexists. split; [reflexivity |]. simpl. auto.
Qed.

Lemma Transaction_body_fails {A} (body : DBM A) c c1 e c2 :
  driver c = (inr tt, c1) -> body c1 = (inl e, c2) ->
  Transaction body c = (inl e, mkConn (tables c) (faults c2) (now c2)).
Proof.
  intros Hd Hb. unfold Transaction, wrap. rewrite Hd, Hb. reflexivity.
Qed.

Lemma UpdateWebhookConfig_missing config c :
  config_exists (tables c) (ID config) = false ->
  (exists e c', UpdateWebhookConfig config c = (inl e, c'))
  /\ (answers 2 c ->
      exists c', UpdateWebhookConfig config c = (inl (ErrNotFound (ID config)), c')).
Proof.
  intro Hex. split.
  - destruct (UpdateWebhookConfig config c) as [[e | config'] c'] eqn:H; [eauto |].
    apply UpdateWebhookConfig_success in H. destruct H as [H _]. congruence.
  - intro Hq.
    destruct (driver_answers 1 c Hq) as (c1 & Hd1 & Ht1 & Hn1 & Hq1).
    destruct (driver_answers 0 c1 Hq1) as (c2 & Hd2 & Ht2 & Hn2 & _).
    eexists. unfold UpdateWebhookConfig.
    eapply Transaction_body_fails; [exact Hd1 |].
    unfold bind at 1, wrap, Exec. unfold bind at 1. rewrite Hd2.
    unfold update_config_row. rewrite count_zero_iff, Ht2, Ht1.
    fold (config_exists (tables c) (ID config)). rewrite Hex. reflexivity.
Qed.

(** C4.  [UpdateWebhookConfig] runs in one transaction: whenever it
    returns an error the tables are exactly as before the call; when the
    configuration id matches no row the error is the not-found error (as
    soon as the driver carries out BEGIN and UPDATE); when it returns nil
    the configuration existed, its row holds the new attributes, the
    triggers stored for it are exactly the submitted ones (same type,
    value, match and enabled, in order, under fresh row ids), and every
    other row of the store is unchanged.  On a driver that does not fail
    the call succeeds for every existing configuration. *)
Theorem C4_update_webhook_config_atomic config c :
  (forall e c', UpdateWebhookConfig config c = (inl e, c') -> tables c' = tables c)
  /\ (config_exists (tables c) (ID config) = false ->
      (exists e c', UpdateWebhookConfig config c = (inl e, c'))
      /\ (answers 2 c ->
          exists c', UpdateWebhookConfig config c
                     = (inl (ErrNotFound (ID config)), c')))
  /\ (forall config' c', UpdateWebhookConfig config c = (inr config', c') ->
        config_exists (tables c) (ID config) = true
        /\ triggers_of (tables c') (ID config) = Triggers config'
        /\ map trigger_content (Triggers config') = map trigger_content (Triggers config)
        /\ (forall id', id' <> ID config ->
              triggers_of (tables c') id' = triggers_of (tables c) id')
        /\ webhook_configs (tables c')
           = map (updated_row config (now c)) (webhook_configs (tables c))
        /\ chats (tables c') = chats (tables c)
        /\ messages (tables c') = messages (tables c)
        /\ webhook_logs (tables c') = webhook_logs (tables c))
  /\ (config_exists (tables c) (ID config) = true -> faults c = [] ->
      exists config' c', UpdateWebhookConfig config c = (inr config', c')).
Proof.
  split; [| split; [| split]].
  - intros e c' H. unfold UpdateWebhookConfig in H.
    exact (Transaction_inl _ c e c' H).
  - apply UpdateWebhookConfig_missing.
  - apply UpdateWebhookConfig_success.
  - apply UpdateWebhookConfig_quiet.
Qed.

(** TestUpdateWebhookConfig: store a configuration with one trigger,
    update it with a new name, URL, secret and two triggers, read it
    back. *)
Definition test_webhook : WebhookConfig :=
  mkWebhookConfig 0 "Test Webhook" "https://example.com/webhook" "secret123" true 0 0
    [mkWebhookTrigger 0 0 "keyword" "test" "contains" true].

Definition updated_test_webhook (id : Z) : WebhookConfig :=
  mkWebhookConfig id "Updated Test Webhook" "https://example.com/updated"
    "newsecret456" true 0 0
    [mkWebhookTrigger 0 0 "keyword" "urgent" "contains" true;
     mkWebhookTrigger 0 0 "sender" "123456@s.whatsapp.net" "exact" true].

Definition after_store (driver_faults : list bool) : Conn :=
  mkConn (tables (snd (StoreWebhookConfig test_webhook (mkConn empty_tables [] 10))))
         driver_faults 20.

Example update_test_run :
  let c := snd (UpdateWebhookConfig (updated_test_webhook 1) (after_store [])) in
  match fst (GetWebhookConfig 1 c) with
  | inr updated =>
      Name updated = "Updated Test Webhook"
      /\ WebhookURL updated = "https://example.com/updated"
      /\ SecretToken updated = "newsecret456"
      /\ map trigger_content (Triggers updated)
         = [("keyword", "urgent", "contains", true);
            ("sender", "123456@s.whatsapp.net", "exact", true)]
      /\ map TriggerID (Triggers updated) = [2; 3]
      /\ map WebhookConfigID (Triggers updated) = [1; 1]
      /\ UpdatedAt updated = 20
  | inl _ => False
  end.
Proof. vm_compute. repeat split. Qed.

(** The driver fails on the insert of the second new trigger (its fifth
    call): the update, the deletion and the first insert are undone. *)
Example update_fails_midway :
  let c := after_store [false; false; false; false; true] in
  fst (UpdateWebhookConfig (updated_test_webhook 1) c)
  = inl (ErrWrap "failed to insert trigger" ErrDriver)
  /\ tables (snd (UpdateWebhookConfig (updated_test_webhook 1) c)) = tables c.
Proof. vm_compute. split; reflexivity. Qed.

End UpdateAtomic.

(** ** C5: [DeleteWebhookConfig] *)

Section DeleteCascade.
Import Types Database.
Local Open Scope dbm_scope.

Lemma bind_inl {A B} (m : DBM A) (k : A -> DBM B) c e c' :
  bind m k c = (inl e, c') ->
  m c = (inl e, c') \/ exists a c1, m c = (inr a, c1) /\ k a c1 = (inl e, c').
Proof.
  unfold bind. destruct (m c) as [[e0 | a] c1]; intro H.
  - left. inversion H; subst. reflexivity.
  - right. exists a, c1. auto.
Qed.

Lemma driver_tables c r c' : driver c = (r, c') -> tables c' = tables c /\ now c' = now c.
Proof.
  unfold driver. destruct (faults c) as [| [|] fs]; intro H; inversion H; auto.
Qed.

(** A statement that is refused, or not carried out, changes nothing. *)
Lemma Exec_inl {A} (stmt : Z -> Tables -> error + (A * Tables)) c e c' :
  Exec stmt c = (inl e, c') -> tables c' = tables c.
Proof.
  unfold Exec. intro H. apply bind_inl in H.
  destruct H as [H | (u & c1 & Hd & H)].
  - apply driver_tables in H. tauto.
  - apply driver_tables in Hd. destruct Hd as [Ht Hn]. cbv beta in H.
    destruct (stmt (now c1) (tables c1)) as [e0 | [a t']]; inversion H; subst; auto.
Qed.

Lemma Query_tables {A} (q : Tables -> error + A) c r c' :
  Query q c = (r, c') -> tables c' = tables c.
Proof.
  unfold Query, bind. destruct (driver c) as [[e | u] c1] eqn:Hd; intro H.
  - inversion H; subst. apply driver_tables in Hd. tauto.
  - apply driver_tables in Hd. destruct Hd as [Ht _].
    destruct (q (tables c1)); inversion H; subst; auto.
Qed.

Lemma Query_inr {A} (q : Tables -> error + A) c a c' :
  Query q c = (inr a, c') -> q (tables c) = inr a.
Proof.
  unfold Query, bind. destruct (driver c) as [[e | u] c1] eqn:Hd; intro H;
    [discriminate |].
  apply driver_tables in Hd. destruct Hd as [Ht _]. rewrite Ht in H.
  destruct (q (tables c)); inversion H; subst; auto.
Qed.

(** The store once the logs of [id] are deleted, once its triggers are
    deleted too, and once the configuration row is gone as well. *)
Definition without_logs (id : Z) (t : Tables) : Tables :=
  set_webhook_logs t
    (filter (fun l => negb (LogWebhookConfigID l =? id)) (webhook_logs t))
    (seq_webhook_logs t).

Definition without_triggers (id : Z) (t : Tables) : Tables :=
  set_webhook_triggers t
    (filter (fun tr => negb (WebhookConfigID tr =? id)) (webhook_triggers t))
    (seq_webhook_triggers t).

Definition without_config (id : Z) (t : Tables) : Tables :=
  set_webhook_configs t
    (filter (fun r => negb (cfg_id r =? id)) (webhook_configs t))
    (seq_webhook_configs t).

Lemma existsb_filter_negb {A} (f : A -> bool) (l : list A) :
  existsb f (filter (fun x => negb (f x)) l) = false.
Proof.
  induction l as [| x l IH]; simpl; [reflexivity |].
  destruct (f x) eqn:Hx; simpl; [exact IH | rewrite Hx; exact IH].
Qed.

Lemma delete_config_row_after id nw t :
  delete_config_row id nw (without_triggers id (without_logs id t))
  = inr (tt, without_config id (without_triggers id (without_logs id t))).
Proof.
  unfold delete_config_row, without_triggers, without_logs. simpl.
  rewrite !existsb_filter_negb. reflexivity.
Qed.

Lemma DeleteWebhookConfig_success id c u c' :
  DeleteWebhookConfig id c = (inr u, c') ->
  config_exists (tables c) id = true
  /\ tables c' = without_config id (without_triggers id (without_logs id (tables c))).
Proof.
  unfold DeleteWebhookConfig. intro H.
  apply bind_inr in H. destruct H as (count & c1 & Hq & H).
  pose proof (Query_tables _ _ _ _ Hq) as Ht1. apply Query_inr in Hq.
  inversion Hq as [Hcount]. clear Hq.
  rewrite <- Hcount in H. rewrite count_zero_iff in H.
  fold (config_exists (tables c) id) in H.
  destruct (config_exists (tables c) id); [simpl in H | discriminate].
  split; [reflexivity |].
  apply bind_inr in H. destruct H as (u1 & c2 & H1 & H).
  apply bind_inr in H. destruct H as (u2 & c3 & H2 & H3).
  cbv beta in H3. apply Exec_inr in H1. apply Exec_inr in H2. apply Exec_inr in H3.
  destruct H1 as [H1 _]. destruct H2 as [H2 _]. destruct H3 as [H3 _].
  unfold delete_logs_of in H1. inversion H1 as [[Eu1 E1]]. clear H1.
  unfold delete_triggers_of in H2. inversion H2 as [[Eu2 E2]]. clear H2.
  rewrite <- E2, <- E1, Ht1 in H3.
  change (delete_config_row id (now c3)
            (without_triggers id (without_logs id (tables c))) = inr (u, tables c'))
    in H3.
  rewrite delete_config_row_after in H3. inversion H3. reflexivity.
Qed.

Lemma DeleteWebhookConfig_failure id c e c' :
  DeleteWebhookConfig id c = (inl e, c') ->
  tables c' = tables c
  \/ tables c' = without_logs id (tables c)
  \/ tables c' = without_triggers id (without_logs id (tables c)).
Proof.
  unfold DeleteWebhookConfig. intro H.
  apply bind_inl in H. destruct H as [H | (count & c1 & Hq & H)].
  { left. exact (Query_tables _ _ _ _ H). }
  pose proof (Query_tables _ _ _ _ Hq) as Ht1.
  destruct (count =? 0).
  { left. unfold fail in H. inversion H; subst. exact Ht1. }
  apply bind_inl in H. destruct H as [H | (u1 & c2 & H1 & H)].
  { left. apply Exec_inl in H. congruence. }
  apply Exec_inr in H1. destruct H1 as [H1 _].
  unfold delete_logs_of in H1. inversion H1 as [[Eu1 E1]]. clear H1. rewrite Ht1 in E1.
  apply bind_inl in H. destruct H as [H | (u2 & c3 & H2 & H)].
  { right. left. apply Exec_inl in H. rewrite H, <- E1. reflexivity. }
  apply Exec_inr in H2. destruct H2 as [H2 _].
  unfold delete_triggers_of in H2. inversion H2 as [[Eu2 E2]]. clear H2.
  right. right. apply Exec_inl in H. rewrite H, <- E2, <- E1. reflexivity.
Qed.

Lemma DeleteWebhookConfig_missing id c :
  config_exists (tables c) id = false ->
  (exists e c', DeleteWebhookConfig id c = (inl e, c') /\ tables c' = tables c)
  /\ (answers 1 c -> exists c', DeleteWebhookConfig id c = (inl (ErrNotFound id), c')).
Proof.
  intro Hex.
  assert (Hcount : (Z.of_nat (length (filter (fun r => cfg_id r =? id)
                                            (webhook_configs (tables c)))) =? 0) = true).
  { rewrite count_zero_iff. fold (config_exists (tables c) id). rewrite Hex. reflexivity. }
  split.
  - unfold DeleteWebhookConfig, bind, Query, bind.
    destruct (driver c) as [[e | u] c1] eqn:Hd;
      apply driver_tables in Hd; destruct Hd as [Ht _].
    + eauto.
    + rewrite Ht, Hcount. unfold fail. eauto.
  - intro Hq. destruct (driver_answers 0 c Hq) as (c1 & Hd & Ht & _).
    unfold DeleteWebhookConfig, bind, Query, bind. rewrite Hd, Ht, Hcount.
    unfold fail. eauto.
Qed.

Lemma DeleteWebhookConfig_quiet id c :
  config_exists (tables c) id = true -> faults c = [] ->
  exists c', DeleteWebhookConfig id c = (inr tt, c').
Proof.
  intros Hex Hf.
  assert (Hcount : (Z.of_nat (length (filter (fun r => cfg_id r =? id)
                                            (webhook_configs (tables c)))) =? 0) = false).
  { rewrite count_zero_iff. fold (config_exists (tables c) id). rewrite Hex. reflexivity. }
  unfold DeleteWebhookConfig, bind at 1, Query, bind at 1, driver.
  rewrite Hf, Hcount.
  unfold bind at 1. rewrite (Exec_quiet _ c Hf). unfold delete_logs_of at 1.
  unfold bind at 1. rewrite Exec_quiet by reflexivity. unfold delete_triggers_of at 1.
  rewrite Exec_quiet by reflexivity. simpl tables.
  change (set_webhook_triggers _ _ _)
    with (without_triggers id (without_logs id (tables c))).
  rewrite delete_config_row_after. eauto.
Qed.

(** A store holding configuration 1 with one trigger and one log row. *)
Definition delivered_once : Tables :=
  mkTables [] [] [Fixtures.orders_row] [Fixtures.urgent]
    [mkWebhookLog 1 1 "M1" "111@s.whatsapp.net" "keyword" "urgent" "{}" 200 "ok"
                  1 (Some 150) 150]
    1 1 1.

(** C5 (as amended).  [DeleteWebhookConfig] first checks that the
    configuration exists and fails with the not-found error otherwise,
    leaving the store untouched; it then deletes the configuration's log
    rows, its trigger rows and the configuration row, in this order, as
    three separate statements outside any transaction.  After a nil
    return no trigger, log or configuration row carries the id and all
    other rows are as before; after an error the store is as before, or
    lacks the log rows, or lacks the log and trigger rows.  On a driver
    that does not fail the call succeeds for every existing
    configuration. *)
Theorem C5_delete_webhook_config_cascade id c :
  (config_exists (tables c) id = false ->
     (exists e c', DeleteWebhookConfig id c = (inl e, c') /\ tables c' = tables c)
     /\ (answers 1 c ->
         exists c', DeleteWebhookConfig id c = (inl (ErrNotFound id), c')))
  /\ (forall u c', DeleteWebhookConfig id c = (inr u, c') ->
        config_exists (tables c) id = true
        /\ tables c' = without_config id (without_triggers id (without_logs id (tables c)))
        /\ triggers_of (tables c') id = []
        /\ filter (fun l => LogWebhookConfigID l =? id) (webhook_logs (tables c')) = []
        /\ config_exists (tables c') id = false)
  /\ (forall e c', DeleteWebhookConfig id c = (inl e, c') ->
        tables c' = tables c
        \/ tables c' = without_logs id (tables c)
        \/ tables c' = without_triggers id (without_logs id (tables c)))
  /\ (config_exists (tables c) id = true -> faults c = [] ->
      exists c', DeleteWebhookConfig id c = (inr tt, c')).
Proof.
  split; [apply DeleteWebhookConfig_missing |].
  split; [| split; [apply DeleteWebhookConfig_failure | apply DeleteWebhookConfig_quiet]].
  intros u c' H. apply DeleteWebhookConfig_success in H. destruct H as [Hex Ht].
  split; [exact Hex |]. split; [exact Ht |]. rewrite Ht.
  unfold triggers_of, config_exists, without_config, without_triggers, without_logs.
  simpl. repeat split.
  - rewrite filter_filter. apply filter_none. apply Forall_forall. intros tr _.
    destruct (WebhookConfigID tr =? id); reflexivity.
  - rewrite filter_filter. apply filter_none. apply Forall_forall. intros l _.
    destruct (LogWebhookConfigID l =? id); reflexivity.
  - apply existsb_filter_negb.
Qed.

(** C5 (counterexample to the claim as stated).  With configuration 1, a
    trigger and a log row stored, and a driver that fails on the third
    statement, the call returns an error although the log row is already
    gone while the trigger and the configuration are still there: the
    three deletions are not one transaction. *)
Lemma C5_counterexample_delete_not_transactional :
  let c := mkConn delivered_once [false; false; true] 300 in
  exists c',
    DeleteWebhookConfig 1 c = (inl ErrDriver, c')
    /\ tables c' <> tables c
    /\ webhook_logs (tables c') = []
    /\ webhook_triggers (tables c') = [Fixtures.urgent]
    /\ webhook_configs (tables c') = [Fixtures.orders_row].
Proof.
  eexists. split; [vm_compute; reflexivity |].
  simpl. repeat split. discriminate.
Qed.

End DeleteCascade.

(** ** C6: [StoreMessage] is an upsert on (id, chat_jid) *)

Section MessageUpsert.
Import Types Database.

(** The rows stored under a key. *)
Definition rows_with (id chatJID : string) (t : Tables) : list MessageRow :=
  filter (same_key id chatJID) (messages t).

(** The row a call writes: the sender stands in for an empty sender name. *)
Definition written_row (id chatJID sender senderName content : string)
    (timestamp : Z) (isFromMe : bool) (mediaType filename url : string)
    (mediaKey fileSHA256 fileEncSHA256 : list Byte.byte) (fileLength : Z)
  : MessageRow :=
  mkMessageRow id chatJID sender
    (if String.eqb senderName "" then sender else senderName)
    content timestamp isFromMe mediaType filename url mediaKey fileSHA256
    fileEncSHA256 fileLength.

Definition carries_something (content mediaType : string) : Prop :=
  content <> "" \/ mediaType <> "".

Lemma carries_something_test content mediaType :
  carries_something content mediaType ->
  String.eqb content "" && String.eqb mediaType "" = false.
Proof.
  intros [H | H]; apply String.eqb_neq in H; rewrite H;
    [reflexivity | apply andb_false_r].
Qed.

Lemma same_key_refl id chatJID r :
  msg_id r = id -> msg_chat_jid r = chatJID -> same_key id chatJID r = true.
Proof.
  intros <- <-. unfold same_key. rewrite !String.eqb_refl. reflexivity.
Qed.

Lemma same_key_other id chatJID id' chatJID' r :
  id' <> id \/ chatJID' <> chatJID ->
  same_key id' chatJID' r = true -> same_key id chatJID r = false.
Proof.
  unfold same_key. intros Hne H. apply andb_true_iff in H. destruct H as [H1 H2].
  apply String.eqb_eq in H1, H2. subst.
  destruct Hne as [Hne | Hne]; apply String.eqb_neq in Hne; rewrite Hne;
    [reflexivity | apply andb_false_r].
Qed.

Lemma StoreMessage_written id chatJID sender senderName content timestamp isFromMe
    mediaType filename url mediaKey fileSHA256 fileEncSHA256 fileLength c u c' :
  carries_something content mediaType ->
  StoreMessage id chatJID sender senderName content timestamp isFromMe mediaType
               filename url mediaKey fileSHA256 fileEncSHA256 fileLength c
  = (inr u, c') ->
  rows_with id chatJID (tables c')
  = [written_row id chatJID sender senderName content timestamp isFromMe mediaType
                 filename url mediaKey fileSHA256 fileEncSHA256 fileLength]
  /\ (forall id' chatJID', id' <> id \/ chatJID' <> chatJID ->
        rows_with id' chatJID' (tables c') = rows_with id' chatJID' (tables c))
  /\ chats (tables c') = chats (tables c)
  /\ chat_exists (tables c) chatJID = true.
Proof.
  intros Hne H. unfold StoreMessage in H.
  rewrite (carries_something_test _ _ Hne) in H.
  apply Exec_inr in H. destruct H as [H _].
  destruct (chat_exists (tables c) chatJID); [| discriminate].
  inversion H as [[Hu Ht]]. clear H. unfold rows_with. simpl.
  repeat split.
  - rewrite filter_app, filter_filter. simpl.
    rewrite (same_key_refl id chatJID) by reflexivity.
    rewrite filter_none; [reflexivity |].
    apply Forall_forall. intros r _. destruct (same_key id chatJID r); reflexivity.
  - intros id' chatJID' Hk. rewrite filter_app, filter_filter. simpl.
    assert (Hrow : forall r, msg_id r = id -> msg_chat_jid r = chatJID ->
                             same_key id' chatJID' r = false).
    { intros r Hi Hc. destruct (same_key id' chatJID' r) eqn:Hs; [| reflexivity].
      apply (same_key_other id chatJID id' chatJID' r Hk) in Hs.
      rewrite (same_key_refl id chatJID r Hi Hc) in Hs. discriminate. }
    rewrite Hrow by reflexivity. rewrite app_nil_r. apply filter_ext.
    intro r. destruct (same_key id' chatJID' r) eqn:Hs.
    + rewrite (same_key_other id chatJID id' chatJID' r Hk Hs). reflexivity.
    + apply andb_false_r.
Qed.

Lemma StoreMessage_empty_dropped id chatJID sender senderName timestamp isFromMe
    filename url mediaKey fileSHA256 fileEncSHA256 fileLength c :
  StoreMessage id chatJID sender senderName "" timestamp isFromMe ""
               filename url mediaKey fileSHA256 fileEncSHA256 fileLength c
  = (inr tt, c).
Proof. reflexivity. Qed.

Lemma StoreMessage_quiet id chatJID sender senderName content timestamp isFromMe
    mediaType filename url mediaKey fileSHA256 fileEncSHA256 fileLength c :
  faults c = [] -> chat_exists (tables c) chatJID = true ->
  exists c',
    StoreMessage id chatJID sender senderName content timestamp isFromMe mediaType
                 filename url mediaKey fileSHA256 fileEncSHA256 fileLength c
    = (inr tt, c').
Proof.
  intros Hf Hex. unfold StoreMessage.
  destruct (String.eqb content "" && String.eqb mediaType ""); [eexists; reflexivity |].
  rewrite (Exec_quiet _ c Hf), Hex. eexists; reflexivity.
Qed.

(** A call described by the row it asks for. *)
Definition store (m : MessageRow) : DBM unit :=
  StoreMessage (msg_id m) (msg_chat_jid m) (msg_sender m) (msg_sender_name m)
    (msg_content m) (msg_timestamp m) (msg_is_from_me m) (msg_media_type m)
    (msg_filename m) (msg_url m) (msg_media_key m) (msg_file_sha256 m)
    (msg_file_enc_sha256 m) (msg_file_length m).

Definition as_written (m : MessageRow) : MessageRow :=
  written_row (msg_id m) (msg_chat_jid m) (msg_sender m) (msg_sender_name m)
    (msg_content m) (msg_timestamp m) (msg_is_from_me m) (msg_media_type m)
    (msg_filename m) (msg_url m) (msg_media_key m) (msg_file_sha256 m)
    (msg_file_enc_sha256 m) (msg_file_length m).

(** C6 (as amended).  Two calls of [StoreMessage] with the same
    (id, chat_jid), the second carrying text or a media type and returning
    nil: whatever the first call did, exactly one row is stored under the
    key afterwards and it holds the second call's attributes (the sender
    standing in for an empty sender name); rows under any other key, in
    particular under the same id in another chat, are untouched by the
    second call. *)
Theorem C6_store_message_upsert (m1 m2 : MessageRow) c r1 c1 c2 :
  msg_id m2 = msg_id m1 ->
  msg_chat_jid m2 = msg_chat_jid m1 ->
  carries_something (msg_content m2) (msg_media_type m2) ->
  store m1 c = (r1, c1) ->
  store m2 c1 = (inr tt, c2) ->
  rows_with (msg_id m1) (msg_chat_jid m1) (tables c2) = [as_written m2]
  /\ length (rows_with (msg_id m1) (msg_chat_jid m1) (tables c2)) = 1%nat
  /\ (forall id' chatJID',
        id' <> msg_id m1 \/ chatJID' <> msg_chat_jid m1 ->
        rows_with id' chatJID' (tables c2) = rows_with id' chatJID' (tables c1))
  /\ (forall chatJID' row,
        chatJID' <> msg_chat_jid m1 ->
        rows_with (msg_id m1) chatJID' (tables c1) = [row] ->
        rows_with (msg_id m1) chatJID' (tables c2) = [row]).
Proof.
  intros Hid Hchat Hne _ H2. unfold store in H2.
  destruct (StoreMessage_written _ _ _ _ _ _ _ _ _ _ _ _ _ _ _ _ _ Hne H2)
    as (Hrow & Hothers & _ & _).
  rewrite <- Hid, <- Hchat.
  split; [exact Hrow |]. split; [rewrite Hrow; reflexivity |].
  split; [exact Hothers |].
  intros chatJID' row Hc Hr. rewrite Hothers; [exact Hr | right; exact Hc].
Qed.

Definition hello : MessageRow :=
  mkMessageRow "M1" "111@s.whatsapp.net" "222" "" "hello" 100 false "" "" "" [] [] [] 0.

Definition hello_again : MessageRow :=
  mkMessageRow "M1" "111@s.whatsapp.net" "222" "Bob" "hello again" 105 false
               "" "" "" [] [] [] 0.

(** The same key with neither text nor media. *)
Definition blank : MessageRow :=
  mkMessageRow "M1" "111@s.whatsapp.net" "222" "Bob" "" 110 false "" "" "" [] [] [] 0.

Definition one_chat : Conn :=
  mkConn (set_chats empty_tables [mkChatRow "111@s.whatsapp.net" "Alice" 90]) [] 120.

Definition no_chat : Conn := mkConn empty_tables [] 120.

Lemma C6_witness_store_twice :
  (msg_id hello_again = msg_id hello
   /\ msg_chat_jid hello_again = msg_chat_jid hello
   /\ carries_something (msg_content hello_again) (msg_media_type hello_again)
   /\ store hello_again (snd (store hello one_chat))
      = (inr tt, snd (store hello_again (snd (store hello one_chat)))))
  /\ rows_with "M1" "111@s.whatsapp.net"
               (tables (snd (store hello_again (snd (store hello one_chat)))))
     = [as_written hello_again].
Proof.
  assert (H1 : msg_id hello_again = msg_id hello) by reflexivity.
  assert (H2 : msg_chat_jid hello_again = msg_chat_jid hello) by reflexivity.
  assert (H3 : carries_something (msg_content hello_again) (msg_media_type hello_again))
    by (left; discriminate).
  assert (H4 : store hello one_chat = (fst (store hello one_chat), snd (store hello one_chat)))
    by reflexivity.
  assert (H5 : store hello_again (snd (store hello one_chat))
               = (inr tt, snd (store hello_again (snd (store hello one_chat)))))
    by reflexivity.
  split; [auto |].
  exact (proj1 (C6_store_message_upsert hello hello_again one_chat _ _ _ H1 H2 H3 H4 H5)).
Defined.

(** C6 (counterexample to the claim as stated).  A message with neither
    text nor media stored twice leaves no row under its key; stored after
    a message that carried text, it leaves that earlier row in place, so
    the row does not reflect the last write; and a message for a chat that
    has no row is refused by the foreign key both times. *)
Lemma C6_counterexample_blank_or_orphan_message :
  rows_with "M1" "111@s.whatsapp.net"
            (tables (snd (store blank (snd (store blank one_chat))))) = []
  /\ rows_with "M1" "111@s.whatsapp.net"
               (tables (snd (store blank (snd (store hello one_chat)))))
     = [as_written hello]
  /\ as_written hello <> as_written blank
  /\ fst (store hello no_chat) = inl ErrConstraint
  /\ rows_with "M1" "111@s.whatsapp.net"
               (tables (snd (store hello (snd (store hello no_chat))))) = [].
Proof. vm_compute. repeat split; try reflexivity. discriminate. Qed.

End MessageUpsert.

(** ** C7: keyword triggers and an empty message text *)

Section KeywordTrigger.
Import Types Events Manager.

Lemma ToLower_empty s : Strings.ToLower s = "" <-> s = "".
Proof. destruct s; simpl; split; intro H; try reflexivity; discriminate. Qed.

(** What [matchesString] answers for the empty text. *)
Lemma matchesString_empty_text E pattern matchType :
  matchesString E "" pattern matchType = true
  <-> ((matchType = "exact" \/ matchType = "contains") /\ pattern = "")
      \/ (matchType = "regex" /\ regexp_MatchString E pattern "" = Some true).
Proof.
  unfold matchesString.
  destruct (String.eqb_spec matchType "exact") as [-> | Hx].
  { split.
    - intro H. left. split; [auto |]. apply String.eqb_eq in H. auto.
    - intros [[_ ->] | [H _]]; [reflexivity | discriminate]. }
  destruct (String.eqb_spec matchType "contains") as [-> | Hc].
  { simpl. split.
    - intro H. left. split; [auto |]. apply String.eqb_eq in H.
      apply ToLower_empty. exact H.
    - intros [[_ ->] | [H _]]; [reflexivity | discriminate]. }
  destruct (String.eqb_spec matchType "regex") as [-> | Hr].
  { split.
    - intro H. right. split; [reflexivity |].
      destruct (regexp_MatchString E pattern "") as [[|] |]; congruence.
    - intros [[[H | H] _] | [_ H]]; try discriminate. rewrite H. reflexivity. }
  split; [discriminate |].
  intros [[[H | H] _] | [H _]]; contradiction.
Qed.

(** C7 (as amended).  A keyword trigger is compared against the message
    text.  For an empty text it matches exactly in two cases: the match
    operator is exact or contains and the trigger value is empty; or the
    match operator is regex and the value is a pattern that matches the
    empty string.  An enabled keyword trigger that is the only trigger of
    a configuration is selected under the same condition. *)
Theorem C7_keyword_trigger_on_empty_text E trigger msg content mediaType chatName :
  TriggerType trigger = "keyword" ->
  matchesTrigger E trigger msg content mediaType chatName
  = matchesString E content (TriggerValue trigger) (MatchType trigger)
  /\ (matchesTrigger E trigger msg "" mediaType chatName = true
      <-> ((MatchType trigger = "exact" \/ MatchType trigger = "contains")
           /\ TriggerValue trigger = "")
          \/ (MatchType trigger = "regex"
              /\ regexp_MatchString E (TriggerValue trigger) "" = Some true))
  /\ (forall config,
        Triggers config = [trigger] -> TriggerEnabled trigger = true ->
        (first_match E config msg "" mediaType chatName = Some trigger
         <-> matchesTrigger E trigger msg "" mediaType chatName = true)).
Proof.
  intro Hty.
  assert (Hkw : forall text, matchesTrigger E trigger msg text mediaType chatName
                             = matchesString E text (TriggerValue trigger)
                                             (MatchType trigger)).
  { intro text. unfold matchesTrigger. rewrite Hty. reflexivity. }
  split; [apply Hkw |]. split.
  - rewrite Hkw. apply matchesString_empty_text.
  - intros config Htr Hen. unfold first_match. rewrite Htr. simpl. rewrite Hen. simpl.
    destruct (matchesTrigger E trigger msg "" mediaType chatName);
      split; intro H; try reflexivity; discriminate.
Qed.

Definition any_text : WebhookTrigger :=
  mkWebhookTrigger 7 1 "keyword" ".*" "regex" true.

Definition silent_message : Message :=
  mkMessage (mkMessageInfo "M9" (mkJID "111" "s.whatsapp.net")
                           (mkJID "222" "s.whatsapp.net") "Bob" 100 false)
            None.

Lemma C7_witness_regex_keyword :
  TriggerType any_text = "keyword"
  /\ matchesTrigger Sample.env any_text silent_message "This is urgent!" "" "Alice"
     = matchesString Sample.env "This is urgent!" ".*" "regex".
Proof.
  split; [reflexivity |].
  exact (proj1 (C7_keyword_trigger_on_empty_text
                  Sample.env any_text silent_message "This is urgent!" "" "Alice"
                  eq_refl)).
Defined.

(** C7 (counterexample to the claim as stated).  The enabled keyword
    trigger with match operator regex and value ".*" matches a message
    whose text is empty, although its value is not empty and its operator
    is neither exact nor contains; so does the regex trigger with an empty
    value. *)
Lemma C7_counterexample_regex_matches_empty_text :
  ExtractTextContent (Msg silent_message) = ""
  /\ TriggerEnabled any_text = true
  /\ matchesTrigger Sample.env any_text silent_message "" "" "Alice" = true
  /\ TriggerValue any_text <> ""
  /\ MatchType any_text <> "exact" /\ MatchType any_text <> "contains"
  /\ matchesString Sample.env "" "" "regex" = true.
Proof. vm_compute. repeat split; try reflexivity; discriminate. Qed.

End KeywordTrigger.

(** ** C8: how much of the response body is stored *)

Section ResponseBodyLimit.
Import Types Database Delivery.

Lemma substring_0_length n s :
  String.length (String.substring 0 n s) = Nat.min n (String.length s).
Proof.
  revert s. induction n as [| n IH]; intro s; destruct s as [| ch s]; simpl;
    try reflexivity.
  rewrite IH. reflexivity.
Qed.

(** A single [Read] never yields more than the buffer holds, and fills the
    buffer only if the first chunk is long enough. *)
Lemma Read_length size body :
  String.length (Read size body)
  = match body with
    | [] => 0%nat
    | chunk :: _ => Nat.min size (String.length chunk)
    end.
Proof. destruct body as [| chunk rest]; simpl; [reflexivity | apply substring_0_length]. Qed.

Lemma Read_at_most size body : (String.length (Read size body) <= size)%nat.
Proof. rewrite Read_length. destruct body; lia. Qed.

Fixpoint filler (n : nat) : string :=
  match n with
  | O => ""
  | S k => String "a" (filler k)
  end.

Definition total_length (body : list string) : nat :=
  fold_right (fun chunk n => (String.length chunk + n)%nat) 0%nat body.

(** A 2048-byte body of which 512 bytes are available at the first read. *)
Definition slow_body : list string := [filler 512; filler 1536].

(** Whatever the target sends, the body kept for a response is at most
    1024 bytes long, and exactly 1024 bytes long when the first read finds
    at least that many bytes. *)
Lemma response_body_at_most_1024 status body :
  (String.length (body_of (Response status body)) <= 1024)%nat.
Proof. simpl. apply Read_at_most. Qed.

Lemma response_body_exactly_1024 status chunk rest :
  (1024 <= String.length chunk)%nat ->
  String.length (body_of (Response status (chunk :: rest))) = 1024%nat.
Proof. intro H. simpl. rewrite substring_0_length. lia. Qed.

Definition stored_body_lengths (w : World) : list nat :=
  map (fun l => String.length (ResponseBody l)) (webhook_logs (tables (conn w))).

(** C8 (evaluation at the failing input).  The target answers 200 with a
    body of 2048 bytes of which 512 are available when the body is first
    read: the log row of the attempt stores 512 bytes, where the claim
    says exactly 1024.  When the 2048 bytes are available at once the row
    stores 1024 bytes. *)
Theorem C8_single_read_may_store_fewer_than_1024_bytes :
  total_length slow_body = 2048%nat
  /\ stored_body_lengths (Runs.deliver (Runs.world [Response 200 slow_body] []))
     = [512%nat]
  /\ stored_body_lengths (Runs.deliver (Runs.world [Response 200 [filler 2048]] []))
     = [1024%nat].
Proof. vm_compute. repeat split. Qed.

End ResponseBodyLimit.

(** ** C9: the last activity time of a chat *)

Section LastActivity.
Import Types Events Database Whatsapp.

(** The stored last activity time of a chat, if the chat has a row. *)
Definition last_activity (jid : string) (t : Tables) : option Z :=
  option_map last_message_time
             (find (fun r => String.eqb (chat_jid r) jid) (chats t)).

Lemma find_replaced jid jid' row l :
  chat_jid row = jid ->
  find (fun r => String.eqb (chat_jid r) jid')
       (filter (fun r => negb (String.eqb (chat_jid r) jid)) l ++ [row])
  = if String.eqb jid jid' then Some row
    else find (fun r => String.eqb (chat_jid r) jid') l.
Proof.
  intro Hrow. induction l as [| r l IH]; simpl.
  - rewrite Hrow. destruct (String.eqb jid jid'); reflexivity.
  - destruct (String.eqb_spec (chat_jid r) jid) as [Heq | Hne]; simpl.
    + rewrite IH. destruct (String.eqb_spec jid jid') as [<- | Hd]; [reflexivity |].
      rewrite Heq. apply String.eqb_neq in Hd. rewrite Hd. reflexivity.
    + destruct (String.eqb_spec (chat_jid r) jid') as [Heq' | Hne'].
      * destruct (String.eqb_spec jid jid'); [congruence | reflexivity].
      * exact IH.
Qed.

Lemma StoreChat_result jid name t c :
  (fst (StoreChat jid name t c) = inr tt
   /\ chats (tables (snd (StoreChat jid name t c)))
      = (filter (fun r => negb (String.eqb (chat_jid r) jid)) (chats (tables c))
         ++ [mkChatRow jid name t])%list)
  \/ ((exists e, fst (StoreChat jid name t c) = inl e)
      /\ tables (snd (StoreChat jid name t c)) = tables c).
Proof.
  destruct (StoreChat jid name t c) as [[e | u] c'] eqn:H; simpl.
  - right. split; [eauto |]. unfold StoreChat in H. exact (Exec_inl _ _ _ _ H).
  - left. unfold StoreChat in H. apply Exec_inr in H. destruct H as [H _].
    inversion H as [[Hu Ht]]. destruct u. split; reflexivity.
Qed.

(** Last write wins: a successful [StoreChat] sets the time it is given,
    for this chat only. *)
Lemma StoreChat_sets jid name t c :
  fst (StoreChat jid name t c) = inr tt ->
  last_activity jid (tables (snd (StoreChat jid name t c))) = Some t
  /\ forall jid', jid' <> jid ->
       last_activity jid' (tables (snd (StoreChat jid name t c)))
       = last_activity jid' (tables c).
Proof.
  intro Hok. destruct (StoreChat_result jid name t c) as [[_ Hch] | [[e He] _]];
    [| congruence].
  unfold last_activity. rewrite Hch. split.
  - rewrite find_replaced by reflexivity. rewrite String.eqb_refl. reflexivity.
  - intros jid' Hne. rewrite find_replaced by reflexivity.
    apply not_eq_sym, String.eqb_neq in Hne. rewrite Hne. reflexivity.
Qed.

Lemma StoreMessage_keeps_chats id chatJID sender senderName content timestamp isFromMe
    mediaType filename url mediaKey fileSHA256 fileEncSHA256 fileLength c :
  chats (tables (snd (StoreMessage id chatJID sender senderName content timestamp
                        isFromMe mediaType filename url mediaKey fileSHA256
                        fileEncSHA256 fileLength c)))
  = chats (tables c).
Proof.
  unfold StoreMessage.
  destruct (String.eqb content "" && String.eqb mediaType ""); [reflexivity |].
  match goal with |- context [Exec ?f c] => destruct (Exec f c) as [[e | u] c'] eqn:H end.
  - simpl. rewrite (Exec_inl _ _ _ _ H). reflexivity.
  - simpl. apply Exec_inr in H. destruct H as [H _].
    destruct (chat_exists (tables c) chatJID); [| discriminate].
    inversion H as [[Hu Ht]]. reflexivity.
Qed.

Lemma GetChatName_keeps_tables cl jid chatJID conversation sender db :
  tables (snd (GetChatName cl jid chatJID conversation sender db)) = tables db.
Proof.
  unfold GetChatName.
  match goal with |- context [Query ?q db] => destruct (Query q db) as [r db'] eqn:H end.
  apply Query_tables in H.
  destruct r as [e | existing]; [exact H |].
  destruct (negb (String.eqb existing "")); exact H.
Qed.

(** What a live message does to the chats table: the [StoreChat] of its
    timestamp, under the resolved name, and nothing else. *)
Lemma HandleMessage_chats E cl wm elapsed msg db :
  exists name db1,
    tables db1 = tables db
    /\ chats (tables (snd (HandleMessage E cl wm elapsed msg db)))
       = chats (tables (snd (StoreChat (JID_String (Chat (Info msg))) name
                                       (InfoTimestamp (Info msg)) db1))).
Proof.
  unfold HandleMessage.
  destruct (GetChatName cl (Chat (Info msg)) (JID_String (Chat (Info msg))) None
                        (User (Sender (Info msg))) db) as [name db1] eqn:Hn.
  exists name, db1. split.
  - pose proof (GetChatName_keeps_tables cl (Chat (Info msg))
                  (JID_String (Chat (Info msg))) None (User (Sender (Info msg))) db) as H.
    rewrite Hn in H. exact H.
  - destruct (ExtractMediaInfo E (Msg msg)) as [[mediaType filename] media].
    destruct (String.eqb (ExtractTextContent (Msg msg)) "" && String.eqb mediaType "");
      [reflexivity |].
    destruct wm; simpl; apply StoreMessage_keeps_chats.
Qed.

Lemma StoreChat_quiet jid name t c :
  faults c = [] -> fst (StoreChat jid name t c) = inr tt.
Proof. intro Hf. unfold StoreChat. rewrite (Exec_quiet _ c Hf). reflexivity. Qed.

Lemma last_activity_chats jid t t' :
  chats t' = chats t -> last_activity jid t' = last_activity jid t.
Proof. unfold last_activity. intros ->. reflexivity. Qed.

(** After a [StoreChat] the chat shows the time just given, or the store
    is as it was. *)
Lemma StoreChat_last_activity jid name t c :
  last_activity jid (tables (snd (StoreChat jid name t c))) = Some t
  \/ tables (snd (StoreChat jid name t c)) = tables c.
Proof.
  destruct (StoreChat_result jid name t c) as [[Hok _] | [_ Hsame]].
  - left. apply StoreChat_sets. exact Hok.
  - right. exact Hsame.
Qed.

(** C9 (as amended).  A chat store is last-write-wins: when it succeeds,
    the chat's last activity time is the timestamp just given, whatever
    was stored before, and no other chat is touched; when it fails, the
    store is unchanged.  Hence the time does not move backward whenever
    the timestamp given is not earlier than the stored one, and the same
    holds for the ingestion of a live message, which stores the chat with
    the message's timestamp. *)
Theorem C9_last_activity_is_last_write jid name t c :
  (fst (StoreChat jid name t c) = inr tt ->
     last_activity jid (tables (snd (StoreChat jid name t c))) = Some t
     /\ forall jid', jid' <> jid ->
          last_activity jid' (tables (snd (StoreChat jid name t c)))
          = last_activity jid' (tables c))
  /\ ((exists e, fst (StoreChat jid name t c) = inl e) ->
      tables (snd (StoreChat jid name t c)) = tables c)
  /\ (faults c = [] -> fst (StoreChat jid name t c) = inr tt)
  /\ (forall t0,
        last_activity jid (tables c) = Some t0 -> t0 <= t ->
        exists t1, last_activity jid (tables (snd (StoreChat jid name t c))) = Some t1
                   /\ t0 <= t1)
  /\ (forall E cl wm elapsed msg t0,
        JID_String (Chat (Info msg)) = jid ->
        last_activity jid (tables c) = Some t0 -> t0 <= InfoTimestamp (Info msg) ->
        exists t1,
          last_activity jid (tables (snd (HandleMessage E cl wm elapsed msg c))) = Some t1
          /\ t0 <= t1).
Proof.
  split; [apply StoreChat_sets |].
  split.
  { intros [e He]. destruct (StoreChat_result jid name t c) as [[Hok _] | [_ Hsame]];
      [congruence | exact Hsame]. }
  split; [apply StoreChat_quiet |].
  split.
  { intros t0 H0 Hle. destruct (StoreChat_last_activity jid name t c) as [H | H].
    - exists t. split; [exact H | exact Hle].
    - exists t0. rewrite H. split; [exact H0 | lia]. }
  intros E cl wm elapsed msg t0 Hjid H0 Hle.
  destruct (HandleMessage_chats E cl wm elapsed msg c) as (nm & db1 & Ht & Hch).
  rewrite (last_activity_chats jid _ _ Hch). rewrite Hjid.
  destruct (StoreChat_last_activity jid nm (InfoTimestamp (Info msg)) db1) as [H | H].
  - exists (InfoTimestamp (Info msg)). split; [exact H | exact Hle].
  - exists t0. rewrite H, Ht. split; [exact H0 | lia].
Qed.

Definition alice : string := "111@s.whatsapp.net".

Definition live (id : string) (timestamp : Z) : Message :=
  mkMessage (mkMessageInfo id (mkJID "111" "s.whatsapp.net")
                           (mkJID "111" "s.whatsapp.net") "Alice" timestamp false)
            (Some (mkE2EMessage "hi" None None None None None)).

Definition offline : Client := mkClient (fun _ => None) (fun _ => None).

Definition fresh : Conn := mkConn empty_tables [] 0.

(** C9 (counterexample to the claim as stated).  Storing the chat with
    time 200 and then with time 100 leaves 100: the last activity time
    moved backward.  The same happens when a live message stamped 200 is
    followed by one stamped 100. *)
Lemma C9_counterexample_older_timestamp_moves_time_back :
  let c1 := snd (StoreChat alice "Alice" 200 fresh) in
  let c2 := snd (StoreChat alice "Alice" 100 c1) in
  let d1 := snd (HandleMessage Sample.env offline None 0 (live "M1" 200) fresh) in
  let d2 := snd (HandleMessage Sample.env offline None 0 (live "M2" 100) d1) in
  last_activity alice (tables c1) = Some 200
  /\ last_activity alice (tables c2) = Some 100
  /\ last_activity alice (tables d1) = Some 200
  /\ last_activity alice (tables d2) = Some 100
  /\ 100 < 200.
Proof. vm_compute. repeat split; reflexivity. Qed.

End LastActivity.

(** ** C10: the media-path allow-list is a string-prefix test *)

Section MediaPath.
Import Whatsapp.

(** [path] is the directory [root] or lies below it. *)
Definition inside (root path : string) : bool :=
  String.eqb path root || Strings.HasPrefix path (root ++ "/").

Lemma allowed_dirs_absolute E :
  map (Filepath.Abs E) allowedMediaDirs
  = [Some "/app/media"; Some "/app/store"; Some "/tmp"].
Proof. reflexivity. Qed.

(** With the check enabled, a path without ".." passes exactly when its
    absolute form has one of the roots as a string prefix. *)
Lemma validateMediaPath_is_prefix_test E mediaPath absPath :
  Getenv E "DISABLE_PATH_CHECK" <> "true" ->
  mediaPath <> "" ->
  Strings.Contains mediaPath ".." = false ->
  Filepath.Abs E (Filepath.Clean mediaPath) = Some absPath ->
  (validateMediaPath E mediaPath = None
   <-> exists root, In root allowedMediaDirs /\ Strings.HasPrefix absPath root = true).
Proof.
  intros Henv Hne Hdots Habs. unfold validateMediaPath.
  apply String.eqb_neq in Henv, Hne. rewrite Hne, Habs, Hdots, Henv.
  unfold allowedMediaDirs. simpl existsb.
  change (Filepath.Clean "/app/media") with "/app/media".
  change (Filepath.Clean "/app/store") with "/app/store".
  change (Filepath.Clean "/tmp") with "/tmp".
  destruct (Strings.HasPrefix absPath "/app/media") eqn:H1.
  { split; [intros _; exists "/app/media"; simpl; auto | reflexivity]. }
  destruct (Strings.HasPrefix absPath "/app/store") eqn:H2.
  { split; [intros _; exists "/app/store"; simpl; auto | reflexivity]. }
  destruct (Strings.HasPrefix absPath "/tmp") eqn:H3.
  { split; [intros _; exists "/tmp"; simpl; auto | reflexivity]. }
  simpl. split; [discriminate |].
  intros (root & [<- | [<- | [<- | []]]] & H); congruence.
Qed.

(** C10.  With the path check enabled there is a path that contains no
    "..", whose absolute form is the path itself and lies inside none of
    the allow-listed roots, and that [validateMediaPath] accepts:
    /tmpfoo/x, which merely begins with the string "/tmp". *)
Theorem C10_prefix_test_accepts_path_outside_roots E :
  Getenv E "DISABLE_PATH_CHECK" <> "true" ->
  exists mediaPath,
    mediaPath = "/tmpfoo/x"
    /\ Strings.Contains mediaPath ".." = false
    /\ Filepath.Abs E (Filepath.Clean mediaPath) = Some mediaPath
    /\ (forall root, In root allowedMediaDirs -> inside root mediaPath = false)
    /\ Strings.HasPrefix mediaPath "/tmp" = true
    /\ validateMediaPath E mediaPath = None.
Proof.
  intro Henv. exists "/tmpfoo/x".
  split; [reflexivity |]. split; [reflexivity |]. split; [reflexivity |].
  split; [| split; [reflexivity |]].
  - intros root [<- | [<- | [<- | []]]]; reflexivity.
  - apply (validateMediaPath_is_prefix_test E "/tmpfoo/x" "/tmpfoo/x" Henv);
      [discriminate | reflexivity | reflexivity |].
    exists "/tmp". split; [simpl; auto | reflexivity].
Qed.

Lemma C10_witness_tmpfoo :
  Getenv Sample.env "DISABLE_PATH_CHECK" <> "true"
  /\ validateMediaPath Sample.env "/tmpfoo/x" = None.
Proof.
  assert (H : Getenv Sample.env "DISABLE_PATH_CHECK" <> "true") by discriminate.
  split; [exact H |].
  destruct (C10_prefix_test_accepts_path_outside_roots Sample.env H)
    as (p & -> & _ & _ & _ & _ & Hok).
  exact Hok.
Defined.

(** The cases of the package's own test table. *)
Example validateMediaPath_test_table :
  map (validateMediaPath Sample.env)
      [""; "/app/media/file.jpg"; "/app/store/data.db"; "/tmp/upload.png"]
  = [None; None; None; None]
  /\ map (validateMediaPath Sample.env)
         ["/app/media/../etc/passwd"; "/app/../../../etc/passwd"]
     = [Some (Errorf "path traversal not allowed");
        Some (Errorf "path traversal not allowed")]
  /\ map (validateMediaPath Sample.env)
         ["/etc/passwd"; "/home/user/file.txt"; "/var/log/syslog"]
     = [Some (Errorf "media path outside allowed directories");
        Some (Errorf "media path outside allowed directories");
        Some (Errorf "media path outside allowed directories")].
Proof. vm_compute. repeat split. Qed.

End MediaPath.

(** * Further properties of the bridge *)

(** ** ORDER BY ... DESC *)

Section Ordering.
Import Database.

Lemma insert_desc_perm {A} (key : A -> Z) x l :
  Permutation (x :: l) (insert_desc key x l).
Proof.
  induction l as [|y ys IH]; simpl.
  - apply Permutation_refl.
  - destruct (key y <=? key x).
    + apply Permutation_refl.
    + eapply perm_trans; [apply perm_swap | apply perm_skip, IH].
Qed.

Lemma order_by_desc_perm {A} (key : A -> Z) l :
  Permutation l (order_by_desc key l).
Proof.
  induction l as [|x xs IH]; simpl.
  - apply perm_nil.
  - eapply perm_trans; [apply perm_skip, IH | apply insert_desc_perm].
Qed.

Definition descending {A} (key : A -> Z) (l : list A) : Prop :=
  StronglySorted (fun a b => key b <= key a) l.

Lemma insert_desc_sorted {A} (key : A -> Z) x l :
  descending key l -> descending key (insert_desc key x l).
Proof.
  induction l as [|y ys IH]; simpl; intro Hs.
  - constructor; constructor.
  - inversion Hs as [|? ? Hys Hall]; subst.
    destruct (key y <=? key x) eqn:Hle.
    + apply Z.leb_le in Hle. constructor; [exact Hs|].
      constructor; [exact Hle|].
      eapply Forall_impl; [|exact Hall]. simpl. intros; lia.
    + apply Z.leb_gt in Hle. constructor; [apply IH, Hys|].
      eapply Permutation_Forall; [apply insert_desc_perm|].
      constructor; [lia | exact Hall].
Qed.

Lemma order_by_desc_sorted {A} (key : A -> Z) l :
  descending key (order_by_desc key l).
Proof.
  induction l as [|x xs IH]; simpl.
  - constructor.
  - apply insert_desc_sorted, IH.
Qed.

Lemma In_firstn {A} n (l : list A) y : In y (firstn n l) -> In y l.
Proof.
  intro H. rewrite <- (firstn_skipn n l). apply in_or_app. left. exact H.
Qed.

Lemma descending_firstn {A} (key : A -> Z) n l :
  descending key l -> descending key (firstn n l).
Proof.
  revert n. induction l as [|x xs IH]; intros [|n] Hs; simpl; try constructor.
  - inversion Hs; subst. apply IH. assumption.
  - inversion Hs as [|? ? _ Hall]; subst.
    apply Forall_forall. intros y Hy. rewrite Forall_forall in Hall.
    apply Hall. apply (In_firstn n). exact Hy.
Qed.

End Ordering.

(** ** Reading messages back *)

Section MessageReads.
Import Database MessageStore.



Lemma firstn_length_le_Z {A} (limit : Z) (l : list A) :
  0 <= limit -> Z.of_nat (length (firstn (Z.to_nat limit) l)) <= limit.
Proof.
  intro H. rewrite length_firstn. lia.
Qed.


Definition three_messages : Conn :=
  mkConn (mkTables [mkChatRow "111@s.whatsapp.net" "Alice" 30;
                    mkChatRow "333@s.whatsapp.net" "Carol" 25]
            [mkMessageRow "A" "111@s.whatsapp.net" "111" "Alice" "one" 10 false
                          "" "" "" [] [] [] 0;
             mkMessageRow "B" "333@s.whatsapp.net" "333" "Carol" "two" 25 false
                          "" "" "" [] [] [] 0;
             mkMessageRow "C" "111@s.whatsapp.net" "222" "Bob" "three" 30 true
                          "" "" "" [] [] [] 0;
             mkMessageRow "D" "111@s.whatsapp.net" "111" "Alice" "four" 20 false
                          "image" "image_1.jpg" "" [] [] [] 0]
            [] [] [] 0 0 0)
         [] 40.


End MessageReads.

(** ** Reading chats back *)

Section ChatReads.
Import Database MessageStore.

Lemma get_set {V} (m : GoMap.t V) k v k' :
  GoMap.get (GoMap.set m k v) k'
  = if String.eqb k k' then Some v else GoMap.get m k'.
Proof.
  unfold GoMap.get, GoMap.set. simpl. destruct (String.eqb k k') eqn:E; [reflexivity|].
  f_equal. induction m as [|[k0 v0] m IH]; simpl; [reflexivity|].
  destruct (String.eqb k0 k) eqn:E0; simpl.
  - apply String.eqb_eq in E0. subst k0. rewrite E. exact IH.
  - destruct (String.eqb k0 k'); [reflexivity | exact IH].
Qed.

Lemma find_app {A} (f : A -> bool) l1 l2 :
  find f (l1 ++ l2)
  = match find f l1 with Some x => Some x | None => find f l2 end.
Proof.
  induction l1 as [|x xs IH]; simpl; [reflexivity|].
  destruct (f x); [reflexivity | exact IH].
Qed.

(** The map built from a list of rows holds, under each key, the value
    of the last row with that key. *)
Lemma get_fold_set (rows : list ChatRow) : forall m k,
  GoMap.get (fold_left (fun m r => GoMap.set m (chat_jid r) (last_message_time r))
                       rows m) k
  = match find (fun r => String.eqb (chat_jid r) k) (rev rows) with
    | Some r => Some (last_message_time r)
    | None => GoMap.get m k
    end.
Proof.
  induction rows as [|x xs IH]; intros m k; simpl; [reflexivity|].
  rewrite IH, find_app. simpl.
  destruct (find (fun r => String.eqb (chat_jid r) k) (rev xs)); [reflexivity|].
  rewrite get_set. destruct (String.eqb (chat_jid x) k); reflexivity.
Qed.

Lemma GetChats_lookup c m c' k :
  GetChats c = (inr m, c') ->
  tables c' = tables c
  /\ GoMap.get m k
     = option_map last_message_time
         (find (fun r => String.eqb (chat_jid r) k)
               (rev (order_by_desc last_message_time (chats (tables c))))).
Proof.
  unfold GetChats. intro H. split; [exact (Query_tables _ _ _ _ H)|].
  apply Query_inr in H. inversion H as [Hm]. rewrite get_fold_set.
  destruct (find _ _); reflexivity.
Qed.

(** X2.  After [StoreChat] has succeeded, the map [GetChats] returns
    holds the time just written under that chat address, and its keys
    are the stored chats, each of them. *)
Theorem StoreChat_then_GetChats jid name t c c1 m c2 :
  StoreChat jid name t c = (inr tt, c1) ->
  GetChats c1 = (inr m, c2) ->
  GoMap.get m jid = Some t
  /\ (forall k, (exists v, GoMap.get m k = Some v)
                <-> chat_exists (tables c1) k = true)
  /\ tables c2 = tables c1.
Proof.
  intros Hstore Hget.
  assert (Hchats : chats (tables c1)
                   = (filter (fun r => negb (String.eqb (chat_jid r) jid))
                             (chats (tables c))
                      ++ [mkChatRow jid name t])%list).
  { destruct (StoreChat_result jid name t c) as [[_ H]|[[e He] _]];
      rewrite Hstore in *; simpl in *; [exact H | discriminate]. }
  assert (Hin : forall r, In r (rev (order_by_desc last_message_time
                                        (chats (tables c1))))
                          <-> In r (chats (tables c1))).
  { intro r. rewrite <- in_rev. split; intro H.
    - eapply Permutation_in; [apply Permutation_sym, order_by_desc_perm | exact H].
    - eapply Permutation_in; [apply order_by_desc_perm | exact H]. }
  split; [|split].
  - rewrite (proj2 (GetChats_lookup _ _ _ jid Hget)).
    destruct (find _ _) as [r|] eqn:Hfind; simpl.
    + apply find_some in Hfind. destruct Hfind as [Hr Hkey].
      apply Hin in Hr. rewrite Hchats in Hr. apply in_app_or in Hr.
      destruct Hr as [Hr|[<-|[]]]; [|reflexivity].
      apply filter_In in Hr. destruct Hr as [_ Hr]. rewrite Hkey in Hr.
      discriminate.
    + exfalso.
      assert (Hnew : In (mkChatRow jid name t)
                        (rev (order_by_desc last_message_time
                                            (chats (tables c1))))).
      { apply Hin. rewrite Hchats. apply in_or_app. right. left. reflexivity. }
      pose proof (find_none _ _ Hfind _ Hnew) as Hnone.
      simpl in Hnone. rewrite String.eqb_refl in Hnone. discriminate.
  - intro k. rewrite (proj2 (GetChats_lookup _ _ _ k Hget)).
    unfold chat_exists. rewrite existsb_exists. split.
    + intros [v Hv]. destruct (find _ _) as [r|] eqn:Hfind; [|discriminate].
      apply find_some in Hfind. destruct Hfind as [Hr Hkey].
      exists r. split; [apply Hin, Hr | exact Hkey].
    + intros [r [Hr Hkey]].
      destruct (find _ _) as [r'|] eqn:Hfind.
      * exists (last_message_time r'). reflexivity.
      * apply Hin in Hr. rewrite (find_none _ _ Hfind r Hr) in Hkey.
        discriminate.
  - exact (proj1 (GetChats_lookup _ _ _ jid Hget)).
Qed.

Lemma StoreChat_then_GetChats_witness :
  GoMap.get
    match fst (GetChats (snd (StoreChat "111@s.whatsapp.net" "Alice" 50
                                        three_messages))) with
    | inr m => m
    | inl _ => []
    end "111@s.whatsapp.net" = Some 50.
Proof.
  apply (StoreChat_then_GetChats "111@s.whatsapp.net" "Alice" 50 three_messages
           (snd (StoreChat "111@s.whatsapp.net" "Alice" 50 three_messages))
           _
           (snd (GetChats (snd (StoreChat "111@s.whatsapp.net" "Alice" 50
                                          three_messages))))).
  - reflexivity.
  - reflexivity.
Defined.

End ChatReads.

(** ** Counting rows under INSERT OR REPLACE *)

Section Counts.
Import Database MessageStore.

Definition chats_keyed (t : Tables) : Prop := NoDup (map chat_jid (chats t)).

Lemma NoDup_map_filter {A B} (f : A -> B) (p : A -> bool) l :
  NoDup (map f l) -> NoDup (map f (filter p l)).
Proof.
  induction l as [|x xs IH]; simpl; intro H; [constructor|].
  inversion H as [|? ? Hnot Hrest]; subst.
  destruct (p x); simpl; [constructor|]; auto.
  intro Hin. apply Hnot. apply in_map_iff in Hin.
  destruct Hin as [y [Hy Hin]]. apply filter_In in Hin.
  apply in_map_iff. exists y. tauto.
Qed.

Lemma keyed_filter_length (k : string) (l : list ChatRow) :
  NoDup (map chat_jid l) ->
  (length (filter (fun r => negb (String.eqb (chat_jid r) k)) l)
   + (if existsb (fun r => String.eqb (chat_jid r) k) l then 1 else 0)
   = length l)%nat.
Proof.
  induction l as [|x xs IH]; simpl; intro H; [reflexivity|].
  inversion H as [|? ? Hnot Hrest]; subst. specialize (IH Hrest).
  destruct (String.eqb (chat_jid x) k) eqn:E; simpl.
  - apply String.eqb_eq in E.
    destruct (existsb (fun r => String.eqb (chat_jid r) k) xs) eqn:Ex; [|lia].
    exfalso. apply Hnot. apply existsb_exists in Ex. destruct Ex as [y [Hy Hk]].
    apply String.eqb_eq in Hk. apply in_map_iff. exists y. split; [congruence|exact Hy].
  - lia.
Qed.

(** X3.  The chat addresses of the [chats] table stay pairwise distinct
    under [StoreChat], and [GetChatCount] grows by one for a new
    address and not at all for a known one. *)
Theorem GetChatCount_counts_an_address_once jid name t c c1 n c2 :
  chats_keyed (tables c) ->
  StoreChat jid name t c = (inr tt, c1) ->
  GetChatCount c1 = (inr n, c2) ->
  chats_keyed (tables c1)
  /\ n = Z.of_nat (length (chats (tables c)))
         + (if chat_exists (tables c) jid then 0 else 1).
Proof.
  intros Hk Hstore Hn.
  assert (Hchats : chats (tables c1)
                   = (filter (fun r => negb (String.eqb (chat_jid r) jid))
                             (chats (tables c))
                      ++ [mkChatRow jid name t])%list).
  { destruct (StoreChat_result jid name t c) as [[_ H]|[[e He] _]];
      rewrite Hstore in *; simpl in *; [exact H | discriminate]. }
  apply Query_inr in Hn. inversion Hn as [Hlen]. clear Hn.
  unfold chats_keyed in *. rewrite Hchats. split.
  - rewrite map_app. simpl. apply NoDup_app; [| |].
    + apply NoDup_map_filter, Hk.
    + constructor; [intros []|constructor].
    + intros x Hx [<-|[]]. apply in_map_iff in Hx.
      destruct Hx as [r [Hr Hin]]. apply filter_In in Hin.
      destruct Hin as [_ Hin]. rewrite Hr, String.eqb_refl in Hin. discriminate.
  - rewrite length_app. simpl.
    pose proof (keyed_filter_length jid (chats (tables c)) Hk) as Hf.
    unfold chat_exists.
    destruct (existsb (fun r => String.eqb (chat_jid r) jid) (chats (tables c)));
      lia.
Qed.

Lemma GetChatCount_counts_an_address_once_witness :
  let c1 := snd (StoreChat "111@s.whatsapp.net" "Alice" 50 three_messages) in
  chats_keyed (tables three_messages)
  /\ chats_keyed (tables c1)
  /\ fst (GetChatCount c1) = inr 2.
Proof.
  assert (Hk : chats_keyed (tables three_messages)).
  { repeat constructor; simpl; intuition discriminate. }
  split; [exact Hk|]. split; [|reflexivity].
  apply (GetChatCount_counts_an_address_once "111@s.whatsapp.net" "Alice" 50
           three_messages
           (snd (StoreChat "111@s.whatsapp.net" "Alice" 50 three_messages))
           2
           (snd (GetChatCount
                   (snd (StoreChat "111@s.whatsapp.net" "Alice" 50
                                   three_messages))))
           Hk eq_refl eq_refl).
Defined.

End Counts.

(** ** Creating webhook configurations *)

Section WebhookCreate.
Import Types Database.
Local Open Scope dbm_scope.

(** The row that [StoreWebhookConfig] inserts for [config]. *)
Definition created_row (config : WebhookConfig) (id now : Z) : ConfigRow :=
  mkConfigRow id (Name config) (WebhookURL config) (SecretToken config)
              (Enabled config) now now.

Definition store_step (id : Z) (tr : WebhookTrigger) : DBM WebhookTrigger :=
  StoreWebhookTrigger (set_trigger_ids tr (TriggerID tr) id).

(** However the loop over the triggers ends, it has appended rows for
    the first triggers of the list, in order, and touched nothing else. *)
Lemma store_all_run id trs : forall c r c',
  mapM (store_step id) trs c = (r, c') ->
  exists rows,
    webhook_triggers (tables c') = (webhook_triggers (tables c) ++ rows)%list
    /\ same_but_triggers (tables c) (tables c')
    /\ seq_webhook_configs (tables c') = seq_webhook_configs (tables c)
    /\ now c' = now c
    /\ map trigger_content rows
       = firstn (length rows) (map trigger_content trs)
    /\ Forall (fun tr => WebhookConfigID tr = id) rows
    /\ match r with
       | inr out => out = rows /\ length rows = length trs
       | inl _ => (length rows < length trs)%nat
       end.
Proof.
  induction trs as [| tr trs IH]; intros c r c' H; simpl in H.
  - unfold ret in H. inversion H; subst. exists []. rewrite app_nil_r.
    unfold same_but_triggers. simpl. repeat split; auto.
  - unfold bind in H.
    destruct (store_step id tr c) as [[e | row] c1] eqn:Hstep.
    + inversion H; subst. clear H. exists [].
      unfold store_step, StoreWebhookTrigger, bind in Hstep.
      destruct (Exec _ c) as [[e' | rowid] c2] eqn:Hex; [|discriminate].
      inversion Hstep; subst. pose proof (Exec_inl _ _ _ _ Hex) as Ht.
      rewrite Ht, app_nil_r. unfold same_but_triggers. simpl.
      assert (Hn : now c' = now c).
      { unfold Exec, bind in Hex.
        destruct (driver c) as [[e0 | u] c3] eqn:Hd.
        - inversion Hex; subst. exact (proj2 (driver_tables _ _ _ Hd)).
        - pose proof (driver_tables _ _ _ Hd) as [_ Hn3].
          destruct (insert_trigger _ (now c3) (tables c3)) as [e0 | [a t']];
            inversion Hex; subst; exact Hn3. }
      repeat split; auto. lia.
    + unfold store_step, StoreWebhookTrigger in Hstep.
      apply bind_inr in Hstep. destruct Hstep as (rowid & c3 & Hex & Hret).
      unfold ret in Hret. simpl in Hret. inversion Hret; subst row c3. clear Hret.
      apply Exec_inr in Hex. destruct Hex as [Hins Hn1].
      unfold insert_trigger in Hins. simpl in Hins.
      destruct (config_exists (tables c) id); [| discriminate].
      inversion Hins as [[Hid Ht]]. clear Hins.
      destruct (mapM (store_step id) trs c1) as [rr c2] eqn:Hrest.
      apply IH in Hrest.
      destruct Hrest as (rows & Htr & Hsame & Hseq & Hn & Hcont & Hall & Hr).
      unfold same_but_triggers in *.
      rewrite <- Ht in Htr, Hsame, Hseq. simpl in Htr, Hsame, Hseq.
      exists (set_trigger_ids (set_trigger_ids tr (TriggerID tr) id) rowid id
              :: rows).
      assert (Hc' : c' = c2) by (destruct rr; inversion H; reflexivity).
      subst c'.
      split. { rewrite Htr, <- app_assoc, Hid. reflexivity. }
      split. { exact Hsame. }
      split. { exact Hseq. }
      split. { congruence. }
      split. { simpl. f_equal. exact Hcont. }
      split. { constructor; [reflexivity | exact Hall]. }
      destruct rr as [e | rest]; inversion H; subst r; simpl.
      * lia.
      * destruct Hr as [-> Hr]. split; [reflexivity | lia].
Qed.

Lemma StoreWebhookConfig_run config c r c' :
  StoreWebhookConfig config c = (r, c') ->
  tables c' = tables c /\ (exists e, r = inl e)
  \/ exists rows,
       let id := seq_webhook_configs (tables c) + 1 in
       webhook_configs (tables c')
       = (webhook_configs (tables c) ++ [created_row config id (now c)])%list
       /\ seq_webhook_configs (tables c') = id
       /\ webhook_triggers (tables c')
          = (webhook_triggers (tables c) ++ rows)%list
       /\ chats (tables c') = chats (tables c)
       /\ messages (tables c') = messages (tables c)
       /\ webhook_logs (tables c') = webhook_logs (tables c)
       /\ map trigger_content rows
          = firstn (length rows) (map trigger_content (Triggers config))
       /\ Forall (fun tr => WebhookConfigID tr = id) rows
       /\ match r with
          | inr config' =>
              config' = set_config_id_triggers config id rows
              /\ length rows = length (Triggers config)
          | inl _ => (length rows < length (Triggers config))%nat
          end.
Proof.
  unfold StoreWebhookConfig. intro H. unfold bind at 1 in H.
  destruct (Exec _ c) as [[e | id] c1] eqn:Hex.
  - left. inversion H; subst. split; [exact (Exec_inl _ _ _ _ Hex) | eauto].
  - right. apply Exec_inr in Hex. destruct Hex as [Hins Hn1].
    inversion Hins as [[Hid Ht]]. clear Hins.
    unfold bind in H.
    change (fun tr => StoreWebhookTrigger (set_trigger_ids tr (TriggerID tr) id))
      with (store_step id) in H.
    destruct (mapM (store_step id) (Triggers config) c1) as [[e | trs] c2] eqn:Hall;
      inversion H; subst r c'; clear H;
      apply store_all_run in Hall;
      destruct Hall as (rows & Htr & (Hch & Hms & Hcf & Hlg) & Hseq & Hn & Hcont
                        & Hown & Hr);
      exists rows; cbv zeta; rewrite Htr, Hch, Hms, Hcf, Hlg, Hseq;
      rewrite <- Ht; simpl; rewrite Hid;
      repeat split; try assumption; try reflexivity.
    + destruct Hr as [-> _]. reflexivity.
    + destruct Hr as [_ Hr]. exact Hr.
Qed.

Definition ids_bounded (t : Tables) : Prop :=
  Forall (fun r => cfg_id r <= seq_webhook_configs t) (webhook_configs t).

Definition triggers_owned (t : Tables) : Prop :=
  Forall (fun tr => config_exists t (WebhookConfigID tr) = true)
         (webhook_triggers t).

Lemma bounded_not_exists t id :
  ids_bounded t -> seq_webhook_configs t < id -> config_exists t id = false.
Proof.
  unfold ids_bounded, config_exists. intros Hb Hlt.
  destruct (existsb _ _) eqn:E; [|reflexivity].
  apply existsb_exists in E. destruct E as [r [Hr Hk]].
  rewrite Forall_forall in Hb. specialize (Hb r Hr). lia.
Qed.

Lemma exists_bounded t id :
  ids_bounded t -> config_exists t id = true -> id <= seq_webhook_configs t.
Proof.
  intros Hb He. destruct (Z_le_gt_dec id (seq_webhook_configs t)); [assumption|].
  rewrite (bounded_not_exists t id Hb) in He; [discriminate | lia].
Qed.

(** X4.  A configuration that [StoreWebhookConfig] has stored is what
    [GetWebhookConfig] returns under the new id: name, URL, secret and
    enabled flag as given, both time stamps the time of the insert, and
    the triggers as given, in order, each with its row id and the
    configuration's id. *)
Theorem StoreWebhookConfig_then_GetWebhookConfig config c config' c1 got c2 :
  ids_bounded (tables c) ->
  triggers_owned (tables c) ->
  StoreWebhookConfig config c = (inr config', c1) ->
  GetWebhookConfig (ID config') c1 = (inr got, c2) ->
  ID got = ID config'
  /\ ID got = seq_webhook_configs (tables c) + 1
  /\ Name got = Name config
  /\ WebhookURL got = WebhookURL config
  /\ SecretToken got = SecretToken config
  /\ Enabled got = Enabled config
  /\ CreatedAt got = now c
  /\ UpdatedAt got = now c
  /\ Triggers got = Triggers config'
  /\ map trigger_content (Triggers got) = map trigger_content (Triggers config)
  /\ Forall (fun tr => WebhookConfigID tr = ID got) (Triggers got).
Proof.
  intros Hb Ho Hstore Hget.
  apply StoreWebhookConfig_run in Hstore.
  destruct Hstore as [[_ [e He]] | [rows Hrun]]; [discriminate|].
  cbv zeta in Hrun.
  destruct Hrun as (Hcf & Hseq & Htr & _ & _ & _ & Hcont & Hown & -> & Hlen).
  set (id := seq_webhook_configs (tables c) + 1) in *. simpl in Hget.
  unfold GetWebhookConfig in Hget.
  apply bind_inr in Hget. destruct Hget as (row & c3 & Hrow & Hget).
  pose proof (Query_tables _ _ _ _ Hrow) as Ht3. apply Query_inr in Hrow.
  apply bind_inr in Hget. destruct Hget as (trs & c4 & Htrs & Hget).
  unfold GetWebhookTriggers in Htrs. apply Query_inr in Htrs.
  unfold ret in Hget. inversion Hget; subst got c4. clear Hget.
  rewrite Hcf, find_app in Hrow.
  assert (Hnone : find (fun r => cfg_id r =? id) (webhook_configs (tables c)) = None).
  { destruct (find _ _) as [r|] eqn:Hf; [|reflexivity].
    apply find_some in Hf. destruct Hf as [Hr Hk].
    unfold ids_bounded in Hb. rewrite Forall_forall in Hb.
    specialize (Hb r Hr). unfold id in Hk. lia. }
  rewrite Hnone in Hrow. simpl in Hrow. rewrite Z.eqb_refl in Hrow.
  inversion Hrow; subst row. clear Hrow.
  assert (Hold : filter (fun tr => WebhookConfigID tr =? id)
                        (webhook_triggers (tables c)) = []).
  { apply filter_none. unfold triggers_owned in Ho.
    eapply Forall_impl; [|exact Ho]. simpl. intros tr Hex.
    apply Z.eqb_neq. apply (exists_bounded _ _ Hb) in Hex. unfold id. lia. }
  assert (Hnew : filter (fun tr => WebhookConfigID tr =? id) rows = rows).
  { apply filter_all. eapply Forall_impl; [|exact Hown].
    simpl. intros tr ->. apply Z.eqb_refl. }
  unfold triggers_of in Htrs. rewrite Ht3, Htr, filter_app, Hold, Hnew in Htrs.
  simpl in Htrs. inversion Htrs; subst trs. clear Htrs.
  simpl. repeat split; try reflexivity.
  - rewrite Hcont, Hlen, <- (length_map trigger_content (Triggers config)).
    apply firstn_all.
  - exact Hown.
Qed.

Lemma StoreWebhookConfig_then_GetWebhookConfig_witness :
  let c := mkConn Fixtures.one_config [] 200 in
  let stored := StoreWebhookConfig Fixtures.new_config c in
  (ids_bounded (tables c) /\ triggers_owned (tables c))
  /\ match fst stored with
     | inr config' =>
         match fst (GetWebhookConfig (ID config') (snd stored)) with
         | inr got =>
             ID got = 2 /\ Name got = "alerts"
             /\ SecretToken got = "another-secret-456"
             /\ CreatedAt got = 200
             /\ map trigger_content (Triggers got) = [("all", "", "exact", true)]
         | inl _ => False
         end
     | inl _ => False
     end.
Proof.
  assert (Hb : ids_bounded (tables (mkConn Fixtures.one_config [] 200)))
    by (repeat constructor; simpl; lia).
  assert (Ho : triggers_owned (tables (mkConn Fixtures.one_config [] 200)))
    by (repeat constructor).
  split; [split; assumption|].
  destruct (StoreWebhookConfig_then_GetWebhookConfig Fixtures.new_config
              (mkConn Fixtures.one_config [] 200) _ _ _ _ Hb Ho eq_refl eq_refl)
    as (_ & H2 & H3 & _ & H5 & _ & H7 & _ & _ & H10 & _).
  simpl. repeat split; assumption.
Defined.

(** X5.  [StoreWebhookConfig] runs without a transaction.  When it
    fails, either nothing was written, or the configuration row was
    written and stays, together with rows for a proper initial part of
    its triggers. *)
Theorem StoreWebhookConfig_failure_keeps_rows config c e c' :
  StoreWebhookConfig config c = (inl e, c') ->
  tables c' = tables c
  \/ exists rows,
       webhook_configs (tables c')
       = (webhook_configs (tables c)
          ++ [created_row config (seq_webhook_configs (tables c) + 1) (now c)])%list
       /\ webhook_triggers (tables c')
          = (webhook_triggers (tables c) ++ rows)%list
       /\ map trigger_content rows
          = firstn (length rows) (map trigger_content (Triggers config))
       /\ (length rows < length (Triggers config))%nat
       /\ chats (tables c') = chats (tables c)
       /\ messages (tables c') = messages (tables c)
       /\ webhook_logs (tables c') = webhook_logs (tables c).
Proof.
  intro H. apply StoreWebhookConfig_run in H.
  destruct H as [[Ht _] | [rows Hrun]]; [left; exact Ht | right].
  cbv zeta in Hrun.
  destruct Hrun as (Hcf & _ & Htr & Hch & Hms & Hlg & Hcont & _ & Hlen).
  exists rows. repeat split; assumption.
Qed.

Lemma StoreWebhookConfig_failure_keeps_rows_witness :
  let c := mkConn Fixtures.one_config [false; true] 200 in
  let c' := snd (StoreWebhookConfig Fixtures.new_config c) in
  fst (StoreWebhookConfig Fixtures.new_config c) = inl ErrDriver
  /\ (tables c' = tables c
      \/ exists rows,
           webhook_configs (tables c')
           = (webhook_configs (tables c)
              ++ [created_row Fixtures.new_config 2 200])%list
           /\ webhook_triggers (tables c')
              = (webhook_triggers (tables c) ++ rows)%list
           /\ map trigger_content rows
              = firstn (length rows)
                       (map trigger_content (Triggers Fixtures.new_config))
           /\ (length rows < length (Triggers Fixtures.new_config))%nat
           /\ chats (tables c') = chats (tables c)
           /\ messages (tables c') = messages (tables c)
           /\ webhook_logs (tables c') = webhook_logs (tables c)).
Proof.
  split; [reflexivity|].
  exact (StoreWebhookConfig_failure_keeps_rows Fixtures.new_config
           (mkConn Fixtures.one_config [false; true] 200) ErrDriver _ eq_refl).
Defined.

(** The run of the witness: the insert of the only trigger fails and
    the new configuration stays behind without it. *)
Example StoreWebhookConfig_orphan_run :
  let c := mkConn Fixtures.one_config [false; true] 200 in
  let c' := snd (StoreWebhookConfig Fixtures.new_config c) in
  fst (StoreWebhookConfig Fixtures.new_config c) = inl ErrDriver
  /\ map cfg_name (webhook_configs (tables c')) = ["orders"; "alerts"]
  /\ triggers_of (tables c') 2 = [].
Proof. repeat split. Qed.

(** X6.  Row ids are not handed out twice: a configuration created
    after another one was deleted gets an id above the deleted one,
    which stays unused. *)
Theorem webhook_ids_are_not_reused id config c c1 config' c2 :
  ids_bounded (tables c) ->
  DeleteWebhookConfig id c = (inr tt, c1) ->
  StoreWebhookConfig config c1 = (inr config', c2) ->
  id < ID config'
  /\ config_exists (tables c2) id = false
  /\ config_exists (tables c2) (ID config') = true
  /\ ids_bounded (tables c2).
Proof.
  intros Hb Hdel Hstore.
  apply DeleteWebhookConfig_success in Hdel. destruct Hdel as [Hex Ht1].
  pose proof (exists_bounded _ _ Hb Hex) as Hle.
  apply StoreWebhookConfig_run in Hstore.
  destruct Hstore as [[_ [e He]] | [rows Hrun]]; [discriminate|].
  cbv zeta in Hrun.
  destruct Hrun as (Hcf & Hseq & _ & _ & _ & _ & _ & _ & -> & _).
  assert (Hseq1 : seq_webhook_configs (tables c1) = seq_webhook_configs (tables c))
    by (rewrite Ht1; reflexivity).
  assert (Hcf1 : webhook_configs (tables c1)
                 = filter (fun r => negb (cfg_id r =? id))
                          (webhook_configs (tables c)))
    by (rewrite Ht1; reflexivity).
  simpl. rewrite Hseq1. split; [lia|]. split; [|split].
  - unfold config_exists. rewrite Hcf, existsb_app, Hcf1. simpl.
    rewrite (existsb_filter_negb (fun r => cfg_id r =? id)). simpl.
    rewrite orb_false_r. apply Z.eqb_neq. lia.
  - unfold config_exists. rewrite Hcf, existsb_app. simpl.
    rewrite Hseq1, Z.eqb_refl. apply orb_true_iff. right. reflexivity.
  - unfold ids_bounded in *. rewrite Hcf, Hseq, Hseq1, Hcf1.
    apply Forall_app. split.
    + rewrite Forall_forall in *. intros r Hr. apply filter_In in Hr.
      specialize (Hb r (proj1 Hr)). lia.
    + constructor; [simpl; lia | constructor].
Qed.

Lemma webhook_ids_are_not_reused_witness :
  let c := mkConn Fixtures.one_config [] 200 in
  let c1 := snd (DeleteWebhookConfig 1 c) in
  ids_bounded (tables c)
  /\ match fst (StoreWebhookConfig Fixtures.new_config c1) with
     | inr config' => 1 < ID config'
     | inl _ => False
     end.
Proof.
  assert (Hb : ids_bounded (tables (mkConn Fixtures.one_config [] 200)))
    by (repeat constructor; simpl; lia).
  split; [exact Hb|].
  exact (proj1 (webhook_ids_are_not_reused 1 Fixtures.new_config
                  (mkConn Fixtures.one_config [] 200) _ _ _ Hb eq_refl eq_refl)).
Defined.

End WebhookCreate.

(** ** Listing configurations and delivery logs *)

Section Listings.
Import Types Database.
Local Open Scope dbm_scope.

Definition load_row (r : ConfigRow) : DBM WebhookConfig :=
  trs <- GetWebhookTriggers (cfg_id r) ;; ret (config_of_row r trs).

Lemma load_rows_inr rows : forall c cfgs c',
  mapM load_row rows c = (inr cfgs, c') ->
  tables c' = tables c
  /\ cfgs = map (fun r => config_of_row r (triggers_of (tables c) (cfg_id r))) rows.
Proof.
  induction rows as [|r rows IH]; intros c cfgs c' H; simpl in H.
  - unfold ret in H. inversion H. auto.
  - apply bind_inr in H. destruct H as (cfg & c1 & Hrow & H).
    apply bind_inr in H. destruct H as (rest & c2 & Hrest & H).
    unfold ret in H. inversion H; subst cfgs c2. clear H.
    unfold load_row in Hrow.
    apply bind_inr in Hrow. destruct Hrow as (trs & c3 & Htrs & Hret).
    unfold ret in Hret. inversion Hret; subst cfg c3. clear Hret.
    unfold GetWebhookTriggers in Htrs.
    pose proof (Query_tables _ _ _ _ Htrs) as Ht1.
    apply Query_inr in Htrs. inversion Htrs; subst trs.
    apply IH in Hrest. destruct Hrest as [Ht2 ->].
    rewrite Ht1 in *. split; [exact Ht2 | reflexivity].
Qed.

(** X7.  [GetAllWebhookConfigs] is a pure read that returns every
    stored configuration once, the most recently created first, each
    with the triggers that carry its id. *)
Theorem GetAllWebhookConfigs_lists_each_once c cfgs c' :
  GetAllWebhookConfigs c = (inr cfgs, c') ->
  tables c' = tables c
  /\ (exists rows,
        Permutation rows (webhook_configs (tables c))
        /\ cfgs = map (fun r => config_of_row r (triggers_of (tables c) (cfg_id r)))
                      rows)
  /\ descending CreatedAt cfgs
  /\ Permutation (map ID cfgs) (map cfg_id (webhook_configs (tables c)))
  /\ Forall (fun cfg => Triggers cfg = triggers_of (tables c) (ID cfg)) cfgs.
Proof.
  unfold GetAllWebhookConfigs. intro H.
  apply bind_inr in H. destruct H as (rows & c1 & Hrows & H).
  pose proof (Query_tables _ _ _ _ Hrows) as Ht1.
  apply Query_inr in Hrows. inversion Hrows as [Hr]. clear Hrows.
  change (mapM load_row rows c1 = (inr cfgs, c')) in H.
  apply load_rows_inr in H. destruct H as [Ht2 Hcfgs].
  rewrite Ht1 in *. clear Ht1.
  assert (Hperm : Permutation rows (webhook_configs (tables c)))
    by (subst rows; apply Permutation_sym, order_by_desc_perm).
  assert (Hsorted : descending cfg_created_at rows)
    by (subst rows; apply order_by_desc_sorted).
  split; [exact Ht2|]. split; [exists rows; split; assumption|].
  subst cfgs. split; [|split].
  - clear Hperm Hr. induction Hsorted as [|r rs _ IH Hall]; simpl; constructor.
    + exact IH.
    + apply Forall_forall. intros m Hm. apply in_map_iff in Hm.
      destruct Hm as [r' [<- Hr']]. rewrite Forall_forall in Hall.
      apply (Hall r' Hr').
  - rewrite map_map. simpl. apply Permutation_map, Hperm.
  - apply Forall_forall. intros cfg Hcfg. apply in_map_iff in Hcfg.
    destruct Hcfg as [r [<- _]]. reflexivity.
Qed.

Definition two_configs : Conn :=
  mkConn (mkTables [] []
            [Fixtures.orders_row;
             mkConfigRow 2 "alerts" "http://public.example/alerts" "" true 150 150]
            [Fixtures.urgent; mkWebhookTrigger 2 2 "all" "" "exact" true]
            [mkWebhookLog 1 1 "M1" "111@s.whatsapp.net" "keyword" "urgent" "{}"
                          500 "busy" 1 None 160;
             mkWebhookLog 2 2 "M1" "111@s.whatsapp.net" "all" "" "{}"
                          200 "ok" 1 (Some 161) 161;
             mkWebhookLog 3 1 "M1" "111@s.whatsapp.net" "keyword" "urgent" "{}"
                          200 "ok" 2 (Some 162) 162]
            2 2 3)
         [] 200.

Lemma GetAllWebhookConfigs_lists_each_once_witness :
  match fst (GetAllWebhookConfigs two_configs) with
  | inr cfgs =>
      map ID cfgs = [2; 1]
      /\ descending CreatedAt cfgs
      /\ Permutation (map ID cfgs) [1; 2]
  | inl _ => False
  end.
Proof.
  destruct (GetAllWebhookConfigs_lists_each_once two_configs _ _ eq_refl)
    as (_ & _ & Hs & Hp & _).
  simpl. split; [reflexivity|]. split; [exact Hs | exact Hp].
Defined.

(** The rows a call of [GetWebhookLogs] selects from. *)
Definition logs_in_scope (webhookConfigID : Z) (t : Tables) : list WebhookLog :=
  if 0 <? webhookConfigID
  then filter (fun l => LogWebhookConfigID l =? webhookConfigID) (webhook_logs t)
  else webhook_logs t.

(** X8.  [GetWebhookLogs] is a pure read.  It returns delivery-log
    rows newest first: those of one configuration when the id is
    positive, those of every configuration when it is zero or negative;
    cut to the [limit] newest when [limit] is positive, and all of them
    when it is zero or negative. *)
Theorem GetWebhookLogs_newest_first webhookConfigID limit c logs c' :
  GetWebhookLogs webhookConfigID limit c = (inr logs, c') ->
  tables c' = tables c
  /\ (exists rows,
        Permutation rows (logs_in_scope webhookConfigID (tables c))
        /\ descending LogCreatedAt rows
        /\ logs = if 0 <? limit then firstn (Z.to_nat limit) rows else rows)
  /\ descending LogCreatedAt logs
  /\ (0 < limit -> Z.of_nat (length logs) <= limit)
  /\ (0 < webhookConfigID ->
      Forall (fun l => LogWebhookConfigID l = webhookConfigID) logs)
  /\ (webhookConfigID <= 0 ->
      GetWebhookLogs webhookConfigID limit c = GetWebhookLogs 0 limit c).
Proof.
  unfold GetWebhookLogs. intro H.
  split; [exact (Query_tables _ _ _ _ H)|].
  apply Query_inr in H. cbv zeta in H. inversion H as [Hlogs]. clear H.
  fold (logs_in_scope webhookConfigID (tables c)).
  set (rows := order_by_desc LogCreatedAt (logs_in_scope webhookConfigID (tables c))).
  assert (Hperm : Permutation rows (logs_in_scope webhookConfigID (tables c)))
    by apply Permutation_sym, order_by_desc_perm.
  assert (Hsorted : descending LogCreatedAt rows) by apply order_by_desc_sorted.
  split; [exists rows; repeat split; assumption|].
  split; [|split; [|split]].
  - destruct (0 <? limit); [apply descending_firstn|]; exact Hsorted.
  - intro Hl. apply Z.ltb_lt in Hl. rewrite Hl.
    apply firstn_length_le_Z. apply Z.ltb_lt in Hl. lia.
  - intro Hid. apply Forall_forall. intros l Hin.
    assert (Hin' : In l (logs_in_scope webhookConfigID (tables c))).
    { eapply Permutation_in; [exact Hperm|].
      destruct (0 <? limit); [apply (In_firstn _ _ _ Hin) | exact Hin]. }
    unfold logs_in_scope in Hin'. apply Z.ltb_lt in Hid. rewrite Hid in Hin'.
    apply filter_In in Hin'. apply Z.eqb_eq. tauto.
  - intro Hid. assert (E : (0 <? webhookConfigID) = false) by (apply Z.ltb_ge; lia).
    rewrite E. reflexivity.
Qed.

Lemma GetWebhookLogs_newest_first_witness :
  map LogID match fst (GetWebhookLogs 1 1 two_configs) with
            | inr logs => logs
            | inl _ => []
            end = [3]
  /\ descending LogCreatedAt
       match fst (GetWebhookLogs 1 1 two_configs) with
       | inr logs => logs
       | inl _ => []
       end.
Proof.
  split; [reflexivity|].
  exact (proj1 (proj2 (proj2
    (GetWebhookLogs_newest_first 1 1 two_configs _ _ eq_refl)))).
Defined.

(** The same edge seen at the API: with an id that is not positive,
    the per-webhook route answers with the log of every webhook. *)
Example logs_of_webhook_zero :
  fst (Api.handleWebhookByID Sample.env
         (Api.mkRequest "GET" "/api/webhooks/0/logs" None None)
         (Api.mkServer (Delivery.mkWorld two_configs [] []) []))
  = fst (Api.handleWebhookLogs
           (Api.mkRequest "GET" "/api/webhook-logs" None None)
           (Api.mkServer (Delivery.mkWorld two_configs [] []) [])).
Proof. reflexivity. Qed.

End Listings.

(** ** What validation lets through *)

Section Accepted.
Import Types Validation.

Definition valid_trigger (E : Env) (trigger : WebhookTrigger) : Prop :=
  In (TriggerType trigger) validTypes
  /\ In (MatchType trigger) validMatchTypes
  /\ (MatchType trigger = "regex" -> TriggerValue trigger <> "" ->
      exists re, regexp_Compile E (TriggerValue trigger) = Some re).

Lemma existsb_eqb_In (s : string) (l : list string) :
  existsb (String.eqb s) l = true <-> In s l.
Proof.
  rewrite existsb_exists. split.
  - intros [x [Hx Heq]]. apply String.eqb_eq in Heq. subst. exact Hx.
  - intro H. exists s. split; [exact H | apply String.eqb_refl].
Qed.

Lemma validate_trigger_None E trigger :
  validate_trigger E trigger = None <-> valid_trigger E trigger.
Proof.
  unfold validate_trigger, valid_trigger.
  rewrite <- !existsb_eqb_In.
  destruct (existsb (String.eqb (TriggerType trigger)) validTypes) eqn:Ht.
  - assert (Hty : String.eqb (TriggerType trigger) "" = false).
    { destruct (String.eqb_spec (TriggerType trigger) "") as [Hty|]; [|reflexivity].
      rewrite Hty in Ht. discriminate. }
    rewrite Hty. cbn [negb].
    destruct (existsb (String.eqb (MatchType trigger)) validMatchTypes) eqn:Hm;
      cbn [negb].
    + destruct (String.eqb_spec (MatchType trigger) "regex") as [Hre | Hre];
        cbn [andb].
      * destruct (String.eqb_spec (TriggerValue trigger) "") as [Hv | Hv];
          cbn [negb].
        -- split; [|reflexivity]. intros _. repeat split. intros _ Hne.
           contradiction.
        -- destruct (regexp_Compile E (TriggerValue trigger)) as [re|] eqn:Hc.
           ++ split; [|reflexivity]. intros _. repeat split. eauto.
           ++ split; [discriminate|]. intros (_ & _ & H).
              destruct (H Hre Hv) as [re Hsome]. discriminate.
      * split; [|reflexivity]. intros _. repeat split. intros Hre'.
        contradiction.
    + split; [|intros (_ & H & _); discriminate].
      destruct (String.eqb (TriggerType trigger) ""); discriminate.
  - split; [|intros (H & _); discriminate].
    destruct (String.eqb (TriggerType trigger) ""); discriminate.
Qed.

Lemma validate_triggers_None E l :
  validate_triggers E l = None <-> Forall (valid_trigger E) l.
Proof.
  induction l as [|tr l IH]; simpl.
  - split; [constructor | reflexivity].
  - destruct (validate_trigger E tr) as [e|] eqn:Hv.
    + split; [discriminate|]. intro H. inversion H as [|? ? Htr _]; subst.
      apply validate_trigger_None in Htr. congruence.
    + rewrite IH. apply validate_trigger_None in Hv. split.
      * intro H. constructor; assumption.
      * intro H. inversion H. assumption.
Qed.

(** X9.  [ValidateWebhookConfig] accepts a configuration exactly when
    its name has 1 to 255 bytes, its URL has at most 2048 bytes, starts
    with http:// or https:// and passes [ValidateWebhookURL], and every
    trigger has a known type, a known match type and, for a regex match
    with a non-empty value, a pattern that compiles. *)
Theorem ValidateWebhookConfig_accepts_exactly E config :
  ValidateWebhookConfig E config = None
  <-> (Name config <> ""
       /\ (String.length (Name config) <= 255)%nat
       /\ WebhookURL config <> ""
       /\ (String.length (WebhookURL config) <= 2048)%nat
       /\ (Strings.HasPrefix (WebhookURL config) "http://" = true
           \/ Strings.HasPrefix (WebhookURL config) "https://" = true)
       /\ ValidateWebhookURL E (WebhookURL config) = None
       /\ Forall (valid_trigger E) (Triggers config)).
Proof.
  unfold ValidateWebhookConfig.
  destruct (String.eqb_spec (Name config) "") as [Hn | Hn].
  { split; [discriminate | tauto]. }
  destruct (Nat.ltb_spec 255 (String.length (Name config))) as [Hl | Hl].
  { split; [discriminate | intros (_ & H & _); lia]. }
  destruct (String.eqb_spec (WebhookURL config) "") as [Hu | Hu].
  { split; [discriminate | tauto]. }
  destruct (Nat.ltb_spec 2048 (String.length (WebhookURL config))) as [Hul | Hul].
  { split; [discriminate | intros (_ & _ & _ & H & _); lia]. }
  destruct (Strings.HasPrefix (WebhookURL config) "http://") eqn:Hp1;
  destruct (Strings.HasPrefix (WebhookURL config) "https://") eqn:Hp2; simpl;
  try (destruct (ValidateWebhookURL E (WebhookURL config)) as [e|] eqn:Hv;
       [ split; [discriminate | intros (_ & _ & _ & _ & _ & H & _); discriminate]
       | rewrite validate_triggers_None; split; [intro H; repeat split; auto | tauto] ]).
  split; [discriminate|]. intros (_ & _ & _ & _ & [H | H] & _); discriminate.
Qed.

(** X10.  With the SSRF check on, [ValidateWebhookURL] accepts a URL
    exactly when it parses, its host is none of the blocked metadata
    hosts in any letter case, the host resolves, and not one of the
    addresses it resolves to is private or reserved.  With
    DISABLE_SSRF_CHECK=true every URL is accepted. *)
Theorem ValidateWebhookURL_accepts_exactly E webhookURL :
  ValidateWebhookURL E webhookURL = None
  <-> (Getenv E "DISABLE_SSRF_CHECK" = "true"
       \/ exists hostname ips,
            url_Hostname E webhookURL = Some hostname
            /\ Forall (fun blocked => Strings.EqualFold hostname blocked = false)
                      blockedHosts
            /\ LookupIP E hostname = Some ips
            /\ Forall (fun ip => isPrivateIP ip = false) ips).
Proof.
  unfold ValidateWebhookURL.
  destruct (String.eqb_spec (Getenv E "DISABLE_SSRF_CHECK") "true") as [Hd | Hd].
  { split; [left; exact Hd | reflexivity]. }
  assert (Hex : forall {A} (f : A -> bool) l,
             existsb f l = false <-> Forall (fun x => f x = false) l).
  { intros A f l. induction l as [|x l IH]; simpl.
    - split; [constructor | reflexivity].
    - rewrite orb_false_iff, IH. split.
      + intros [H1 H2]. constructor; assumption.
      + intro H. inversion H. auto. }
  destruct (url_Hostname E webhookURL) as [hostname|] eqn:Hh.
  - destruct (existsb (fun blocked => Strings.EqualFold hostname blocked)
                      blockedHosts) eqn:Hb.
    + split; [discriminate|]. intros [H | (h & ips & Hh' & Hbl & _)]; [contradiction|].
      inversion Hh'; subst h. apply (proj2 (Hex _ _ _)) in Hbl.
      enough (true = false) by discriminate. rewrite <- Hb. exact Hbl.
    + destruct (LookupIP E hostname) as [ips|] eqn:Hl.
      * destruct (existsb isPrivateIP ips) eqn:Hp.
        -- split; [discriminate|].
           intros [H | (h & ips' & Hh' & _ & Hl' & Hpriv)]; [contradiction|].
           inversion Hh'; subst h. rewrite Hl in Hl'. inversion Hl'; subst ips'.
           apply (proj2 (Hex _ _ _)) in Hpriv. congruence.
        -- split; [|reflexivity]. intros _. right. exists hostname, ips.
           split; [reflexivity|]. split; [apply (proj1 (Hex _ _ _)); exact Hb|].
           split; [exact Hl | apply (proj1 (Hex _ _ _)); exact Hp].
      * split; [discriminate|].
        intros [H | (h & ips & Hh' & _ & Hl' & _)]; [contradiction|].
        inversion Hh'; subst h. congruence.
  - split; [discriminate|].
    intros [H | (h & ips & Hh' & _)]; [contradiction | discriminate].
Qed.

End Accepted.

(** ** Substrings *)

Section Substrings.

Lemma prefix_spec (p s : string) :
  String.prefix p s = true <-> exists post, s = p ++ post.
Proof.
  revert s. induction p as [|a p IH]; intro s; simpl.
  - split; [intros _; exists s; reflexivity | destruct s; reflexivity].
  - destruct s as [|b s]; simpl.
    + split; [discriminate | intros [post H]; discriminate].
    + destruct (Ascii.ascii_dec a b) as [-> | Hne].
      * rewrite IH. split; intros [post H]; exists post; congruence.
      * split; [discriminate | intros [post H]; congruence].
Qed.

Lemma Contains_spec (s substr : string) :
  Strings.Contains s substr = true <-> exists pre post, s = pre ++ substr ++ post.
Proof.
  induction s as [|a s IH]; simpl.
  - rewrite String.eqb_eq. split.
    + intros ->. exists "", "". reflexivity.
    + intros (pre & post & H). destruct pre; [|discriminate].
      destruct substr; [reflexivity | discriminate].
  - rewrite orb_true_iff, IH.
    change (String.prefix substr (String a s) = true \/
            (exists pre post, s = pre ++ substr ++ post)
            <-> exists pre post, String a s = pre ++ substr ++ post).
    rewrite prefix_spec. split.
    + intros [[post H] | (pre & post & H)].
      * exists "", post. exact H.
      * exists (String a pre), post. simpl. congruence.
    + intros (pre & post & H). destruct pre as [|b pre]; simpl in H.
      * left. exists post. exact H.
      * right. exists pre, post. congruence.
Qed.

End Substrings.

(** ** Trigger matching *)

Section Matching.
Import Types Events Manager.


Lemma first_match_Some E config msg content mediaType chatName :
  (exists trigger,
     first_match E config msg content mediaType chatName = Some trigger)
  <-> exists trigger,
        In trigger (Triggers config)
        /\ TriggerEnabled trigger = true
        /\ matchesTrigger E trigger msg content mediaType chatName = true.
Proof.
  unfold first_match. split.
  - intros [trigger H]. apply find_some in H. destruct H as [Hin H].
    apply andb_true_iff in H. exists trigger. tauto.
  - intros (trigger & Hin & Hen & Hm).
    destruct (find _ (Triggers config)) as [t|] eqn:Hf; [eauto|].
    pose proof (find_none _ _ Hf trigger Hin) as Hn. simpl in Hn.
    rewrite Hen, Hm in Hn. discriminate.
Qed.

(** X12.  [MatchesTriggers] returns, in their order, exactly the
    configurations of the snapshot that are enabled and have an enabled
    trigger matching the message; a disabled configuration and a
    disabled trigger never count. *)
Theorem MatchesTriggers_selects E configs msg chatName config :
  In config (MatchesTriggers E configs msg chatName)
  <-> In config configs
      /\ Enabled config = true
      /\ exists trigger,
           In trigger (Triggers config)
           /\ TriggerEnabled trigger = true
           /\ matchesTrigger E trigger msg (ExtractTextContent (Msg msg))
                (mediaType_of E (Msg msg)) chatName = true.
Proof.
  unfold MatchesTriggers. cbv zeta. rewrite filter_In, andb_true_iff.
  rewrite <- first_match_Some.
  destruct (first_match E config msg _ _ chatName) as [t|].
  - intuition eauto.
  - split; [intros (_ & _ & H); discriminate|].
    intros (_ & _ & [t H]). discriminate.
Qed.

(** X13.  [ProcessMessage] hands the delivery engine one task for each
    configuration that [MatchesTriggers] selects, in the same order and
    however many of its triggers match.  The task names the first
    enabled trigger that matches, and its payload is attempt 1 of the
    event "message_received" for that configuration and message. *)
Theorem ProcessMessage_one_task_per_config E configs msg chatName elapsed :
  let tasks := ProcessMessage E configs msg chatName elapsed in
  map TaskConfig tasks = MatchesTriggers E configs msg chatName
  /\ Forall (fun task =>
       first_match E (TaskConfig task) msg (ExtractTextContent (Msg msg))
                   (mediaType_of E (Msg msg)) chatName
       = Some (TaskTrigger task)
       /\ EventType (TaskPayload task) = "message_received"
       /\ PayloadConfigID (TaskPayload task) = ID (TaskConfig task)
       /\ PayloadTriggerValue (TaskPayload task) = TriggerValue (TaskTrigger task)
       /\ DeliveryAttempt (TaskPayload task) = 1
       /\ MsgID (PayloadMessage (TaskPayload task)) = InfoID (Info msg)
       /\ MsgContent (PayloadMessage (TaskPayload task))
          = ExtractTextContent (Msg msg)
       /\ TaskMessageID task = InfoID (Info msg)
       /\ TaskChatJID task = JID_String (Chat (Info msg))) tasks.
Proof.
  unfold ProcessMessage, MatchesTriggers, mediaType_of. cbv zeta.
  destruct (ExtractMediaInfo E (Msg msg)) as [[mediaType filename] media].
  cbn [fst]. induction configs as [|config configs [IH1 IH2]]; simpl.
  - split; [reflexivity | constructor].
  - destruct (Enabled config); cbn [andb]; [|split; assumption].
    destruct (first_match E config msg _ mediaType chatName) as [t|] eqn:Hf;
      simpl; rewrite ?Hf; simpl; [|split; assumption].
    split; [f_equal; exact IH1|].
    constructor; [|exact IH2]. simpl. repeat split. exact Hf.
Qed.

End Matching.

(** ** What is sent, and how it is signed *)

Section Signing.
Import Types Database Delivery.


(** The request the engine sends with the bytes [body]. *)
Definition post_of (E : Env) (config : WebhookConfig) (body : string) : Event :=
  Posted (WebhookURL config) body
         (if String.eqb (SecretToken config) "" then None
          else Some ("sha256=" ++ hmac_hex E (SecretToken config) body)).

Definition posted (evs : list Event) : list Event :=
  filter (fun ev => match ev with Posted _ _ _ => true | Slept _ => false end) evs.


Lemma sendHTTPRequest_events E config body w :
  sendHTTPRequest E config body w
  = ((succeeds (attempt_outcome (parses E config) (remote w)),
      status_of (attempt_outcome (parses E config) (remote w)),
      body_of (attempt_outcome (parses E config) (remote w))),
     mkWorld (conn w) (rest_of (parses E config) (remote w))
             (events w ++ if parses E config then [post_of E config body] else [])).
Proof.
  unfold sendHTTPRequest, parses, post_of, generateHMACSignature.
  destruct (url_Hostname E (WebhookURL config)).
  - destruct (String.eqb (SecretToken config) "");
      destruct (remote w) as [| [msg | status body'] rest]; reflexivity.
  - rewrite app_nil_r. destruct w. reflexivity.
Qed.



(** The run of the specification's retry scenario: four requests, the
    attempt number in each body, every one signed. *)
Example signed_posts_run :
  posted (events (Runs.deliver Runs.retry_then_succeed))
  = [Posted "http://public.example/hook" "{delivery_attempt:1}" (Some "sha256=00");
     Posted "http://public.example/hook" "{delivery_attempt:2}" (Some "sha256=00");
     Posted "http://public.example/hook" "{delivery_attempt:3}" (Some "sha256=00");
     Posted "http://public.example/hook" "{delivery_attempt:4}" (Some "sha256=00")].
Proof. reflexivity. Qed.

Lemma store_log_orphan log w :
  config_exists (tables (conn w)) (LogWebhookConfigID log) = false ->
  tables (conn (store_log log w)) = tables (conn w).
Proof.
  intro Hmiss. unfold store_log. simpl.
  destruct (StoreWebhookLog log (conn w)) as [[e | u] c'] eqn:H; simpl.
  - unfold StoreWebhookLog in H. exact (Exec_inl _ _ _ _ H).
  - unfold StoreWebhookLog in H. apply Exec_inr in H. destruct H as [H _].
    rewrite Hmiss in H. discriminate.
Qed.

Lemma attempts_orphan E config mid chat trigger :
  forall k payload a w,
  config_exists (tables (conn w)) (ID config) = false ->
  tables (conn (attempts E config payload mid chat trigger k a w))
  = tables (conn w).
Proof.
  intro k. induction k as [| k IH]; intros payload a w Hmiss; [reflexivity|].
  rewrite attempts_S. cbv zeta. rewrite sendHTTPRequest_events. cbv beta iota.
  match goal with |- context [store_log ?l ?w1] =>
    set (log := l); set (w' := w1) end.
  assert (Ht : tables (conn (store_log log w')) = tables (conn w))
    by (apply (store_log_orphan log w'); exact Hmiss).
  destruct (succeeds _); [exact Ht|].
  match goal with |- context [attempts _ _ _ _ _ _ _ _ ?x] => set (w3 := x) end.
  assert (Ht3 : tables (conn w3) = tables (conn w))
    by (unfold w3; destruct (a <? maxRetries); exact Ht).
  rewrite IH; [exact Ht3 | rewrite Ht3; exact Hmiss].
Qed.

(** X15.  A delivery for a configuration that is no longer in the
    store (deleted while its deliveries were still running) leaves no
    trace there: the attempts are made, and every log insert is refused
    by the foreign key. *)
Theorem DeliverWebhook_for_missing_config_logs_nothing E config payload messageID
    chatJID trigger w :
  config_exists (tables (conn w)) (ID config) = false ->
  tables (conn (DeliverWebhook E config payload messageID chatJID trigger w))
  = tables (conn w).
Proof.
  intro Hmiss. unfold DeliverWebhook.
  destruct (json_Marshal E payload); [|reflexivity].
  apply attempts_orphan. exact Hmiss.
Qed.

Definition deleted_meanwhile : World :=
  mkWorld (mkConn empty_tables [] 200)
          [Response 500 ["busy"]; Response 200 ["ok"]] [].

Lemma DeliverWebhook_for_missing_config_logs_nothing_witness :
  config_exists (tables (conn deleted_meanwhile)) (ID Runs.orders) = false
  /\ tables (conn (Runs.deliver deleted_meanwhile)) = empty_tables
  /\ length (posted (events (Runs.deliver deleted_meanwhile))) = 2%nat.
Proof.
  split; [reflexivity|]. split; [|reflexivity].
  exact (DeliverWebhook_for_missing_config_logs_nothing Sample.env Runs.orders
           Runs.payload "M1" "111@s.whatsapp.net" Fixtures.urgent
           deleted_meanwhile eq_refl).
Defined.


End Signing.

(** ** The manager's snapshot and the store *)

Section Snapshot.
Import Types Database Delivery Api.
Local Open Scope dbm_scope.

(** A computation that does not bring back driver failures once the
    script of failures is used up. *)
Definition keeps_quiet {A} (m : DBM A) : Prop :=
  forall c, faults c = [] -> faults (snd (m c)) = [].

Lemma quiet_ret {A} (a : A) : keeps_quiet (ret a).
Proof. intros c H. exact H. Qed.

Lemma quiet_fail {A} e : keeps_quiet (@fail A e).
Proof. intros c H. exact H. Qed.

Lemma quiet_bind {A B} (m : DBM A) (k : A -> DBM B) :
  keeps_quiet m -> (forall a, keeps_quiet (k a)) -> keeps_quiet (bind m k).
Proof.
  intros Hm Hk c H. unfold bind. specialize (Hm c H).
  destruct (m c) as [[e | a] c1]; [exact Hm | apply Hk; exact Hm].
Qed.

Lemma quiet_wrap {A} ctx (m : DBM A) : keeps_quiet m -> keeps_quiet (wrap ctx m).
Proof.
  intros Hm c H. unfold wrap. specialize (Hm c H).
  destruct (m c) as [[e | a] c1]; exact Hm.
Qed.

Lemma quiet_driver : keeps_quiet driver.
Proof. intros c H. unfold driver. rewrite H. exact H. Qed.

Lemma quiet_Exec {A} (stmt : Z -> Tables -> error + (A * Tables)) :
  keeps_quiet (Exec stmt).
Proof.
  intros c H. rewrite (Exec_quiet stmt c H).
  destruct (stmt (now c) (tables c)) as [e | [a t']]; [exact H | reflexivity].
Qed.

Lemma Query_quiet {A} (q : Tables -> error + A) c :
  faults c = [] ->
  Query q c = (match q (tables c) with inl e => inl e | inr a => inr a end, c).
Proof.
  intro H. unfold Query, bind, driver. rewrite H.
  destruct (q (tables c)); reflexivity.
Qed.

Lemma quiet_Query {A} (q : Tables -> error + A) : keeps_quiet (Query q).
Proof. intros c H. rewrite (Query_quiet q c H). exact H. Qed.

Lemma quiet_mapM {A B} (f : A -> DBM B) l :
  (forall x, keeps_quiet (f x)) -> keeps_quiet (mapM f l).
Proof.
  intro Hf. induction l as [|x xs IH]; simpl.
  - apply quiet_ret.
  - apply quiet_bind; [apply Hf|]. intro y.
    apply quiet_bind; [exact IH|]. intro ys. apply quiet_ret.
Qed.

Lemma quiet_Transaction {A} (body : DBM A) :
  keeps_quiet body -> keeps_quiet (Transaction body).
Proof.
  intros Hb c H. unfold Transaction, wrap, driver. rewrite H.
  specialize (Hb c H). destruct (body c) as [[e | a] c2]; simpl in *.
  - exact Hb.
  - rewrite Hb. exact Hb.
Qed.

Lemma quiet_StoreWebhookConfig config : keeps_quiet (StoreWebhookConfig config).
Proof.
  unfold StoreWebhookConfig. apply quiet_bind; [apply quiet_Exec|]. intro id.
  apply quiet_bind; [|intro; apply quiet_ret].
  apply quiet_mapM. intro tr. unfold StoreWebhookTrigger.
  apply quiet_bind; [apply quiet_Exec | intro; apply quiet_ret].
Qed.

Lemma quiet_UpdateWebhookConfig config : keeps_quiet (UpdateWebhookConfig config).
Proof.
  unfold UpdateWebhookConfig. apply quiet_Transaction.
  apply quiet_bind; [apply quiet_wrap, quiet_Exec|]. intro n.
  destruct (n =? 0); [apply quiet_fail|].
  apply quiet_bind; [apply quiet_wrap, quiet_Exec|]. intros _.
  apply quiet_bind; [|intro; apply quiet_ret].
  apply quiet_mapM. intro tr.
  apply quiet_bind; [apply quiet_wrap, quiet_Exec | intro; apply quiet_ret].
Qed.

Lemma quiet_DeleteWebhookConfig id : keeps_quiet (DeleteWebhookConfig id).
Proof.
  unfold DeleteWebhookConfig. apply quiet_bind; [apply quiet_Query|]. intro n.
  destruct (n =? 0); [apply quiet_fail|].
  apply quiet_bind; [apply quiet_Exec|]. intros _.
  apply quiet_bind; [apply quiet_Exec|]. intros _. apply quiet_Exec.
Qed.

Lemma quiet_GetWebhookConfig id : keeps_quiet (GetWebhookConfig id).
Proof.
  unfold GetWebhookConfig. apply quiet_bind; [apply quiet_Query|]. intro row.
  apply quiet_bind; [apply quiet_Query | intro; apply quiet_ret].
Qed.

(** What the manager holds after a successful load. *)
Definition all_configs (t : Tables) : list WebhookConfig :=
  map (fun r => config_of_row r (triggers_of t (cfg_id r)))
      (order_by_desc cfg_created_at (webhook_configs t)).

Lemma load_rows_quiet rows : forall c,
  faults c = [] ->
  mapM load_row rows c
  = (inr (map (fun r => config_of_row r (triggers_of (tables c) (cfg_id r))) rows), c).
Proof.
  induction rows as [|r rows IH]; intros c H; simpl; [reflexivity|].
  unfold bind at 1. unfold load_row at 1, GetWebhookTriggers, bind at 1.
  rewrite (Query_quiet _ c H). unfold ret at 1. unfold bind.
  rewrite (IH c H). reflexivity.
Qed.

Lemma GetAllWebhookConfigs_quiet c :
  faults c = [] -> GetAllWebhookConfigs c = (inr (all_configs (tables c)), c).
Proof.
  intro H. unfold GetAllWebhookConfigs, bind. rewrite (Query_quiet _ c H).
  change (mapM load_row (order_by_desc cfg_created_at (webhook_configs (tables c))) c
          = (inr (all_configs (tables c)), c)).
  apply load_rows_quiet. exact H.
Qed.

(** The snapshot is what the store holds, and the driver answers. *)
Definition in_sync (s : Server) : Prop :=
  faults (conn (world s)) = []
  /\ configs s = all_configs (tables (conn (world s))).

Lemma reload_in_sync s c :
  faults c = [] -> in_sync (LoadWebhookConfigs (with_conn s c)).
Proof.
  intro H. unfold LoadWebhookConfigs. simpl.
  rewrite (GetAllWebhookConfigs_quiet c H). split; [exact H | reflexivity].
Qed.

Lemma unchanged_in_sync s c :
  in_sync s -> faults c = [] -> tables c = tables (conn (world s)) ->
  in_sync (with_conn s c).
Proof.
  intros [_ Hs] Hf Ht. split; [exact Hf|]. simpl. rewrite Ht. exact Hs.
Qed.

Lemma StoreWebhookConfig_quiet config c :
  faults c = [] -> exists config' c', StoreWebhookConfig config c = (inr config', c').
Proof.
  intro H. unfold StoreWebhookConfig, bind at 1. rewrite (Exec_quiet _ c H).
  set (id := seq_webhook_configs (tables c) + 1).
  match goal with |- context [mkConn ?t [] (now c)] => set (c1 := mkConn t [] (now c)) end.
  assert (Hex : config_exists (tables c1) id = true).
  { unfold c1, config_exists. simpl. rewrite existsb_app. simpl.
    rewrite Z.eqb_refl. apply orb_true_iff. right. reflexivity. }
  assert (Hq : faults c1 = []) by reflexivity.
  clearbody c1.
  assert (Hall : forall trs c2, faults c2 = [] -> config_exists (tables c2) id = true ->
             exists rows c3,
               mapM (fun tr => StoreWebhookTrigger (set_trigger_ids tr (TriggerID tr) id))
                    trs c2 = (inr rows, c3)).
  { induction trs as [|tr trs IH]; intros c2 Hf Hc; simpl.
    - eexists; eexists; reflexivity.
    - unfold bind at 1. unfold StoreWebhookTrigger at 1, bind at 1.
      rewrite (Exec_quiet _ c2 Hf). unfold insert_trigger at 1. simpl.
      rewrite Hc. unfold ret at 1.
      match goal with |- context [mkConn ?t [] (now c2)] =>
        set (c3 := mkConn t [] (now c2)) end.
      destruct (IH c3) as (rows & c4 & Hrows).
      + reflexivity.
      + unfold c3, config_exists. simpl. exact Hc.
      + unfold bind. rewrite Hrows. eexists; eexists; reflexivity. }
  destruct (Hall (Triggers config) c1 Hq Hex) as (rows & c3 & Hrows).
  unfold bind. rewrite Hrows. eexists; eexists; reflexivity.
Qed.

Lemma GetWebhookConfig_quiet_conn id c :
  faults c = [] -> snd (GetWebhookConfig id c) = c.
Proof.
  intro H. unfold GetWebhookConfig, bind at 1. rewrite (Query_quiet _ c H).
  destruct (find _ _); [|reflexivity].
  unfold bind, GetWebhookTriggers. rewrite (Query_quiet _ c H). reflexivity.
Qed.

Lemma GetWebhookLogs_quiet_conn id limit c :
  faults c = [] -> snd (GetWebhookLogs id limit c) = c.
Proof.
  intro H. unfold GetWebhookLogs. rewrite (Query_quiet _ c H). reflexivity.
Qed.

Lemma TestWebhook_conn E config w : conn (snd (TestWebhook E config w)) = conn w.
Proof.
  unfold TestWebhook. destruct (json_Marshal E _); [|reflexivity].
  unfold sendHTTPRequest. destruct (url_Hostname E _); [|reflexivity].
  destruct (remote w) as [| [msg | status body] rest]; reflexivity.
Qed.

Lemma with_conn_same s : with_conn s (conn (world s)) = s.
Proof. destruct s as [[c rm ev] cfgs]. reflexivity. Qed.

Lemma in_sync_handleWebhooks E r s :
  in_sync s -> in_sync (snd (handleWebhooks E r s)).
Proof.
  intros Hs. pose proof Hs as [Hq _]. unfold handleWebhooks.
  destruct (String.eqb (Method r) "GET"); [exact Hs|].
  destruct (String.eqb (Method r) "POST"); [|exact Hs].
  destruct (BodyConfig r) as [config|]; [|exact Hs].
  destruct (Validation.ValidateWebhookConfig E config); [exact Hs|].
  destruct (StoreWebhookConfig_quiet config _ Hq) as (config' & c' & Hstore).
  pose proof (quiet_StoreWebhookConfig config _ Hq) as Hq'.
  rewrite Hstore in *. simpl in *. apply reload_in_sync. exact Hq'.
Qed.

Lemma in_sync_update s config c :
  in_sync s -> faults c = [] -> tables c = tables (conn (world s)) ->
  forall (resp_ok : WebhookConfig -> HTTPResponse) (resp_err : HTTPResponse),
  in_sync (snd (match UpdateWebhookConfig config c with
                | (inl _, c') => (resp_err, with_conn s c')
                | (inr config', c') =>
                    (resp_ok config', LoadWebhookConfigs (with_conn s c'))
                end)).
Proof.
  intros Hs Hq Ht resp_ok resp_err.
  pose proof (quiet_UpdateWebhookConfig config c Hq) as Hq'.
  destruct (UpdateWebhookConfig config c) as [[e | config'] c'] eqn:Hupd;
    simpl in *.
  - apply unchanged_in_sync; [exact Hs | exact Hq' |].
    unfold UpdateWebhookConfig in Hupd. apply Transaction_inl in Hupd.
    congruence.
  - apply reload_in_sync. exact Hq'.
Qed.

Lemma in_sync_item E r id s : in_sync s -> in_sync (snd (webhook_item E r id s)).
Proof.
  intros Hs. pose proof Hs as [Hq _]. unfold webhook_item.
  destruct (String.eqb (Method r) "GET").
  { pose proof (GetWebhookConfig_quiet_conn id _ Hq) as Hc.
    destruct (GetWebhookConfig id (conn (world s))) as [[e | config] c];
      simpl in *; subst c; rewrite with_conn_same; exact Hs. }
  destruct (String.eqb (Method r) "PUT").
  { destruct (BodyConfig r) as [config|]; [|exact Hs].
    destruct (Validation.ValidateWebhookConfig E _); [exact Hs|].
    apply (in_sync_update s _ _ Hs Hq eq_refl
             (fun config' => ok (ResponseData (ToResponse config')) "")). }
  destruct (String.eqb (Method r) "DELETE"); [|exact Hs].
  pose proof (quiet_DeleteWebhookConfig id _ Hq) as Hq'.
  destruct (DeleteWebhookConfig id (conn (world s))) as [[e | u] c] eqn:Hdel;
    simpl in *.
  - apply unchanged_in_sync; [exact Hs | exact Hq' |].
    destruct (config_exists (tables (conn (world s))) id) eqn:Hex.
    + destruct (DeleteWebhookConfig_quiet id _ Hex Hq) as [c' Hok].
      rewrite Hok in Hdel. discriminate.
    + destruct (DeleteWebhookConfig_missing id _ Hex) as [(e' & c' & Hf & Ht) _].
      rewrite Hf in Hdel. inversion Hdel; subst. exact Ht.
  - apply reload_in_sync. exact Hq'.
Qed.

Lemma in_sync_test E r id s : in_sync s -> in_sync (snd (webhook_test E r id s)).
Proof.
  intros Hs. pose proof Hs as [Hq Hcf]. unfold webhook_test.
  destruct (negb (String.eqb (Method r) "POST")); [exact Hs|].
  pose proof (GetWebhookConfig_quiet_conn id _ Hq) as Hc.
  destruct (GetWebhookConfig id (conn (world s))) as [[e | config] c];
    simpl in Hc; subst c; rewrite with_conn_same; [exact Hs|].
  pose proof (TestWebhook_conn E config (world s)) as Hw.
  destruct (TestWebhook E config (world s)) as [[e|] w]; simpl in *;
    (split; simpl; [rewrite Hw; exact Hq | rewrite Hw; exact Hcf]).
Qed.

Lemma in_sync_logs r id s : in_sync s -> in_sync (snd (webhook_logs_of r id s)).
Proof.
  intros Hs. pose proof Hs as [Hq _]. unfold webhook_logs_of.
  destruct (negb (String.eqb (Method r) "GET")); [exact Hs|].
  pose proof (GetWebhookLogs_quiet_conn id 100 _ Hq) as Hc.
  destruct (GetWebhookLogs id 100 (conn (world s))) as [[e | logs] c];
    simpl in *; subst c; rewrite with_conn_same; exact Hs.
Qed.

Lemma in_sync_enable r id s : in_sync s -> in_sync (snd (webhook_enable r id s)).
Proof.
  intros Hs. pose proof Hs as [Hq _]. unfold webhook_enable.
  destruct (negb (String.eqb (Method r) "POST")); [exact Hs|].
  destruct (BodyEnabled r) as [enabled|]; [|exact Hs].
  pose proof (GetWebhookConfig_quiet_conn id _ Hq) as Hc.
  destruct (GetWebhookConfig id (conn (world s))) as [[e | config] c];
    simpl in Hc; subst c; [rewrite with_conn_same; exact Hs|].
  apply (in_sync_update s _ _ Hs Hq eq_refl
           (fun config' =>
              ok (ConfigData config')
                 (if enabled then "Webhook enabled successfully"
                  else "Webhook disabled successfully"))).
Qed.

(** X17.  While the driver answers, the manager's snapshot of the
    configurations is what the store holds, before and after every
    request to the webhook routes: each change that succeeds is
    followed by a reload, and each request that fails leaves the store
    as it was. *)
Theorem snapshot_stays_in_sync E r s :
  in_sync s ->
  in_sync (snd (handleWebhooks E r s))
  /\ in_sync (snd (handleWebhookByID E r s))
  /\ in_sync (snd (handleWebhookLogs r s)).
Proof.
  intro Hs. split; [apply in_sync_handleWebhooks; exact Hs|]. split.
  - unfold handleWebhookByID.
    destruct (Strings.split_at "/" _) as [|idStr rest]; [exact Hs|].
    destruct (String.eqb idStr ""); [exact Hs|].
    destruct (Sscanf_d idStr) as [id|]; [|exact Hs].
    destruct rest as [|sub [|more rest]]; [apply in_sync_item; exact Hs| |exact Hs].
    destruct (String.eqb sub "test"); [apply in_sync_test; exact Hs|].
    destruct (String.eqb sub "logs"); [apply in_sync_logs; exact Hs|].
    destruct (String.eqb sub "enable"); [apply in_sync_enable; exact Hs|].
    exact Hs.
  - pose proof Hs as [Hq _]. unfold handleWebhookLogs.
    destruct (negb (String.eqb (Method r) "GET")); [exact Hs|].
    pose proof (GetWebhookLogs_quiet_conn 0 100 _ Hq) as Hc.
    destruct (GetWebhookLogs 0 100 (conn (world s))) as [[e | logs] c];
      simpl in *; subst c; rewrite with_conn_same; exact Hs.
Qed.

Lemma snapshot_stays_in_sync_witness :
  in_sync Fixtures.server
  /\ in_sync (snd (handleWebhooks Sample.env Fixtures.post_create Fixtures.server))
  /\ map ID (configs (snd (handleWebhooks Sample.env Fixtures.post_create
                                           Fixtures.server))) = [2; 1].
Proof.
  assert (Hs : in_sync Fixtures.server) by (split; reflexivity).
  split; [exact Hs|]. split; [|reflexivity].
  exact (proj1 (snapshot_stays_in_sync Sample.env Fixtures.post_create
                  Fixtures.server Hs)).
Defined.

End Snapshot.

(** ** Requests that only read *)

Section ReadOnly.
Import Types Database Delivery Api.

Lemma GetWebhookConfig_tables id c :
  tables (snd (GetWebhookConfig id c)) = tables c.
Proof.
  unfold GetWebhookConfig, bind.
  match goal with |- context [Query ?q c] =>
    destruct (Query q c) as [[e | row] c1] eqn:H1 end;
    pose proof (Query_tables _ _ _ _ H1) as Ht1; [exact Ht1|].
  unfold GetWebhookTriggers.
  match goal with |- context [Query ?q c1] =>
    destruct (Query q c1) as [[e | trs] c2] eqn:H2 end;
    pose proof (Query_tables _ _ _ _ H2) as Ht2; simpl; congruence.
Qed.

Lemma GetWebhookLogs_tables id limit c :
  tables (snd (GetWebhookLogs id limit c)) = tables c.
Proof.
  unfold GetWebhookLogs.
  match goal with |- context [Query ?q c] =>
    destruct (Query q c) as [r c1] eqn:H end.
  exact (Query_tables _ _ _ _ H).
Qed.

(** What a request may change: the tables, the snapshot, and what was
    sent to webhook targets. *)
Definition footprint (s : Server) : Tables * list WebhookConfig * list Event :=
  (tables (conn (world s)), configs s, events (world s)).

Lemma footprint_with_conn s c :
  tables c = tables (conn (world s)) -> footprint (with_conn s c) = footprint s.
Proof. intro H. unfold footprint. simpl. rewrite H. reflexivity. Qed.

(** X18.  A GET on any of the webhook routes changes neither the
    store nor the manager's snapshot and sends nothing, whether the
    driver fails or not. *)
Theorem GET_changes_nothing E r s :
  Method r = "GET" ->
  footprint (snd (handleWebhooks E r s)) = footprint s
  /\ footprint (snd (handleWebhookByID E r s)) = footprint s
  /\ footprint (snd (handleWebhookLogs r s)) = footprint s.
Proof.
  intro Hm. split; [|split].
  - unfold handleWebhooks. rewrite Hm. reflexivity.
  - unfold handleWebhookByID.
    destruct (Strings.split_at "/" _) as [|idStr rest]; [reflexivity|].
    destruct (String.eqb idStr ""); [reflexivity|].
    destruct (Sscanf_d idStr) as [id|]; [|reflexivity].
    destruct rest as [|sub [|more rest]]; [| |reflexivity].
    + unfold webhook_item. rewrite Hm. simpl.
      pose proof (GetWebhookConfig_tables id (conn (world s))) as Ht.
      destruct (GetWebhookConfig id (conn (world s))) as [[e | config] c];
        simpl in *; apply footprint_with_conn; exact Ht.
    + destruct (String.eqb sub "test").
      { unfold webhook_test. rewrite Hm. reflexivity. }
      destruct (String.eqb sub "logs").
      { unfold webhook_logs_of. rewrite Hm. simpl.
        pose proof (GetWebhookLogs_tables id 100 (conn (world s))) as Ht.
        destruct (GetWebhookLogs id 100 (conn (world s))) as [[e | logs] c];
          simpl in *; apply footprint_with_conn; exact Ht. }
      destruct (String.eqb sub "enable"); [|reflexivity].
      unfold webhook_enable. rewrite Hm. reflexivity.
  - unfold handleWebhookLogs. rewrite Hm. simpl.
    pose proof (GetWebhookLogs_tables 0 100 (conn (world s))) as Ht.
    destruct (GetWebhookLogs 0 100 (conn (world s))) as [[e | logs] c];
      simpl in *; apply footprint_with_conn; exact Ht.
Qed.

Lemma GET_changes_nothing_witness :
  footprint (snd (handleWebhookByID Sample.env
                    (mkRequest "GET" "/api/webhooks/1" None None)
                    Fixtures.server))
  = footprint Fixtures.server.
Proof.
  exact (proj1 (proj2 (GET_changes_nothing Sample.env
                         (mkRequest "GET" "/api/webhooks/1" None None)
                         Fixtures.server eq_refl))).
Defined.

End ReadOnly.

(** ** The media-path guard and path traversal *)

Section Traversal.
Import Whatsapp.

(** X19.  A media path that contains ".." anywhere is refused in every
    environment, also with DISABLE_PATH_CHECK=true, and also when the
    dots are part of a file name. *)
Theorem validateMediaPath_refuses_dotdot E mediaPath :
  Strings.Contains mediaPath ".." = true ->
  exists e, validateMediaPath E mediaPath = Some e.
Proof.
  intro Hdots. unfold validateMediaPath.
  destruct (String.eqb_spec mediaPath "") as [-> | _]; [discriminate|].
  destruct (Filepath.Abs E (Filepath.Clean mediaPath)); [|eauto].
  rewrite Hdots. eauto.
Qed.

(** The development setting of the bridge's own test. *)
Definition path_check_disabled : Env :=
  mkEnv (fun name => if String.eqb name "DISABLE_PATH_CHECK" then "true" else "")
        (Some "/app") Sample.hostname Sample.resolver Regexp.Compile
        Sample.marshal (fun _ _ => "00") "20240101_120000".

Lemma validateMediaPath_refuses_dotdot_witness :
  Strings.Contains "/tmp/report..final.pdf" ".." = true
  /\ exists e,
       validateMediaPath path_check_disabled "/tmp/report..final.pdf" = Some e.
Proof.
  split; [reflexivity|].
  apply (validateMediaPath_refuses_dotdot path_check_disabled
           "/tmp/report..final.pdf").
  reflexivity.
Defined.

(** The run of the witness, beside a path the disabled check lets
    through. *)
Example dotdot_in_a_file_name :
  validateMediaPath path_check_disabled "/tmp/report..final.pdf"
  = Some (Errorf "path traversal not allowed")
  /\ validateMediaPath path_check_disabled "/etc/passwd" = None.
Proof. split; reflexivity. Qed.

End Traversal.

(** ** Live messages *)

Section Ingestion.
Import Types Events Database Whatsapp.

Definition chat_name_of (jid : string) (t : Tables) : option string :=
  option_map chat_name (find (fun r => String.eqb (chat_jid r) jid) (chats t)).

(** The row [HandleMessage] writes for a message. *)
Definition received_row (E : Env) (msg : Message) : MessageRow :=
  let sender := User (Sender (Info msg)) in
  let media := snd (ExtractMediaInfo E (Msg msg)) in
  mkMessageRow (InfoID (Info msg)) (JID_String (Chat (Info msg))) sender
    (if String.eqb (PushName (Info msg)) "" then sender else PushName (Info msg))
    (ExtractTextContent (Msg msg)) (InfoTimestamp (Info msg))
    (IsFromMe (Info msg)) (mediaType_of E (Msg msg))
    (snd (fst (ExtractMediaInfo E (Msg msg))))
    (URL media) (MediaKey media) (FileSHA256 media) (FileEncSHA256 media)
    (FileLength media).

Lemma GetChatName_quiet cl jid chatJID conversation sender db :
  faults db = [] ->
  snd (GetChatName cl jid chatJID conversation sender db) = db
  /\ forall name, chat_name_of chatJID (tables db) = Some name -> name <> "" ->
       fst (GetChatName cl jid chatJID conversation sender db) = name.
Proof.
  intro Hq. unfold GetChatName, chat_name_of. rewrite (Query_quiet _ db Hq).
  destruct (find _ (chats (tables db))) as [r|]; simpl.
  - destruct (String.eqb_spec (chat_name r) "") as [He | He]; simpl.
    + split; [reflexivity|]. intros name Hn Hne. congruence.
    + split; [reflexivity|]. intros name Hn _. congruence.
  - split; [reflexivity | discriminate].
Qed.

Lemma StoreChat_quiet_run jid name t db :
  faults db = [] ->
  StoreChat jid name t db
  = (inr tt,
     mkConn (set_chats (tables db)
               (filter (fun r => negb (String.eqb (chat_jid r) jid))
                       (chats (tables db))
                ++ [mkChatRow jid name t]))
            [] (now db)).
Proof. intro Hq. unfold StoreChat. rewrite (Exec_quiet _ db Hq). reflexivity. Qed.

Lemma stored_chat_found jid name t l :
  find (fun r => String.eqb (chat_jid r) jid)
       (filter (fun r => negb (String.eqb (chat_jid r) jid)) l
        ++ [mkChatRow jid name t])
  = Some (mkChatRow jid name t).
Proof.
  rewrite (find_replaced jid jid (mkChatRow jid name t) l eq_refl).
  rewrite String.eqb_refl. reflexivity.
Qed.

(** The state [HandleMessage] leaves behind when the driver answers. *)
Lemma HandleMessage_quiet E cl wm elapsed msg db :
  faults db = [] ->
  let chatJID := JID_String (Chat (Info msg)) in
  let name := fst (GetChatName cl (Chat (Info msg)) chatJID None
                               (User (Sender (Info msg))) db) in
  let db' := snd (HandleMessage E cl wm elapsed msg db) in
  faults db' = []
  /\ chats (tables db')
     = (filter (fun r => negb (String.eqb (chat_jid r) chatJID)) (chats (tables db))
        ++ [mkChatRow chatJID name (InfoTimestamp (Info msg))])%list
  /\ (carries_something (ExtractTextContent (Msg msg)) (mediaType_of E (Msg msg)) ->
      rows_with (InfoID (Info msg)) chatJID (tables db') = [received_row E msg]
      /\ forall id' chatJID', id' <> InfoID (Info msg) \/ chatJID' <> chatJID ->
           rows_with id' chatJID' (tables db') = rows_with id' chatJID' (tables db)).
Proof.
  intro Hq. cbv zeta. unfold HandleMessage, received_row, mediaType_of.
  destruct (GetChatName_quiet cl (Chat (Info msg)) (JID_String (Chat (Info msg)))
              None (User (Sender (Info msg))) db Hq) as [Hdb _].
  destruct (GetChatName cl (Chat (Info msg)) (JID_String (Chat (Info msg))) None
                        (User (Sender (Info msg))) db) as [name db1].
  simpl in Hdb. subst db1. cbn [fst].
  rewrite (StoreChat_quiet_run _ name (InfoTimestamp (Info msg)) db Hq). cbn [snd].
  set (chatJID := JID_String (Chat (Info msg))).
  set (db2 := mkConn _ [] (now db)).
  destruct (ExtractMediaInfo E (Msg msg)) as [[mediaType filename] media].
  cbn [fst snd].
  destruct (String.eqb (ExtractTextContent (Msg msg)) "" && String.eqb mediaType "")
    eqn:Hempty.
  - cbn [snd]. split; [reflexivity|]. split; [reflexivity|].
    intros Hc. rewrite (carries_something_test _ _ Hc) in Hempty. discriminate.
  - set (senderName := if String.eqb (PushName (Info msg)) ""
                       then User (Sender (Info msg)) else PushName (Info msg)).
    assert (Hex : chat_exists (tables db2) chatJID = true).
    { unfold db2, chat_exists. simpl. rewrite existsb_app. simpl.
      rewrite String.eqb_refl. apply orb_true_iff. right. reflexivity. }
    destruct (StoreMessage_quiet (InfoID (Info msg)) chatJID
                (User (Sender (Info msg))) senderName
                (ExtractTextContent (Msg msg)) (InfoTimestamp (Info msg))
                (IsFromMe (Info msg)) mediaType filename (URL media)
                (MediaKey media) (FileSHA256 media) (FileEncSHA256 media)
                (FileLength media) db2 eq_refl Hex) as [db3 Hstore].
    assert (Hdb' : snd (match wm with
                        | Some configs =>
                            (Manager.ProcessMessage E configs msg name elapsed,
                             snd (StoreMessage (InfoID (Info msg)) chatJID
                                    (User (Sender (Info msg))) senderName
                                    (ExtractTextContent (Msg msg))
                                    (InfoTimestamp (Info msg))
                                    (IsFromMe (Info msg)) mediaType filename
                                    (URL media) (MediaKey media)
                                    (FileSHA256 media) (FileEncSHA256 media)
                                    (FileLength media) db2))
                        | None =>
                            ([],
                             snd (StoreMessage (InfoID (Info msg)) chatJID
                                    (User (Sender (Info msg))) senderName
                                    (ExtractTextContent (Msg msg))
                                    (InfoTimestamp (Info msg))
                                    (IsFromMe (Info msg)) mediaType filename
                                    (URL media) (MediaKey media)
                                    (FileSHA256 media) (FileEncSHA256 media)
                                    (FileLength media) db2))
                        end) = db3).
    { destruct wm; simpl; rewrite Hstore; reflexivity. }
    rewrite Hdb'. clear Hdb'.
    assert (Hc : carries_something (ExtractTextContent (Msg msg)) mediaType).
    { unfold carries_something. pose proof Hempty as Hne.
      apply andb_false_iff in Hne.
      destruct Hne as [H | H]; apply String.eqb_neq in H; [left | right]; exact H. }
    destruct (StoreMessage_written _ _ _ _ _ _ _ _ _ _ _ _ _ _ _ _ _ Hc Hstore)
      as (Hrows & Hother & Hchats & _).
    split.
    { unfold StoreMessage in Hstore. rewrite Hempty in Hstore.
      rewrite (Exec_quiet _ db2 eq_refl) in Hstore.
      destruct (chat_exists (tables db2) chatJID); [|discriminate].
      inversion Hstore. reflexivity. }
    split; [rewrite Hchats; reflexivity|].
    intros _. split.
    + rewrite Hrows. unfold written_row, senderName. f_equal.
      destruct (String.eqb_spec (PushName (Info msg)) "") as [Hp | Hp].
      * destruct (String.eqb (User (Sender (Info msg))) ""); reflexivity.
      * apply String.eqb_neq in Hp. rewrite Hp. reflexivity.
    + intros id' chatJID' Hne. rewrite (Hother id' chatJID' Hne). reflexivity.
Qed.



(** X21.  A chat that has a non-empty name in the store keeps it:
    when the driver answers, [HandleMessage] writes the chat row back
    under the stored name, whatever the contact list or the sender say
    by then, and also for a message that is itself not stored. *)
Theorem HandleMessage_keeps_the_chat_name E cl wm elapsed msg db name :
  faults db = [] ->
  chat_name_of (JID_String (Chat (Info msg))) (tables db) = Some name ->
  name <> "" ->
  chat_name_of (JID_String (Chat (Info msg)))
               (tables (snd (HandleMessage E cl wm elapsed msg db)))
  = Some name.
Proof.
  intros Hq Hname Hne.
  destruct (HandleMessage_quiet E cl wm elapsed msg db Hq) as (_ & Hchats & _).
  destruct (GetChatName_quiet cl (Chat (Info msg)) (JID_String (Chat (Info msg)))
              None (User (Sender (Info msg))) db Hq) as [_ Hn].
  unfold chat_name_of. rewrite Hchats, stored_chat_found. simpl.
  rewrite (Hn name Hname Hne). reflexivity.
Qed.

Definition renamed : Client :=
  mkClient (fun _ => None) (fun _ => Some "Alice Cooper").

Lemma HandleMessage_keeps_the_chat_name_witness :
  let db := snd (StoreChat alice "Alice" 100 fresh) in
  (faults db = [] /\ chat_name_of alice (tables db) = Some "Alice" /\ "Alice" <> "")
  /\ chat_name_of alice
       (tables (snd (HandleMessage Sample.env renamed None 0 (live "M2" 300) db)))
     = Some "Alice".
Proof.
  split; [repeat split; discriminate|].
  apply (HandleMessage_keeps_the_chat_name Sample.env renamed None 0
           (live "M2" 300) (snd (StoreChat alice "Alice" 100 fresh)) "Alice").
  - reflexivity.
  - reflexivity.
  - discriminate.
Defined.

End Ingestion.

(** ** The sync retry helper *)

Section Retrying.
Import Main.

Lemma substring_next i n a s :
  String.substring (S i) n (String a s) = String.substring i n s.
Proof. reflexivity. Qed.

Lemma prefix_substring (p s : string) :
  String.prefix p s = String.eqb (String.substring 0 (String.length p) s) p.
Proof.
  revert s. induction p as [|a p IH]; intro s; simpl.
  - destruct s; reflexivity.
  - destruct s as [|b s]; simpl; [reflexivity|].
    destruct (Ascii.ascii_dec a b) as [-> | Hne].
    + rewrite Ascii.eqb_refl. apply IH.
    + destruct (Ascii.eqb_spec b a) as [Heq | _]; [congruence | reflexivity].
Qed.

Lemma existsb_mapped {A B} (f : B -> bool) (g : A -> B) l :
  existsb f (map g l) = existsb (fun x => f (g x)) l.
Proof.
  induction l as [|x xs IH]; simpl; [reflexivity | rewrite IH; reflexivity].
Qed.

Lemma contains_step a s substr :
  (String.length substr <= S (String.length s))%nat ->
  contains (String a s) substr
  = String.prefix substr (String a s) || contains s substr.
Proof.
  intro Hlen. unfold contains. cbv zeta.
  replace (Z.to_nat (Z.of_nat (String.length (String a s))
                     - Z.of_nat (String.length substr) + 1))
    with (S (Z.to_nat (Z.of_nat (String.length s)
                       - Z.of_nat (String.length substr) + 1)))
    by (simpl String.length; lia).
  rewrite <- cons_seq, <- seq_shift. cbn [existsb].
  rewrite prefix_substring. f_equal.
  rewrite existsb_mapped. reflexivity.
Qed.

Lemma contains_short s substr :
  (String.length s < String.length substr)%nat -> contains s substr = false.
Proof.
  intro H. unfold contains. cbv zeta.
  replace (Z.to_nat _) with 0%nat by lia. reflexivity.
Qed.

Lemma prefix_short p s :
  (String.length s < String.length p)%nat -> String.prefix p s = false.
Proof.
  revert s. induction p as [|a p IH]; intros s H; simpl in H; [lia|].
  destruct s as [|b s]; simpl; [reflexivity|]. simpl in H.
  destruct (Ascii.ascii_dec a b); [apply IH; lia | reflexivity].
Qed.

Lemma contains_is_Contains s substr :
  contains s substr = Strings.Contains s substr.
Proof.
  induction s as [|a s IH].
  - destruct substr as [|b substr]; [reflexivity|].
    rewrite contains_short; [reflexivity | simpl; lia].
  - change (Strings.Contains (String a s) substr)
      with (String.prefix substr (String a s) || Strings.Contains s substr).
    destruct (Nat.le_gt_cases (String.length substr) (S (String.length s)))
      as [Hle | Hgt].
    + rewrite (contains_step a s substr Hle), IH. reflexivity.
    + rewrite <- IH, (contains_short (String a s)), (contains_short s),
        (prefix_short substr (String a s)); simpl; lia || reflexivity.
Qed.

(** X22.  The hand-written [contains] of the sync helper finds its
    argument exactly where it occurs: it is true when and only when the
    string splits around the substring, which is what
    [strings.Contains] computes; in particular the empty substring is
    found everywhere and a substring longer than the string nowhere. *)
Theorem contains_finds_substrings s substr :
  (contains s substr = true <-> exists pre post, s = pre ++ substr ++ post)
  /\ contains s substr = Strings.Contains s substr
  /\ contains s "" = true
  /\ ((String.length s < String.length substr)%nat -> contains s substr = false).
Proof.
  split; [rewrite contains_is_Contains; apply Contains_spec|].
  split; [apply contains_is_Contains|]. split; [|apply contains_short].
  rewrite contains_is_Contains. apply Contains_spec. exists "", s. reflexivity.
Qed.

Lemma int64_small z : - 2 ^ 63 <= z < 2 ^ 63 -> int64 z = z.
Proof. intro H. unfold int64. rewrite Z.mod_small; lia. Qed.

Lemma select_calls S d r :
  calls (snd (select S d r)) = calls r
  /\ (fst (select S d r) = false -> done S (selects r) = true).
Proof.
  unfold select. destruct (done S (selects r)); simpl;
    (split; [reflexivity | intro H; (reflexivity || discriminate)]).
Qed.

(** The loop from any of its states on.  [a] is the attempt about to
    be made; after the first attempt the last call is the one that set
    [lastErr]. *)
Lemma retry_run S config : forall fuel a backoff lastErr r,
  0 <= a <= MaxRetries config + 1 ->
  MaxRetries config < 2 ^ 63 - 1 ->
  MaxRetries config + 1 - a < Z.of_nat fuel ->
  (0 < a -> (0 < calls r)%nat /\ fn S (pred (calls r)) = lastErr /\ lastErr <> None) ->
  exists res r',
    retry fuel S config a backoff lastErr r = Some (res, r')
    /\ (calls r <= calls r')%nat
    /\ Z.of_nat (calls r') <= Z.of_nat (calls r) + (MaxRetries config + 1 - a)
    /\ (0 <= MaxRetries config ->
        (0 < calls r')%nat /\ (res = None <-> fn S (pred (calls r')) = None))
    /\ ((forall n, done S n = false) -> res <> None ->
        Z.of_nat (calls r') = Z.of_nat (calls r) + (MaxRetries config + 1 - a)
        /\ (0 <= MaxRetries config -> res = fn S (pred (calls r')))).
Proof.
  induction fuel as [|fuel IH]; intros a backoff lastErr r Ha HM Hfuel Hlast;
    [simpl in Hfuel; lia|].
  cbn [retry].
  destruct (a <=? MaxRetries config) eqn:Hle.
  2:{ apply Z.leb_gt in Hle. assert (a = MaxRetries config + 1) by lia. subst a.
      exists lastErr, r. split; [reflexivity|]. split; [lia|]. split; [lia|].
      split.
      - intro H0. destruct Hlast as (Hc & Hfn & Hne); [lia|].
        split; [exact Hc|]. rewrite Hfn. tauto.
      - intros _ _. split; [lia|]. intro H0.
        destruct Hlast as (_ & Hfn & _); [lia|]. symmetry. exact Hfn. }
  apply Z.leb_le in Hle.
  (* the wait before a retry *)
  assert (Hwait : exists fired backoff' r1,
            (if 0 <? a
             then let '(fired, r1) := select S backoff r in
                  (fired, int64 (backoff * 2), r1)
             else (true, backoff, r)) = (fired, backoff', r1)
            /\ calls r1 = calls r
            /\ (fired = false -> 0 < a /\ done S (selects r) = true)).
  { destruct (0 <? a) eqn:H0.
    - destruct (select_calls S backoff r) as [Hc Hf].
      destruct (select S backoff r) as [fired r1]. simpl in *.
      exists fired, (int64 (backoff * 2)), r1. apply Z.ltb_lt in H0.
      repeat split; auto.
    - exists true, backoff, r. repeat split; auto; discriminate. }
  destruct Hwait as (fired & backoff' & r1 & -> & Hc1 & Hf1).
  destruct fired; cbn [negb].
  2:{ destruct (Hf1 eq_refl) as [H0 Hdone].
      destruct (Hlast H0) as (Hc & Hfn & Hne).
      exists (Some (ctxErr S)), r1. split; [reflexivity|].
      rewrite Hc1. split; [lia|]. split; [lia|]. split.
      - intros _. split; [exact Hc|]. rewrite Hfn.
        split; [discriminate | intro H; contradiction].
      - intros Hnever. rewrite Hnever in Hdone. discriminate. }
  rewrite Hc1.
  set (r2 := mkRun (Datatypes.S (calls r)) (selects r1) (trace r1 ++ [Call])).
  assert (Hnext : int64 (a + 1) = a + 1) by (apply int64_small; lia).
  destruct (fn S (calls r)) as [err|] eqn:Hfn.
  2:{ exists None, r2. split; [reflexivity|]. simpl. split; [lia|]. split; [lia|].
      split.
      - intros _. split; [lia|]. tauto.
      - intros _ H. contradiction. }
  assert (Hgo : forall r3, calls r3 = Datatypes.S (calls r) ->
            exists res r',
              retry fuel S config (int64 (a + 1)) backoff' (Some err) r3
              = Some (res, r')
              /\ (calls r <= calls r')%nat
              /\ Z.of_nat (calls r')
                 <= Z.of_nat (calls r) + (MaxRetries config + 1 - a)
              /\ (0 <= MaxRetries config ->
                  (0 < calls r')%nat
                  /\ (res = None <-> fn S (pred (calls r')) = None))
              /\ ((forall n, done S n = false) -> res <> None ->
                  Z.of_nat (calls r')
                  = Z.of_nat (calls r) + (MaxRetries config + 1 - a)
                  /\ (0 <= MaxRetries config -> res = fn S (pred (calls r'))))).
  { intros r3 Hc3. rewrite Hnext.
    destruct (IH (a + 1) backoff' (Some err) r3) as (res & r' & Hrun & H1 & H2 & H3 & H4).
    - lia.
    - exact HM.
    - lia.
    - intros _. rewrite Hc3. simpl. split; [lia|]. split; [exact Hfn | discriminate].
    - exists res, r'. split; [exact Hrun|]. rewrite Hc3 in H1, H2, H4.
      split; [lia|]. split; [lia|]. split; [exact H3|].
      intros Hnever Hres. destruct (H4 Hnever Hres) as [H5 H6].
      split; [lia | exact H6]. }
  destruct (isRateLimitError (Some err)).
  - destruct (select_calls S (RateLimitWait config) r2) as [Hc3 Hf3].
    destruct (select S (RateLimitWait config) r2) as [fired r3]. simpl in Hc3, Hf3.
    destruct fired.
    + apply Hgo. exact Hc3.
    + exists (Some (ctxErr S)), r3. split; [reflexivity|]. rewrite Hc3. simpl.
      split; [lia|]. split; [lia|]. split.
      * intros _. split; [lia|]. rewrite Hfn.
        split; [discriminate | discriminate].
      * intros Hnever. rewrite Hnever in Hf3. discriminate (Hf3 eq_refl).
  - apply Hgo. reflexivity.
Qed.

(** No call is made after one that returned nil. *)
Lemma retry_first_success S config : forall fuel a backoff lastErr r res r',
  retry fuel S config a backoff lastErr r = Some (res, r') ->
  (forall i, (i < calls r)%nat -> fn S i <> None) ->
  forall i, (i < pred (calls r'))%nat -> fn S i <> None.
Proof.
  induction fuel as [|fuel IH]; intros a backoff lastErr r res r' Hrun Hprev;
    [discriminate|].
  cbn [retry] in Hrun.
  destruct (a <=? MaxRetries config).
  2:{ inversion Hrun; subst. intros i Hi. apply Hprev. lia. }
  assert (Hwait : exists fired backoff' r1,
            (if 0 <? a
             then let '(fired, r1) := select S backoff r in
                  (fired, int64 (backoff * 2), r1)
             else (true, backoff, r)) = (fired, backoff', r1)
            /\ calls r1 = calls r).
  { destruct (0 <? a).
    - destruct (select_calls S backoff r) as [Hc _].
      destruct (select S backoff r) as [fired r1]. simpl in *.
      exists fired, (int64 (backoff * 2)), r1. auto.
    - exists true, backoff, r. auto. }
  destruct Hwait as (fired & backoff' & r1 & Hw & Hc1). rewrite Hw in Hrun.
  destruct fired; cbn [negb] in Hrun.
  2:{ inversion Hrun; subst. intros i Hi. apply Hprev. lia. }
  rewrite Hc1 in Hrun.
  destruct (fn S (calls r)) as [err|] eqn:Hfn.
  2:{ inversion Hrun; subst. simpl. exact Hprev. }
  assert (Hprev' : forall r3, calls r3 = Datatypes.S (calls r) ->
            forall i, (i < calls r3)%nat -> fn S i <> None).
  { intros r3 Hc3 i Hi. rewrite Hc3 in Hi.
    destruct (Nat.eq_dec i (calls r)) as [-> | Hne];
      [rewrite Hfn; discriminate | apply Hprev; lia]. }
  destruct (isRateLimitError (Some err)).
  - destruct (select_calls S (RateLimitWait config)
                (mkRun (Datatypes.S (calls r)) (selects r1) (trace r1 ++ [Call])))
      as [Hc3 _].
    destruct (select S (RateLimitWait config) _) as [fired r3]. simpl in Hc3.
    destruct fired.
    + apply (IH _ _ _ _ _ _ Hrun). apply Hprev'. exact Hc3.
    + inversion Hrun; subst. rewrite Hc3. simpl. exact Hprev.
  - apply (IH _ _ _ _ _ _ Hrun). apply Hprev'. reflexivity.
Qed.

(** X23.  With a bound [MaxRetries] from 0 up, [RetryWithBackoff]
    returns: it calls [fn] at least once and at most [MaxRetries + 1]
    times and stops at the first call that returns nil, so that its
    result is nil exactly when the last call it made returned nil.
    When the context is never done and no call succeeds, it makes all
    [MaxRetries + 1] calls and returns the error of the last one. *)
Theorem RetryWithBackoff_calls_and_result S config fuel :
  0 <= MaxRetries config < 2 ^ 63 - 1 ->
  MaxRetries config + 1 < Z.of_nat fuel ->
  exists res r,
    RetryWithBackoff fuel S config = Some (res, r)
    /\ (1 <= calls r)%nat
    /\ Z.of_nat (calls r) <= MaxRetries config + 1
    /\ (res = None <-> fn S (pred (calls r)) = None)
    /\ (forall i, (i < pred (calls r))%nat -> fn S i <> None)
    /\ ((forall n, done S n = false) -> res <> None ->
        Z.of_nat (calls r) = MaxRetries config + 1
        /\ res = fn S (Z.to_nat (MaxRetries config))).
Proof.
  intros HM Hfuel. unfold RetryWithBackoff.
  destruct (retry_run S config fuel 0 (RetryBackoff config) None (mkRun 0 0 []))
    as (res & r & Hrun & _ & H2 & H3 & H4); try lia.
  exists res, r. split; [exact Hrun|]. simpl in H2, H4.
  destruct H3 as [Hc Hiff]; [lia|].
  split; [lia|]. split; [lia|]. split; [exact Hiff|].
  split.
  { apply (retry_first_success S config _ _ _ _ _ _ _ Hrun).
    simpl. intros i Hi. lia. }
  intros Hnever Hres. destruct (H4 Hnever Hres) as [H5 H6].
  split; [lia|]. rewrite H6 by lia. f_equal. lia.
Qed.

(** Three runs under the default configuration: the third call
    succeeds; no call succeeds; the second call is rate limited. *)
Definition third_time_lucky : Surroundings :=
  mkSurroundings (fun n => if Nat.ltb n 2 then Some "timeout" else None)
                 (fun _ => false) "context canceled".

Definition never_lucky : Surroundings :=
  mkSurroundings (fun _ => Some "timeout") (fun _ => false) "context canceled".

Definition throttled : Surroundings :=
  mkSurroundings (fun n => if Nat.eqb n 1 then Some "status 429" else Some "timeout")
                 (fun _ => false) "context canceled".

Lemma RetryWithBackoff_calls_and_result_witness :
  (0 <= MaxRetries DefaultSyncConfig < 2 ^ 63 - 1
   /\ MaxRetries DefaultSyncConfig + 1 < Z.of_nat 10)
  /\ exists res r,
       RetryWithBackoff 10 third_time_lucky DefaultSyncConfig = Some (res, r)
       /\ (1 <= calls r)%nat
       /\ Z.of_nat (calls r) <= MaxRetries DefaultSyncConfig + 1
       /\ (res = None <-> fn third_time_lucky (pred (calls r)) = None)
       /\ (forall i, (i < pred (calls r))%nat -> fn third_time_lucky i <> None)
       /\ ((forall n, done third_time_lucky n = false) -> res <> None ->
           Z.of_nat (calls r) = MaxRetries DefaultSyncConfig + 1
           /\ res = fn third_time_lucky (Z.to_nat (MaxRetries DefaultSyncConfig))).
Proof.
  split; [simpl; lia|].
  apply (RetryWithBackoff_calls_and_result third_time_lucky DefaultSyncConfig 10);
    simpl; lia.
Defined.

Example RetryWithBackoff_runs :
  RetryWithBackoff 10 third_time_lucky DefaultSyncConfig
  = Some (None,
          mkRun 3 2 [Call; Wait (1 * Second); Call; Wait (2 * Second); Call])
  /\ RetryWithBackoff 10 never_lucky DefaultSyncConfig
     = Some (Some "timeout",
             mkRun 4 3 [Call; Wait (1 * Second); Call; Wait (2 * Second); Call;
                        Wait (4 * Second); Call])
  /\ RetryWithBackoff 10 throttled DefaultSyncConfig
     = Some (Some "timeout",
             mkRun 4 4 [Call; Wait (1 * Second); Call; Wait (30 * Second);
                        Wait (2 * Second); Call; Wait (4 * Second); Call]).
Proof. repeat split. Qed.

End Retrying.

(** ** The security middleware *)

Section RateLimit.
Import Middleware.
Context {A : Type}.

(** A handler that leaves the limiter's maps alone, as the handlers of
    the bridge do. *)
Definition app_only (next : HandlerFunc A) : Prop :=
  forall w r st, limiter (snd (next w r st)) = limiter st.

(** The same request arriving at each of [times] in turn. *)
Fixpoint serve (h : HandlerFunc A) (r : Request) (times : list Z) (st : State A)
  : list ResponseWriter * State A :=
  match times with
  | [] => ([], st)
  | t :: ts =>
      let '(w, st1) := h fresh r (mkState (limiter st) t (app st)) in
      let '(ws, st2) := serve h r ts st1 in
      (w :: ws, st2)
  end.

Definition count_of (ip : string) (l : Limiter) : Z :=
  match GoMap.get (requestCounts l) ip with Some n => n | None => 0 end.

Lemma count_request_first ip now l :
  GoMap.get (requestWindows l) ip = None ->
  fst (count_request ip now l) = 1
  /\ GoMap.get (requestWindows (snd (count_request ip now l))) ip = Some now
  /\ count_of ip (snd (count_request ip now l)) = 1.
Proof.
  intro H. unfold count_request, count_of. rewrite H.
  cbn [fst snd requestWindows requestCounts].
  rewrite !get_set, !String.eqb_refl. auto.
Qed.

Lemma count_request_open ip now l t0 :
  GoMap.get (requestWindows l) ip = Some t0 ->
  now - t0 <= rateLimitWindow ->
  0 <= count_of ip l < 2 ^ 63 - 1 ->
  fst (count_request ip now l) = count_of ip l + 1
  /\ GoMap.get (requestWindows (snd (count_request ip now l))) ip = Some t0
  /\ count_of ip (snd (count_request ip now l)) = count_of ip l + 1.
Proof.
  intros Hw Hnow Hn. unfold count_request. rewrite Hw.
  assert (E : (now - t0 >? rateLimitWindow) = false)
    by (rewrite Z.gtb_ltb; apply Z.ltb_ge; lia).
  rewrite E. cbv zeta. fold (count_of ip l).
  rewrite (int64_small (count_of ip l + 1)) by lia.
  cbn [fst snd requestWindows]. split; [reflexivity|]. split; [exact Hw|].
  unfold count_of at 1. cbn [requestCounts].
  rewrite get_set, String.eqb_refl. reflexivity.
Qed.

Lemma count_request_expired ip now l t0 :
  GoMap.get (requestWindows l) ip = Some t0 ->
  rateLimitWindow < now - t0 ->
  fst (count_request ip now l) = 1
  /\ GoMap.get (requestWindows (snd (count_request ip now l))) ip = Some now.
Proof.
  intros Hw Hnow. unfold count_request. rewrite Hw.
  assert (E : (now - t0 >? rateLimitWindow) = true)
    by (rewrite Z.gtb_ltb; apply Z.ltb_lt; lia).
  rewrite E. cbn [fst snd requestWindows requestCounts].
  rewrite !get_set, !String.eqb_refl. auto.
Qed.

Lemma RateLimitMiddleware_limiter next w r st :
  app_only next ->
  limiter (snd (RateLimitMiddleware next w r st))
  = snd (count_request (clientIP r) (clock st) (limiter st)).
Proof.
  intro Hn. unfold RateLimitMiddleware.
  destruct (count_request (clientIP r) (clock st) (limiter st)) as [count l].
  destruct (count >? rateLimit); [reflexivity|]. rewrite Hn. reflexivity.
Qed.

(** Within one window every request is counted, the refused ones too. *)
Lemma serve_counts next r t0 : forall times st,
  app_only next ->
  GoMap.get (requestWindows (limiter st)) (clientIP r) = Some t0 ->
  Forall (fun t => t - t0 <= rateLimitWindow) times ->
  0 <= count_of (clientIP r) (limiter st) ->
  count_of (clientIP r) (limiter st) + Z.of_nat (length times) < 2 ^ 63 ->
  let st' := snd (serve (RateLimitMiddleware next) r times st) in
  GoMap.get (requestWindows (limiter st')) (clientIP r) = Some t0
  /\ count_of (clientIP r) (limiter st')
     = count_of (clientIP r) (limiter st) + Z.of_nat (length times).
Proof.
  induction times as [|t ts IH]; intros st Hn Hw Hall H0 Hbound; cbv zeta.
  - simpl. split; [exact Hw | lia].
  - inversion Hall as [|? ? Ht Hts]; subst. cbn [serve].
    pose proof (RateLimitMiddleware_limiter next fresh r
                  (mkState (limiter st) t (app st)) Hn) as Hl.
    destruct (RateLimitMiddleware next fresh r (mkState (limiter st) t (app st)))
      as [w st1]. cbn [snd clock limiter] in Hl.
    destruct (count_request_open (clientIP r) t (limiter st) t0 Hw Ht)
      as (_ & Hw1 & Hc1); [simpl length in Hbound; lia|].
    rewrite <- Hl in Hw1, Hc1.
    specialize (IH st1 Hn Hw1 Hts). cbv zeta in IH.
    destruct (serve (RateLimitMiddleware next) r ts st1) as [ws st2].
    simpl in *. destruct IH as [IHw IHc]; [lia | lia |].
    split; [exact IHw | lia].
Qed.

(** X24.  The limiter counts per client address and window.  After
    [k] requests of a client, the first of which opened the window and
    all of them within the minute that follows, the next request in
    that minute is handed on when [k] is below 100 and is answered 429
    with Retry-After: 60 otherwise; either way it is counted. *)
Theorem RateLimitMiddleware_hundred_per_window next r times t st w :
  app_only next ->
  GoMap.get (requestWindows (limiter st)) (clientIP r) = None ->
  Forall (fun t' => t' - hd t times <= rateLimitWindow) (times ++ [t]) ->
  Z.of_nat (length times) < 2 ^ 63 - 1 ->
  let st_k := snd (serve (RateLimitMiddleware next) r times st) in
  let arrived := mkState (limiter st_k) t (app st_k) in
  let counted :=
    mkState (snd (count_request (clientIP r) t (limiter st_k))) t (app st_k) in
  fst (count_request (clientIP r) t (limiter st_k)) = Z.of_nat (length times) + 1
  /\ RateLimitMiddleware next w r arrived
     = if Z.of_nat (length times) <? rateLimit
       then next w r counted
       else (Error (SetHeader w "Retry-After" "60") "Rate limit exceeded" 429,
             counted).
Proof.
  intros Hn Hfresh Hall Hbound. cbv zeta.
  assert (Hcount : fst (count_request (clientIP r) t
                          (limiter (snd (serve (RateLimitMiddleware next) r times st))))
                   = Z.of_nat (length times) + 1).
  { destruct times as [|t0 ts].
    - simpl. apply (count_request_first _ _ _ Hfresh).
    - simpl hd in Hall. cbn [serve].
      pose proof (RateLimitMiddleware_limiter next fresh r
                    (mkState (limiter st) t0 (app st)) Hn) as Hl.
      destruct (RateLimitMiddleware next fresh r (mkState (limiter st) t0 (app st)))
        as [w0 st1]. cbn [snd clock limiter] in Hl.
      destruct (count_request_first (clientIP r) t0 (limiter st) Hfresh)
        as (_ & Hw1 & Hc1).
      rewrite <- Hl in Hw1, Hc1.
      simpl in Hall. inversion Hall as [|? ? _ Hrest]; subst.
      apply Forall_app in Hrest. destruct Hrest as [Hts Ht].
      inversion Ht as [|? ? Ht' _]; subst.
      pose proof (serve_counts next r t0 ts st1 Hn Hw1 Hts) as Hs.
      cbv zeta in Hs.
      destruct (serve (RateLimitMiddleware next) r ts st1) as [ws st2].
      cbn [snd fst length] in *. destruct Hs as [Hw2 Hc2]; [lia | lia |].
      destruct (count_request_open (clientIP r) t (limiter st2) t0 Hw2 Ht')
        as (Hf & _); [lia|].
      rewrite Hf, Hc2, Hc1. lia. }
  split; [exact Hcount|].
  unfold RateLimitMiddleware. cbn [clock limiter app].
  destruct (count_request (clientIP r) t _) as [count l]. cbn [fst snd] in *.
  subst count. unfold rateLimit.
  destruct (Z.ltb_spec (Z.of_nat (length times)) 100) as [Hlt | Hge].
  - assert (E : (Z.of_nat (length times) + 1 >? 100) = false)
      by (rewrite Z.gtb_ltb; apply Z.ltb_ge; lia).
    rewrite E. reflexivity.
  - assert (E : (Z.of_nat (length times) + 1 >? 100) = true)
      by (rewrite Z.gtb_ltb; apply Z.ltb_lt; lia).
    rewrite E. reflexivity.
Qed.

End RateLimit.

Section RateLimitRun.
Import Middleware.

(** A handler that answers 200 and keeps no state. *)
Definition answer_ok : HandlerFunc unit := fun w r st => (WriteHeader w 200, st).

Definition from_peer : Request :=
  mkRequest "GET" "192.0.2.7:51000" "/api/webhooks" (fun _ => "").

Definition nobody_yet : State unit := mkState (mkLimiter [] []) 0 tt.

Lemma RateLimitMiddleware_hundred_per_window_witness :
  let st_k := snd (serve (RateLimitMiddleware answer_ok) from_peer (repeat 5 100)
                         nobody_yet) in
  status (fst (RateLimitMiddleware answer_ok fresh from_peer
                 (mkState (limiter st_k) 7 (app st_k))))
  = Some 429.
Proof.
  cbv zeta.
  assert (Hall : Forall (fun t' => t' - hd 7 (repeat 5 100) <= rateLimitWindow)
                        (repeat 5 100 ++ [7])).
  { apply Forall_forall. intros x Hx. apply in_app_or in Hx.
    destruct Hx as [Hx | [<- | []]]; [apply repeat_spec in Hx; subst x|];
      vm_compute; discriminate. }
  rewrite (proj2 (RateLimitMiddleware_hundred_per_window answer_ok from_peer
                    (repeat 5 100) 7 nobody_yet fresh
                    (fun w r st => eq_refl) eq_refl Hall
                    ltac:(vm_compute; reflexivity))).
  reflexivity.
Defined.

End RateLimitRun.

Section Hardening.
Import Middleware.
Context {A : Type}.

Lemma get_del {V} (m : GoMap.t V) k k' :
  GoMap.get (GoMap.del m k) k'
  = if String.eqb k k' then None else GoMap.get m k'.
Proof.
  unfold GoMap.get, GoMap.del.
  induction m as [|[k0 v0] m IH]; simpl.
  - destruct (String.eqb k k'); reflexivity.
  - destruct (String.eqb k0 k) eqn:E0; simpl.
    + apply String.eqb_eq in E0. subst k0. rewrite IH.
      destruct (String.eqb k k'); reflexivity.
    + destruct (String.eqb k0 k') eqn:E1; [|exact IH].
      destruct (String.eqb_spec k k') as [-> | _]; [congruence | reflexivity].
Qed.

(** The writer carries the six security headers with their values. *)
Definition hardened (w : ResponseWriter) : Prop :=
  Forall (fun kv => GoMap.get (header w) (fst kv) = Some (snd kv)) securityHeaders.

Definition is_security_header (k : string) : bool :=
  existsb (fun kv => String.eqb (fst kv) k) securityHeaders.

Lemma hardened_SetHeader w k v :
  hardened w -> is_security_header k = false -> hardened (SetHeader w k v).
Proof.
  unfold hardened, is_security_header. intros Hw Hk.
  rewrite Forall_forall in *. intros kv Hin. simpl. rewrite get_set.
  destruct (String.eqb_spec k (fst kv)) as [-> | _]; [|apply Hw; exact Hin].
  exfalso. assert (existsb (fun kv' => String.eqb (fst kv') (fst kv))
                           securityHeaders = true).
  { apply existsb_exists. exists kv. split; [exact Hin | apply String.eqb_refl]. }
  congruence.
Qed.

Lemma hardened_WriteHeader w code : hardened w -> hardened (WriteHeader w code).
Proof. unfold WriteHeader. destruct (status w); auto. Qed.

Lemma hardened_Error w error code : hardened w -> hardened (Error w error code).
Proof.
  unfold hardened, Error. intro Hw. rewrite Forall_forall in *.
  intros kv Hin. specialize (Hw kv Hin).
  assert (Hh : forall (w' : ResponseWriter) c, header (WriteHeader w' c) = header w')
    by (intros w' c; unfold WriteHeader; destruct (status w'); reflexivity).
  cbn [header]. rewrite Hh. cbn [SetHeader header]. rewrite !get_set, get_del.
  simpl in Hin.
  repeat (destruct Hin as [<- | Hin]; [exact Hw || reflexivity|]).
  destruct Hin.
Qed.

Lemma hardened_start w :
  hardened (fold_left (fun w kv => SetHeader w (fst kv) (snd kv)) securityHeaders w).
Proof.
  unfold hardened, securityHeaders. cbn [fold_left fst snd SetHeader header].
  repeat constructor; cbn [fst snd]; rewrite !get_set; reflexivity.
Qed.

(** The writer after the security headers and the CORS headers. *)
Definition dressed (E : Env) (w : ResponseWriter) (r : Request) : ResponseWriter :=
  let w := fold_left (fun w kv => SetHeader w (fst kv) (snd kv)) securityHeaders w in
  let origin := Header r "Origin" in
  let w := if allowed (getAllowedOrigins E) origin
           then SetHeader (SetHeader w "Access-Control-Allow-Origin" origin)
                          "Access-Control-Allow-Credentials" "true"
           else w in
  let w := SetHeader w "Access-Control-Allow-Methods"
                     "GET, POST, PUT, DELETE, OPTIONS" in
  let w := SetHeader w "Access-Control-Allow-Headers"
                     "Content-Type, Authorization, X-API-Key" in
  SetHeader w "Access-Control-Max-Age" "86400".

Lemma hardened_dressed E w r : hardened (dressed E w r).
Proof.
  unfold dressed. cbv zeta.
  repeat (apply hardened_SetHeader; [|reflexivity]).
  destruct (allowed _ _).
  - repeat (apply hardened_SetHeader; [|reflexivity]). apply hardened_start.
  - apply hardened_start.
Qed.

Lemma status_dressed E w r : status (dressed E w r) = status w.
Proof.
  unfold dressed. cbv zeta. destruct (allowed _ _); reflexivity.
Qed.

(** The request counted by the limiter. *)
Definition counted (r : Request) (st : State A) : State A :=
  mkState (snd (count_request (clientIP r) (clock st) (limiter st)))
          (clock st) (app st).

Definition over_limit (r : Request) (st : State A) : bool :=
  fst (count_request (clientIP r) (clock st) (limiter st)) >? rateLimit.

Definition authorised (E : Env) (r : Request) : bool :=
  String.eqb (Getenv E "API_KEY") ""
  || String.eqb (Header r "X-API-Key") (Getenv E "API_KEY").

(** X25.  [SecureMiddleware] decides in a fixed order.  A preflight
    (OPTIONS) is answered 200 at once: it is neither counted nor
    authenticated.  Any other request is counted first, and answered
    429 when over the limit; only then is its key compared, so that
    requests with a wrong key use up the limit; a wrong key is answered
    401.  The handler runs for what is left.  Whatever the outcome, the
    response starts out with the six security headers. *)
Theorem SecureMiddleware_order E (next : HandlerFunc A) w r st :
  status w = None ->
  let w1 := dressed E w r in
  SecureMiddleware E next w r st
  = (if String.eqb (Method r) "OPTIONS" then (WriteHeader w1 200, st)
     else if over_limit r st
     then (Error (SetHeader w1 "Retry-After" "60") "Rate limit exceeded" 429,
           counted r st)
     else if authorised E r then next w1 r (counted r st)
     else (Error w1 "Unauthorized" 401, counted r st))
  /\ hardened w1
  /\ hardened (WriteHeader w1 200)
  /\ status (WriteHeader w1 200) = Some 200
  /\ hardened (Error (SetHeader w1 "Retry-After" "60") "Rate limit exceeded" 429)
  /\ status (Error (SetHeader w1 "Retry-After" "60") "Rate limit exceeded" 429)
     = Some 429
  /\ hardened (Error w1 "Unauthorized" 401)
  /\ status (Error w1 "Unauthorized" 401) = Some 401.
Proof.
  intro Hs. cbv zeta.
  pose proof (hardened_dressed E w r) as Hh.
  pose proof (status_dressed E w r) as Hst. rewrite Hs in Hst.
  split.
  { unfold SecureMiddleware, SecurityHeadersMiddleware, CorsMiddleware.
    cbv zeta. fold (dressed E w r).
    destruct (String.eqb (Method r) "OPTIONS"); [reflexivity|].
    unfold RateLimitMiddleware, over_limit, counted.
    destruct (count_request (clientIP r) (clock st) (limiter st)) as [count l].
    cbn [fst snd clock app].
    destruct (count >? rateLimit); [reflexivity|].
    unfold AuthMiddleware, authorised.
    destruct (String.eqb (Getenv E "API_KEY") ""); [reflexivity|].
    cbn [orb]. destruct (String.eqb (Header r "X-API-Key") (Getenv E "API_KEY"));
      reflexivity. }
  split; [exact Hh|].
  split; [apply hardened_WriteHeader; exact Hh|].
  split; [unfold WriteHeader; rewrite Hst; reflexivity|].
  split; [apply hardened_Error, hardened_SetHeader; [exact Hh | reflexivity]|].
  split; [unfold Error, WriteHeader; cbn [SetHeader status]; rewrite Hst;
          reflexivity|].
  split; [apply hardened_Error; exact Hh|].
  unfold Error, WriteHeader. cbn [SetHeader status]. rewrite Hst. reflexivity.
Qed.

End Hardening.

Section HardeningRun.
Import Middleware.

Definition with_key : Env :=
  mkEnv (fun name => if String.eqb name "API_KEY" then "s3cret" else "")
        (Some "/app") Sample.hostname Sample.resolver Regexp.Compile
        Sample.marshal (fun _ => fun _ => "00") "20240101_120000".

Lemma SecureMiddleware_order_witness :
  status fresh = None
  /\ status (fst (SecureMiddleware with_key answer_ok fresh from_peer nobody_yet))
     = Some 401
  /\ count_of "192.0.2.7:51000"
       (limiter (snd (SecureMiddleware with_key answer_ok fresh from_peer
                        nobody_yet))) = 1.
Proof.
  split; [reflexivity|].
  rewrite (proj1 (SecureMiddleware_order with_key answer_ok fresh from_peer
                    nobody_yet eq_refl)).
  split; reflexivity.
Defined.

End HardeningRun.

(** ** History sync *)

Section HistorySync.
Import Types Events Database Whatsapp History.

(** A conversation the outer loop does not skip: it has an address that
    parses, and its first message is there with a timestamp. *)
Definition usable (c : Session) (conversation : Conversation) : bool :=
  match ID conversation with
  | Some chatJID =>
      match ParseJID c chatJID, Messages conversation with
      | Some _, first :: _ =>
          match info_of first with
          | Some latest => negb (MessageTimestamp latest =? 0)
          | None => false
          end
      | _, _ => false
      end
  | None => false
  end.

Definition first_timestamp (conversation : Conversation) : option Z :=
  match Messages conversation with
  | first :: _ => option_map MessageTimestamp (info_of first)
  | [] => None
  end.

(** A message the inner loop does not skip. *)
Definition storable (E : Env) (info : WebMessageInfo) : Prop :=
  carries_something (ExtractTextContent (WebMessage info))
                    (mediaType_of E (WebMessage info))
  /\ MessageTimestamp info <> 0.

Definition key_id (info : WebMessageInfo) : string :=
  match Key info with
  | Some key => match KeyID key with Some id => id | None => "" end
  | None => ""
  end.

Lemma sync_message_step E c jid chatJID msg n db n' db' :
  faults db = [] -> chat_exists (tables db) chatJID = true ->
  sync_message E c jid chatJID msg n db = Some (n', db') ->
  faults db' = []
  /\ chats (tables db') = chats (tables db)
  /\ (forall id, rows_with id chatJID (tables db) <> [] ->
                 rows_with id chatJID (tables db') <> [])
  /\ (forall info, info_of msg = Some info -> storable E info ->
                   rows_with (key_id info) chatJID (tables db') <> []).
Proof.
  intros Hq Hex H. unfold sync_message in H.
  assert (Hsame : Some (n, db) = Some (n', db') ->
                  (forall info, info_of msg = Some info -> storable E info -> False) ->
                  faults db' = []
                  /\ chats (tables db') = chats (tables db)
                  /\ (forall id, rows_with id chatJID (tables db) <> [] ->
                                 rows_with id chatJID (tables db') <> [])
                  /\ (forall info, info_of msg = Some info -> storable E info ->
                                   rows_with (key_id info) chatJID (tables db') <> [])).
  { intros Heq Hno. inversion Heq; subst n' db'.
    repeat split; auto. intros info Hi Hs. destruct (Hno info Hi Hs). }
  destruct (info_of msg) as [info|] eqn:Hinfo; [|apply Hsame; [exact H | discriminate]].
  assert (Hcontent :
            match WebMessage info with
            | Some m =>
                if negb (String.eqb (Events.Conversation m) "") then Events.Conversation m
                else match ExtendedTextMessage m with
                     | Some text => text
                     | None => ""
                     end
            | None => ""
            end = ExtractTextContent (WebMessage info))
    by (destruct (WebMessage info); reflexivity).
  assert (Hmedia :
            match WebMessage info with
            | Some m => ExtractMediaInfo E (Some m)
            | None => ("", "", mkMedia "" [] [] [] 0 "")
            end = ExtractMediaInfo E (WebMessage info))
    by (destruct (WebMessage info); reflexivity).
  rewrite Hcontent, Hmedia in H. clear Hcontent Hmedia.
  unfold storable, mediaType_of in *.
  destruct (ExtractMediaInfo E (WebMessage info)) as [[mediaType filename] media]
    eqn:Hmi.
  cbn [fst snd] in *.
  destruct (String.eqb (ExtractTextContent (WebMessage info)) ""
            && String.eqb mediaType "") eqn:Hempty.
  { apply Hsame; [exact H|]. intros i Hi [Hc _]. inversion Hi; subst i.
    rewrite Hmi in Hc. cbn [fst snd] in Hc.
    rewrite (carries_something_test _ _ Hc) in Hempty. discriminate. }
  match type of H with
  | match ?s with Some _ => _ | None => _ end = _ =>
      destruct s as [sender|]; [|discriminate]
  end.
  destruct (MessageTimestamp info =? 0) eqn:Hts.
  { apply Hsame; [exact H|]. intros i Hi [_ Hne]. inversion Hi; subst i.
    apply Z.eqb_eq in Hts. contradiction. }
  fold (key_id info) in H.
  match type of H with
  | context [StoreMessage ?a1 ?a2 ?a3 ?a4 ?a5 ?a6 ?a7 ?a8 ?a9 ?a10 ?a11 ?a12 ?a13 ?a14 db] =>
      destruct (StoreMessage_quiet a1 a2 a3 a4 a5 a6 a7 a8 a9 a10 a11 a12 a13 a14 db
                  Hq Hex) as [db3 Hstore];
      assert (Hc : carries_something a5 a8)
        by (apply andb_false_iff in Hempty;
            destruct Hempty as [He | He]; apply String.eqb_neq in He;
            [left | right]; exact He);
      pose proof (StoreMessage_written _ _ _ _ _ _ _ _ _ _ _ _ _ _ _ _ _ Hc Hstore)
        as (Hrows & Hother & Hchats & _);
      assert (Hq3 : faults db3 = [])
        by (unfold StoreMessage in Hstore; rewrite Hempty in Hstore;
            rewrite (Exec_quiet _ db Hq), Hex in Hstore;
            inversion Hstore; reflexivity)
  end.
  rewrite Hstore in H. inversion H; subst n' db'. clear H.
  split; [exact Hq3|]. split; [exact Hchats|]. split.
  - intros id Hid. destruct (String.eqb_spec id (key_id info)) as [-> | Hne].
    + rewrite Hrows. discriminate.
    + rewrite (Hother id chatJID (or_introl Hne)). exact Hid.
  - intros i Hi _. inversion Hi; subst i. rewrite Hrows. discriminate.
Qed.

Lemma sync_messages_run E c jid chatJID msgs : forall n db n' db',
  faults db = [] -> chat_exists (tables db) chatJID = true ->
  sync_messages E c jid chatJID msgs n db = Some (n', db') ->
  faults db' = []
  /\ chats (tables db') = chats (tables db)
  /\ (forall id, rows_with id chatJID (tables db) <> [] ->
                 rows_with id chatJID (tables db') <> [])
  /\ (forall msg info, In msg msgs -> info_of msg = Some info -> storable E info ->
                       rows_with (key_id info) chatJID (tables db') <> []).
Proof.
  induction msgs as [|msg rest IH]; intros n db n' db' Hq Hex H; simpl in H.
  - inversion H; subst. repeat split; auto; intros msg info [].
  - destruct (sync_message E c jid chatJID msg n db) as [[n1 db1]|] eqn:Hstep;
      [|discriminate].
    destruct (sync_message_step _ _ _ _ _ _ _ _ _ Hq Hex Hstep)
      as (Hq1 & Hchats1 & Hkeep1 & Hnew1).
    assert (Hex1 : chat_exists (tables db1) chatJID = true)
      by (unfold chat_exists in *; rewrite Hchats1; exact Hex).
    destruct (IH _ _ _ _ Hq1 Hex1 H) as (Hq' & Hchats' & Hkeep' & Hnew').
    split; [exact Hq'|]. split; [congruence|]. split.
    + intros id Hid. apply Hkeep', Hkeep1, Hid.
    + intros m info [<- | Hin] Hi Hs.
      * apply Hkeep'. exact (Hnew1 info Hi Hs).
      * exact (Hnew' m info Hin Hi Hs).
Qed.

Lemma sync_conversation_skips E c conversation n db :
  faults db = [] -> usable c conversation = false ->
  sync_conversation E c conversation n db = Some (n, db).
Proof.
  intros Hq Hu. unfold sync_conversation, usable in *.
  destruct (ID conversation) as [chatJID|]; [|reflexivity].
  destruct (ParseJID c chatJID) as [jid|]; [|reflexivity].
  destruct (GetChatName_quiet (client c) jid chatJID (Some (Names conversation))
                              "" db Hq) as [Hdb _].
  destruct (GetChatName (client c) jid chatJID (Some (Names conversation)) "" db)
    as [name db1].
  simpl in Hdb. subst db1.
  destruct (Messages conversation) as [|first rest]; [reflexivity|].
  destruct (info_of first) as [latest|]; [|reflexivity].
  destruct (MessageTimestamp latest =? 0); [reflexivity | discriminate].
Qed.

(** What a conversation that is not skipped leaves behind. *)
Lemma sync_conversation_run E c conversation chatJID n db n' db' :
  faults db = [] -> usable c conversation = true ->
  ID conversation = Some chatJID ->
  sync_conversation E c conversation n db = Some (n', db') ->
  faults db' = []
  /\ last_activity chatJID (tables db')
     = option_map Main.int64 (first_timestamp conversation)
  /\ (forall msg info, In msg (Messages conversation) -> info_of msg = Some info ->
                       storable E info ->
                       rows_with (key_id info) chatJID (tables db') <> []).
Proof.
  intros Hq Hu Hid H. unfold sync_conversation, usable, first_timestamp in *.
  rewrite Hid in *.
  destruct (ParseJID c chatJID) as [jid|]; [|discriminate].
  destruct (GetChatName_quiet (client c) jid chatJID (Some (Names conversation))
                              "" db Hq) as [Hdb _].
  destruct (GetChatName (client c) jid chatJID (Some (Names conversation)) "" db)
    as [name db1].
  simpl in Hdb. subst db1.
  destruct (Messages conversation) as [|first rest] eqn:Hmsgs; [discriminate|].
  destruct (info_of first) as [latest|]; [|discriminate].
  destruct (MessageTimestamp latest =? 0); [discriminate|].
  rewrite (StoreChat_quiet_run chatJID name _ db Hq) in H. cbn [snd] in H.
  match type of H with
  | sync_messages _ _ _ _ _ _ ?d = _ => set (db2 := d) in H
  end.
  assert (Hfound : find (fun r => String.eqb (chat_jid r) chatJID) (chats (tables db2))
                   = Some (mkChatRow chatJID name (Main.int64 (MessageTimestamp latest))))
    by (unfold db2; simpl; apply stored_chat_found).
  assert (Hex : chat_exists (tables db2) chatJID = true).
  { unfold db2, chat_exists. simpl. rewrite existsb_app. simpl.
    rewrite String.eqb_refl. apply orb_true_iff. right. reflexivity. }
  destruct (sync_messages_run E c jid chatJID _ n db2 n' db' eq_refl Hex H)
    as (Hq' & Hchats & _ & Hnew).
  split; [exact Hq'|]. split; [|exact Hnew].
  unfold last_activity. rewrite Hchats, Hfound. reflexivity.
Qed.

Lemma sync_conversation_faults E c conversation n db n' db' :
  faults db = [] ->
  sync_conversation E c conversation n db = Some (n', db') -> faults db' = [].
Proof.
  intros Hq H. destruct (usable c conversation) eqn:Hu.
  - destruct (ID conversation) as [chatJID|] eqn:Hid.
    + exact (proj1 (sync_conversation_run _ _ _ _ _ _ _ _ Hq Hu Hid H)).
    + unfold usable in Hu. rewrite Hid in Hu. discriminate.
  - rewrite (sync_conversation_skips _ _ _ _ _ Hq Hu) in H. inversion H; subst.
    exact Hq.
Qed.

Lemma sync_conversations_usable E c conversations : forall n db,
  faults db = [] ->
  sync_conversations E c conversations n db
  = sync_conversations E c (filter (usable c) conversations) n db.
Proof.
  induction conversations as [|conversation rest IH]; intros n db Hq;
    [reflexivity|].
  simpl. destruct (usable c conversation) eqn:Hu.
  - simpl. destruct (sync_conversation E c conversation n db) as [[n1 db1]|] eqn:H;
      [|reflexivity].
    apply IH. exact (sync_conversation_faults _ _ _ _ _ _ _ Hq H).
  - rewrite (sync_conversation_skips _ _ _ _ _ Hq Hu). apply IH. exact Hq.
Qed.



(** X26.  When the driver answers, a history sync is decided by the
    conversations whose first listed message is there with a timestamp:
    a conversation without an address, with an address that does not
    parse, with no messages, or whose first message is missing or has
    timestamp 0 is skipped as a whole -- neither its chat nor any of its
    other messages is written -- so the sync ends as the sync of the
    remaining conversations does. *)
Theorem HandleHistorySync_skips_headless_conversations E c conversations db :
  faults db = [] ->
  HandleHistorySync E c conversations db
  = HandleHistorySync E c (filter (usable c) conversations) db.
Proof. intro Hq. apply sync_conversations_usable. exact Hq. Qed.


End HistorySync.

Section HistorySyncRun.
Import Types Events Database Whatsapp History.

Definition linked : Session :=
  mkSession offline
            (fun s => if String.eqb s alice then Some (mkJID "111" "s.whatsapp.net")
                      else None)
            (Some (mkJID "999" "s.whatsapp.net")).

Definition past (id text : string) (ts : Z) : option HistorySyncMsg :=
  Some (mkHistorySyncMsg
          (Some (mkWebMessageInfo
                   (Some (mkMessageKey (Some false) None (Some id)))
                   (Some (mkE2EMessage text None None None None None)) ts))).

(** The first message has no timestamp, the second one is in order. *)
Definition headless : Conversation :=
  mkConversation (Some alice) (mkConversationNames None None)
                 [past "H1" "lost" 0; past "H2" "hi" 500].

(** The first message is older than the second. *)
Definition recent : Conversation :=
  mkConversation (Some alice) (mkConversationNames None None)
                 [past "H3" "first" 300; past "H4" "second" 400].

Lemma HandleHistorySync_skips_headless_conversations_witness :
  faults fresh = []
  /\ HandleHistorySync Sample.env linked [headless; recent] fresh
     = HandleHistorySync Sample.env linked (filter (usable linked) [headless; recent])
                         fresh.
Proof.
  split; [reflexivity|].
  apply (HandleHistorySync_skips_headless_conversations Sample.env linked
           [headless; recent] fresh).
  reflexivity.
Defined.

(** The message "H2" of the headless conversation is not stored. *)
Example headless_conversation_run :
  option_map (fun r => tables (snd r))
             (HandleHistorySync Sample.env linked [headless] fresh)
  = Some empty_tables.
Proof. vm_compute. reflexivity. Qed.


End HistorySyncRun.

(** ** Sending *)

Section SendRecords.
Import Types Events Database Sending.

(** The address [SendMessage] sends to. *)
Definition recipient_jid (c : Client) (recipient : string) : string + JID :=
  if Strings.Contains recipient "@" then ParseJID c recipient
  else inr (mkJID recipient "s.whatsapp.net").

Lemma media_message_not_text E c message mediaPath msg :
  media_message E c message mediaPath = inr msg -> GetConversation msg = "".
Proof.
  unfold media_message.
  destruct (Whatsapp.validateMediaPath E mediaPath); [discriminate|].
  destruct (ReadFile c mediaPath) as [err | mediaData]; [discriminate|].
  destruct (media_kind _) as [mediaType mimeType].
  destruct (Upload c mediaData mediaType) as [err | resp]; [discriminate|].
  destruct mediaType.
  - intro H. inversion H. reflexivity.
  - destruct (Strings.Contains mimeType "ogg").
    + destruct (AnalyzeOggOpus c mediaData) as [err | [s w]]; intro H; inversion H.
      reflexivity.
    + intro H. inversion H. reflexivity.
  - intro H. inversion H. reflexivity.
  - intro H. inversion H. reflexivity.
Qed.

Lemma StoreMessage_tables id chatJID sender senderName content timestamp isFromMe
    mediaType filename url mediaKey fileSHA256 fileEncSHA256 fileLength db :
  let db' := snd (StoreMessage id chatJID sender senderName content timestamp
                    isFromMe mediaType filename url mediaKey fileSHA256
                    fileEncSHA256 fileLength db) in
  chats (tables db') = chats (tables db)
  /\ (content = "" /\ mediaType = "" \/ chat_exists (tables db) chatJID = false ->
      tables db' = tables db).
Proof.
  cbv zeta.
  destruct (StoreMessage id chatJID sender senderName content timestamp isFromMe
              mediaType filename url mediaKey fileSHA256 fileEncSHA256 fileLength db)
    as [[e | u] db'] eqn:H; cbn [snd]; unfold StoreMessage in H;
    destruct (String.eqb content "" && String.eqb mediaType "") eqn:Hempty.
  - inversion H.
  - apply Exec_inl in H. rewrite H. split; reflexivity.
  - inversion H; subst. split; reflexivity.
  - apply Exec_inr in H. destruct H as [H _].
    destruct (chat_exists (tables db) chatJID) eqn:Hex; [|discriminate].
    inversion H as [Ht]. split; [reflexivity|].
    intros [[-> ->] | Hno]; [|discriminate].
    simpl in Hempty. discriminate.
Qed.

(** X28.  What [SendMessage] does not record.  It never touches the
    chat rows, so a chat's time does not move when a message is sent to
    it.  A send with a media path leaves the whole store as it was,
    also when the send succeeded: the row would carry the text of
    [GetConversation], which is empty for media, and an empty media
    type, and [StoreMessage] skips such a row.  The same holds for a
    send to a chat the store does not know, whose row the foreign key
    refuses while the result still reports success. *)
Theorem SendMessage_leaves_unrecorded E c recipient message mediaPath db result db' :
  SendMessage E c recipient message mediaPath db = Some (result, db') ->
  chats (tables db') = chats (tables db)
  /\ (mediaPath <> "" \/ message = "" \/ Success result = false ->
      tables db' = tables db)
  /\ (forall jid, recipient_jid c recipient = inr jid ->
                  chat_exists (tables db) (JID_String jid) = false ->
                  tables db' = tables db).
Proof.
  unfold SendMessage, recipient_jid. intro H.
  assert (Hsame : forall r, Some (r, db) = Some (result, db') ->
            chats (tables db') = chats (tables db)
            /\ (mediaPath <> "" \/ message = "" \/ Success result = false ->
                tables db' = tables db)
            /\ (forall jid,
                  (if Strings.Contains recipient "@" then ParseJID c recipient
                   else inr (mkJID recipient "s.whatsapp.net")) = inr jid ->
                  chat_exists (tables db) (JID_String jid) = false ->
                  tables db' = tables db)).
  { intros r Hr. inversion Hr; subst. repeat split; reflexivity. }
  destruct (negb (IsConnected c)); [exact (Hsame _ H)|].
  destruct (if Strings.Contains recipient "@" then ParseJID c recipient
            else inr (mkJID recipient "s.whatsapp.net"))
    as [err | recipientJID]; [exact (Hsame _ H)|].
  destruct (if negb (String.eqb mediaPath "")
            then media_message E c message mediaPath
            else inr (OutConversation message)) as [early | msg] eqn:Hmsg;
    [exact (Hsame _ H)|].
  destruct (Send c recipientJID msg) as [err | sendResp]; [exact (Hsame _ H)|].
  destruct (StoreID c) as [own|]; [|discriminate].
  inversion H; subst result db'. clear H Hsame.
  match goal with
  | |- context [StoreMessage ?a1 ?a2 ?a3 ?a4 ?a5 ?a6 ?a7 ?a8 ?a9 ?a10 ?a11 ?a12 ?a13 ?a14 db] =>
      destruct (StoreMessage_tables a1 a2 a3 a4 a5 a6 a7 a8 a9 a10 a11 a12 a13 a14 db)
        as [Hchats Hskip]
  end.
  split; [exact Hchats|]. split.
  - intros [Hmedia | [Hblank | Hfalse]]; [| |discriminate].
    + apply Hskip. left. split; [|reflexivity].
      apply String.eqb_neq in Hmedia. rewrite Hmedia in Hmsg. simpl in Hmsg.
      exact (media_message_not_text _ _ _ _ _ Hmsg).
    + apply Hskip. left. split; [|reflexivity].
      destruct (String.eqb mediaPath ""); simpl in Hmsg.
      * inversion Hmsg. exact Hblank.
      * exact (media_message_not_text _ _ _ _ _ Hmsg).
  - intros jid Hjid Hno. inversion Hjid; subst jid. apply Hskip. right. exact Hno.
Qed.

(** X29.  What [SendMessage] records.  When the driver answers, a text
    sent to a chat that has a row in the store is stored under the id
    the platform returned, as a message from the device itself with the
    device's user as sender and sender name, and with the platform's
    timestamp. *)
Theorem SendMessage_records_text E c recipient message jid db result db' :
  faults db = [] ->
  message <> "" ->
  recipient_jid c recipient = inr jid ->
  chat_exists (tables db) (JID_String jid) = true ->
  SendMessage E c recipient message "" db = Some (result, db') ->
  Success result = true ->
  exists own ts,
    StoreID c = Some own /\ Timestamp result = Some ts
    /\ rows_with (MessageID result) (JID_String jid) (tables db')
       = [mkMessageRow (MessageID result) (JID_String jid) (User own) (User own)
                       message ts true "" "" "" [] [] [] 0].
Proof.
  unfold SendMessage, recipient_jid. intros Hq Hne Hjid Hex H Hok.
  destruct (negb (IsConnected c));
    [inversion H; subst; discriminate|].
  rewrite Hjid in H. simpl in H.
  destruct (Send c jid (OutConversation message)) as [err | sendResp];
    [inversion H; subst; discriminate|].
  destruct (StoreID c) as [own|]; [|discriminate].
  inversion H; subst result db'. clear H. cbn [MessageID Timestamp].
  exists own, (RespTimestamp sendResp). split; [reflexivity|]. split; [reflexivity|].
  destruct (StoreMessage_quiet (RespID sendResp) (JID_String jid) (User own) (User own)
              message (RespTimestamp sendResp) true "" "" "" [] [] [] 0 db Hq Hex)
    as [db3 Hstore].
  rewrite Hstore. cbn [snd].
  destruct (StoreMessage_written _ _ _ _ _ _ _ _ _ _ _ _ _ _ _ _ _
              (or_introl Hne) Hstore) as (Hrows & _).
  rewrite Hrows. unfold written_row.
  destruct (String.eqb (User own) ""); reflexivity.
Qed.

End SendRecords.

Section SendRecordsRun.
Import Types Events Database Sending.

Definition online : Client :=
  mkClient true
           (fun _ => inr (mkJID "111" "s.whatsapp.net"))
           (fun _ => inr [])
           (fun _ _ => inr (mkUploadResponse "https://mmg.example/f" "/f" [] [] [] 0))
           (fun _ => inr (1, None))
           (fun _ _ => inr (mkSendResponse "OUT1" 700))
           (Some (mkJID "999" "s.whatsapp.net")).

(** A store that knows the chat, last active at 100. *)
Definition known : Conn := snd (StoreChat alice "Alice" 100 fresh).

Lemma SendMessage_leaves_unrecorded_witness :
  exists result db',
    SendMessage Sample.env online alice "look" "/tmp/a.jpg" known = Some (result, db')
    /\ Success result = true
    /\ tables db' = tables known.
Proof.
  destruct (SendMessage Sample.env online alice "look" "/tmp/a.jpg" known)
    as [[result db']|] eqn:H; [|vm_compute in H; discriminate].
  exists result, db'. split; [reflexivity|].
  destruct (SendMessage_leaves_unrecorded Sample.env online alice "look" "/tmp/a.jpg"
              known result db' H) as (_ & Hmedia & _).
  split; [|apply Hmedia; left; discriminate].
  vm_compute in H. inversion H. reflexivity.
Defined.

(** A text to a chat without a row: reported as sent, not recorded. *)
Example SendMessage_unknown_chat_run :
  option_map (fun r => (Success (fst r), tables (snd r)))
             (SendMessage Sample.env online alice "hello" "" fresh)
  = Some (true, empty_tables).
Proof. vm_compute. reflexivity. Qed.

Lemma SendMessage_records_text_witness :
  (faults known = [] /\ "hello" <> ""
   /\ recipient_jid online alice = inr (mkJID "111" "s.whatsapp.net")
   /\ chat_exists (tables known) alice = true)
  /\ exists result db',
       SendMessage Sample.env online alice "hello" "" known = Some (result, db')
       /\ rows_with "OUT1" alice (tables db')
          = [mkMessageRow "OUT1" alice "999" "999" "hello" 700 true "" "" "" [] [] [] 0]
       /\ last_activity alice (tables db') = Some 100.
Proof.
  split; [repeat split; (reflexivity || discriminate)|].
  destruct (SendMessage Sample.env online alice "hello" "" known)
    as [[result db']|] eqn:H; [|vm_compute in H; discriminate].
  exists result, db'. split; [reflexivity|].
  assert (Hok : Success result = true) by (vm_compute in H; inversion H; reflexivity).
  assert (Hid : MessageID result = "OUT1")
    by (vm_compute in H; inversion H; reflexivity).
  assert (Hne : "hello" <> "") by discriminate.
  destruct (SendMessage_records_text Sample.env online alice "hello"
              (mkJID "111" "s.whatsapp.net") known result db'
              eq_refl Hne eq_refl eq_refl H Hok)
    as (own & ts & Hown & Hts & Hrows).
  split.
  - rewrite Hid in Hrows. change (JID_String (mkJID "111" "s.whatsapp.net")) with alice in Hrows.
    rewrite Hrows. inversion Hown; subst own.
    assert (Hts' : Timestamp result = Some 700)
      by (vm_compute in H; inversion H; reflexivity).
    rewrite Hts' in Hts. inversion Hts. reflexivity.
  - vm_compute in H. inversion H. reflexivity.
Defined.

End SendRecordsRun.

(** ** Phone pairing *)

Section PairingCode.
Import Pairing.

(** X30.  A pairing that neither succeeded nor failed stays in
    progress for good.  Once [PairWithPhone] has handed out a code,
    every further call is refused with "pairing already in progress"
    and changes nothing, whatever the platform would answer and also
    after the 160 seconds of the code are over, when
    [GetPairingStatus] still reports the pairing in progress with 0
    seconds left; before that it reports the whole seconds that
    remain.  Only the platform's success or error event, through
    [HandlePairingSuccess] or [HandlePairingError], ends the state. *)
Theorem PairWithPhone_stays_in_progress P t0 phoneNumber c code c1 :
  PairWithPhone P t0 phoneNumber c = (inr code, c1) ->
  (forall P' t phoneNumber',
      PairWithPhone P' t phoneNumber' c1 = (inl "pairing already in progress", c1))
  /\ (forall t, t0 + 160 * Main.Second <= t ->
                GetPairingStatus t c1 = (true, code, 0, false, None))
  /\ (forall t, t < t0 + 160 * Main.Second ->
                GetPairingStatus t c1
                = (true, code, (t0 + 160 * Main.Second - t) / Main.Second, false, None))
  /\ pairingInProgress (HandlePairingSuccess c1) = false
  /\ (forall err, pairingInProgress (HandlePairingError err c1) = false).
Proof.
  unfold PairWithPhone. intro H.
  destruct (pairingInProgress c); [discriminate|].
  destruct (Linked P); [discriminate|].
  destruct (if negb (IsConnected P) then Connect P else None); [discriminate|].
  destruct (PairPhone P phoneNumber) as [err | code']; [discriminate|].
  inversion H; subst code' c1. clear H. cbn [pairingInProgress pairingComplete pairingError].
  split; [reflexivity|]. split; [|split; [|split; reflexivity]].
  - intros t Ht. unfold GetPairingStatus.
    cbn [pairingInProgress pairingCode pairingExpiry pairingComplete pairingError].
    change (160 * Main.Second) with 160000000000 in *.
    destruct (Z.ltb_spec 0 (t0 + 160000000000 - t)); [lia | reflexivity].
  - intros t Ht. unfold GetPairingStatus.
    cbn [pairingInProgress pairingCode pairingExpiry pairingComplete pairingError].
    change (160 * Main.Second) with 160000000000 in *.
    destruct (Z.ltb_spec 0 (t0 + 160000000000 - t)); [reflexivity | lia].
Qed.

Definition unlinked : Platform :=
  mkPlatform false true None (fun _ => inr "ABCD-1234").

Definition idle : State := mkState false "" None false None.

Lemma PairWithPhone_stays_in_progress_witness :
  let c1 := snd (PairWithPhone unlinked 0 "4915112345678" idle) in
  PairWithPhone unlinked 0 "4915112345678" idle = (inr "ABCD-1234", c1)
  /\ PairWithPhone unlinked (3600 * Main.Second) "4915112345678" c1
     = (inl "pairing already in progress", c1)
  /\ GetPairingStatus (3600 * Main.Second) c1 = (true, "ABCD-1234", 0, false, None)
  /\ GetPairingStatus (59 * Main.Second + 1) c1
     = (true, "ABCD-1234", 100, false, None).
Proof.
  cbv zeta. split; [reflexivity|].
  destruct (PairWithPhone_stays_in_progress unlinked 0 "4915112345678" idle
              "ABCD-1234" (snd (PairWithPhone unlinked 0 "4915112345678" idle))
              eq_refl) as (Hagain & Hlate & Hearly & _).
  split; [apply Hagain|]. split.
  - apply Hlate. vm_compute. discriminate.
  - rewrite Hearly; [reflexivity | reflexivity].
Defined.

End PairingCode.
